(** * ctc-import: booking import and payment reconciliation

    A shallow embedding of [ctc-import.py], the script that imports the
    Clubspark booking export and the Stripe settlement report of Coburg
    Tennis Club into a GnuCash book, together with the properties of its
    reconciliation and account-routing logic.

    Conventions of the embedding.
    - A Python [str] is a [string]; a character stands for the code point
      of the same number (code points below 256).
    - Every cell of a CSV row is text, as [csv.DictReader] yields it for a
      feed whose header carries the columns the script reads; a row is a
      record with one field per column read.
    - Python objects that are mutated after they were shared (booking row
      dictionaries, invoices, transactions, customers) live in stores and
      are referred to by their index.
    - The GnuCash book is the external ledger: its objects are records of
      what the script sets on them, and an account handle is the path of
      names the script looks up from the root account.
    - Functions that can raise return in a state-and-exception monad whose
      state survives the exception, as the book does. *)

From Stdlib Require Import String Ascii List ZArith Lia Bool Arith PeanoNat DecimalString
Permutation.
Import ListNotations.
Open Scope string_scope.
Open Scope list_scope.

(** ** Python values and exceptions *)

Inductive exn : Type :=
| KeyError (key : string)
| UnboundLocalError (var : string)
| ValueError
| InvalidOperation
| TypeError.

Inductive result (A : Type) : Type :=
| Ok (a : A)
| Raise (e : exn).
Arguments Ok {A} a.
Arguments Raise {A} e.

(** The two kinds of value the script compares with [==]: a CSV cell and an
    integer literal. *)
Inductive pyval : Type :=
| PyStr (s : string)
| PyInt (n : Z).

(** [a == b]: values of different types are never equal. *)
Definition py_eq (a b : pyval) : bool :=
  match a, b with
  | PyStr s, PyStr t => String.eqb s t
  | PyInt m, PyInt n => Z.eqb m n
  | _, _ => false
  end.

(** Truth value of a [str]: only the empty string is false. *)
Definition truthy (s : string) : bool := negb (String.eqb s "").

(** Truth value of a variable holding [None] or a [str]. *)
Definition truthy_opt (o : option string) : bool :=
  match o with
  | Some s => truthy s
  | None => false
  end.

(** [s.startswith(p)] *)
Definition startswith (s p : string) : bool := String.prefix p s.

(** [s.split(' ')[0]] *)
Fixpoint split_space_0 (s : string) : string :=
  match s with
  | EmptyString => EmptyString
  | String c s' => if Ascii.eqb c " " then EmptyString else String c (split_space_0 s')
  end.

(** ** The fragment of [re] the script uses

    Patterns are sequences of literal characters, greedy stars over a
    character class and capture groups; the matcher backtracks in the
    order of Python's engine (longest repetition first). *)

Inductive charclass : Type :=
| AnyChar                 (* .      any character but a newline *)
| NotChar (c : ascii)     (* [^c]  *)
| OneChar (c : ascii).    (* c     *)

Inductive atom : Type :=
| Lit (c : ascii)
| Star (k : charclass)
| GroupOpen
| GroupClose.

Definition regex := list atom.

Fixpoint lit (s : string) : regex :=
  match s with
  | EmptyString => []
  | String c s' => Lit c :: lit s'
  end.

Definition ascii_lower (c : ascii) : ascii :=
  let n := nat_of_ascii c in
  if (65 <=? n)%nat && (n <=? 90)%nat then ascii_of_nat (n + 32) else c.

Fixpoint string_lower (s : string) : string :=
  match s with
  | EmptyString => EmptyString
  | String c s' => String (ascii_lower c) (string_lower s')
  end.

(** Character comparison; [ic] is the [re.IGNORECASE] flag. *)
Definition chr_eq (ic : bool) (a b : ascii) : bool :=
  if ic then Ascii.eqb (ascii_lower a) (ascii_lower b) else Ascii.eqb a b.

Definition newline : ascii := ascii_of_nat 10.

Definition in_class (ic : bool) (k : charclass) (c : ascii) : bool :=
  match k with
  | AnyChar => negb (Ascii.eqb c newline)
  | NotChar x => negb (chr_eq ic x c)
  | OneChar x => chr_eq ic x c
  end.

(** Match [re] at the start of [s]; the result is the captured groups and
    the unconsumed rest.  [opened] holds the subject as it was at each
    group still open. *)
Fixpoint match_here (ic : bool) (re : regex) (s : string)
    (opened : list string) (caps : list string) {struct re}
  : option (list string * string) :=
  match re with
  | [] => Some (caps, s)
  | Lit c :: re' =>
      match s with
      | String d s' => if chr_eq ic c d then match_here ic re' s' opened caps else None
      | EmptyString => None
      end
  | Star k :: re' =>
      (fix star (s : string) : option (list string * string) :=
         match s with
         | String d s' =>
             if in_class ic k d then
               match star s' with
               | Some r => Some r
               | None => match_here ic re' s opened caps
               end
             else match_here ic re' s opened caps
         | EmptyString => match_here ic re' s opened caps
         end) s
  | GroupOpen :: re' => match_here ic re' s (s :: opened) caps
  | GroupClose :: re' =>
      match opened with
      | s0 :: opened' =>
          match_here ic re' s opened'
            (caps ++ [substring 0 (String.length s0 - String.length s) s0])
      | [] => None
      end
  end.

(** [re.search(re, s)] as a truth value: is there a match at some position. *)
Fixpoint re_search (ic : bool) (re : regex) (s : string) : bool :=
  match match_here ic re s [] [] with
  | Some _ => true
  | None =>
      match s with
      | String _ s' => re_search ic re s'
      | EmptyString => false
      end
  end.

(** [re.sub(re, '\\g', s)]: every leftmost non-overlapping match is replaced
    by its group [g].  The patterns of the script all contain a literal, so
    a match is never empty and each step consumes a character. *)
Fixpoint re_sub_aux (fuel : nat) (ic : bool) (re : regex) (g : nat) (s : string) : string :=
  match fuel with
  | O => s
  | S fuel' =>
      match match_here ic re s [] [] with
      | Some (caps, rest) =>
          let grp := nth (g - 1) caps "" in
          if (String.length rest <? String.length s)%nat
          then grp ++ re_sub_aux fuel' ic re g rest
          else match s with
               | String c s' => grp ++ String c (re_sub_aux fuel' ic re g s')
               | EmptyString => grp
               end
      | None =>
          match s with
          | String c s' => String c (re_sub_aux fuel' ic re g s')
          | EmptyString => EmptyString
          end
      end
  end.

Definition re_sub (ic : bool) (re : regex) (g : nat) (s : string) : string :=
  re_sub_aux (S (String.length s)) ic re g s.

(** ** Constants of the script *)

Definition COURT_BOOKING : string := "Court booking at Coburg Tennis Club".
Definition MEMBERSHIP_PREFIX : string := "Coburg Tennis Club:".
Definition STRIPE_PAYOUT : string := "STRIPE PAYOUT".
Definition REFUND_PREFIX : string := "REFUND FOR CHARGE".
Definition EVENT_PREFIX : string := "Coburg Tennis Club ".
Definition NO_NAME_ENTRY : string := "NoName".

(** ** Account handles *)

Definition account := list string.

Definition get_root_account : account := [].
Definition lookup_by_name (a : account) (name : string) : account := a ++ [name].
Definition GetName (a : account) : string := last a "".

Definition GetCheckingAcct : account :=
  let root := get_root_account in
  let assets := lookup_by_name root "Assets" in
  let current_assets := lookup_by_name assets "Current Assets" in
  lookup_by_name current_assets "Checking Account".

Definition GetReceivablesAcct : account :=
  let root := get_root_account in
  let assets := lookup_by_name root "Assets" in
  lookup_by_name assets "Accounts Receivable".

Definition GetStripeAcct : account :=
  let root := get_root_account in
  let assets := lookup_by_name root "Assets" in
  let current_assets := lookup_by_name assets "Current Assets" in
  lookup_by_name current_assets "Stripe Account".

Definition GetCourtHireAcct : account :=
  let root := get_root_account in
  let income := lookup_by_name root "Income" in
  let casual_hire_acct := lookup_by_name income "Casual Hire" in
  lookup_by_name casual_hire_acct "Court Hire".

Definition GetLightHireAcct : account :=
  let root := get_root_account in
  let income := lookup_by_name root "Income" in
  let casual_hire_acct := lookup_by_name income "Casual Hire" in
  lookup_by_name casual_hire_acct "Hire Light Fees".

Definition GetMembershipAcct (membership_detail : string) : account :=
  let root := get_root_account in
  let income := lookup_by_name root "Income" in
  let membership_acct := lookup_by_name income "Memberships" in
  if re_search false (lit "Junior") membership_detail then
    lookup_by_name membership_acct "Junior"
  else if re_search false (lit "Social") membership_detail then
    lookup_by_name membership_acct "Social"
  else if re_search false (lit "Student") membership_detail then
    lookup_by_name membership_acct "Student"
  else if re_search false (lit "Senior") membership_detail then
    lookup_by_name membership_acct "Senior"
  else
    lookup_by_name membership_acct "Individual".

Definition GetEventAcct (event_detail : string) : account :=
  let root := get_root_account in
  let income := lookup_by_name root "Income" in
  let event_acct := lookup_by_name income "Events" in
  let fundraising_acct := lookup_by_name income "Fundraising" in
  if re_search true (lit "OpenCourtSessions") event_detail then
    lookup_by_name event_acct "Open Court Sessions"
  else if re_search true (lit "MensSocial") event_detail then
    lookup_by_name event_acct "MensSocial"
  else if re_search true (lit "Girl") event_detail then
    lookup_by_name event_acct "Girl Lets Play"
  else if re_search true (lit "Club Champ") event_detail then
    lookup_by_name event_acct "Club Championships"
  else if re_search true (lit "Bingo") event_detail then
    lookup_by_name fundraising_acct "Bingo"
  else
    lookup_by_name fundraising_acct "Club Events".

Definition GetStripeFeeAcct : account :=
  let root := get_root_account in
  let expenses := lookup_by_name root "Expenses" in
  lookup_by_name expenses "Stripe Fee".

(** ** Library values: dates, date-times, decimals *)

Record date : Type := mkDate { year : Z; month : Z; day : Z }.

Record datetime : Type := mkDatetime {
  dt_year : Z; dt_month : Z; dt_day : Z;
  dt_hour : Z; dt_minute : Z; dt_second : Z }.

(** [a == b] on naive date-times. *)
Definition datetime_eqb (a b : datetime) : bool :=
  (dt_year a =? dt_year b)%Z && (dt_month a =? dt_month b)%Z &&
  (dt_day a =? dt_day b)%Z && (dt_hour a =? dt_hour b)%Z &&
  (dt_minute a =? dt_minute b)%Z && (dt_second a =? dt_second b)%Z.

(** A [decimal.Decimal]: sign, coefficient and exponent, or a special value. *)
Inductive decimal : Type :=
| DecFinite (negative : bool) (coefficient : N) (exponent : Z)
| DecInfinity (negative : bool)
| DecNaN (signaling : bool).

(** [d == 0]; a signaling NaN raises [InvalidOperation]. *)
Definition dec_eq0 (d : decimal) : option bool :=
  match d with
  | DecFinite _ c _ => Some (N.eqb c 0)
  | DecInfinity _ => Some false
  | DecNaN false => Some false
  | DecNaN true => None
  end.

(** [d > 0]; any NaN raises [InvalidOperation]. *)
Definition dec_gt0 (d : decimal) : option bool :=
  match d with
  | DecFinite n c _ => Some (negb n && negb (N.eqb c 0))
  | DecInfinity n => Some (negb n)
  | DecNaN _ => None
  end.

(** The parsers of the standard library the script calls; [None] is the
    exception the call raises ([InvalidOperation] for [Decimal],
    [ValueError] for the other two). *)
Class PyLib : Type := {
  Decimal : string -> option decimal;
  date_fromisoformat : string -> option date;
  datetime_strptime : string -> string -> option datetime
}.

(** ** The ledger *)

(** A [GncNumeric] as the script builds it: from a CSV cell, from an
    integer literal, or by [.neg()]. *)
Inductive gnc_numeric : Type :=
| GncNumeric (s : string)
| GncNumericInt (n : Z)
| GncNeg (g : gnc_numeric).

Record Split : Type := mkSplit {
  split_account : account;
  split_value : gnc_numeric }.

Record Transaction : Type := mkTransaction {
  trans_splits : list Split;
  trans_currency : option string;
  trans_date : option date;
  trans_description : string }.

Record Entry : Type := mkEntry {
  entry_date : date;
  entry_description : string;
  entry_quantity : gnc_numeric;
  entry_price : gnc_numeric;
  entry_account : account }.

(** One call of [ApplyPayment] on an invoice. *)
Record Payment : Type := mkPayment {
  pay_trans : nat;
  pay_xfer_acct : account;
  pay_amount : gnc_numeric;
  pay_exch : gnc_numeric;
  pay_date : date }.

(** What [PostToAccount] was called with. *)
Record Posting : Type := mkPosting {
  post_account : account;
  post_date : date;
  due_date : date;
  post_memo : string;
  accumulate_splits : bool;
  autopay : bool }.

Record Invoice : Type := mkInvoice {
  inv_id : string;
  inv_currency : string;
  inv_owner : option nat;
  inv_date_opened : option date;
  inv_is_credit_note : bool;
  inv_entries : list Entry;
  inv_posted : option Posting;
  inv_payments : list Payment }.

Record Customer : Type := mkCustomer {
  cust_id : string;
  cust_currency : string;
  cust_name : string;
  cust_email : string }.

Record Book : Type := mkBook {
  invoices : list Invoice;
  transactions : list Transaction;
  customers : list Customer;
  invoice_counter : nat;
  customer_counter : nat }.

(** ** Booking rows *)

(** The columns of the booking feed the script reads. *)
Record BookingCsv : Type := mkBookingCsv {
  Player_First_Name : string;
  Player_Last_Name : string;
  Booked_Date : string;
  Court_Fee : string;
  Light_Fee : string;
  Total_Fee : string;
  Booking_Date : string;
  Booking_Time : string }.

(** A booking row dictionary: the CSV cells and the two keys the importer
    adds; [None] is an absent key. *)
Record BookingRow : Type := mkBookingRow {
  row_csv : BookingCsv;
  row_Invoice : option nat;
  row_Allocated : option bool }.

(** [cs_map]: player name to bucket, in insertion order; a bucket is a
    list of references to booking rows. *)
Definition cs_map_t := list (string * list nat).

Fixpoint cs_get (cs_map : cs_map_t) (key : string) : option (list nat) :=
  match cs_map with
  | [] => None
  | (k, l) :: rest => if String.eqb k key then Some l else cs_get rest key
  end.

(** [cs_map[key].append(row)] *)
Fixpoint cs_append (cs_map : cs_map_t) (key : string) (row : nat) : cs_map_t :=
  match cs_map with
  | [] => []
  | (k, l) :: rest =>
      if String.eqb k key then (k, l ++ [row]) :: rest
      else (k, l) :: cs_append rest key row
  end.

(** [cs_map[key] = [row]] for a key that is not in the map. *)
Definition cs_new (cs_map : cs_map_t) (key : string) (row : nat) : cs_map_t :=
  cs_map ++ [(key, [row])].

(** ** The columns of the settlement feed the script reads *)

Record StripeRow : Type := mkStripeRow {
  Email_address : string;          (* Email address (metadata) *)
  Contact_ID : string;             (* Contact ID (metadata) *)
  Mobile_number : string;          (* Mobile number (metadata) *)
  Phone_number : string;           (* Phone number (metadata) *)
  First_name : string;             (* First name (metadata) *)
  First_Name : string;             (* First Name (metadata) *)
  FirstName : string;              (* FirstName (metadata) *)
  Last_name : string;              (* Last name (metadata) *)
  Last_Name : string;              (* Last Name (metadata) *)
  Surname : string;                (* Surname (metadata) *)
  Available_On : string;           (* Available On (UTC) *)
  Amount : string;
  Fee : string;
  Net : string;
  Description : string;
  Type_ : string;                  (* Type *)
  Session : string;                (* Session (metadata) *)
  Membership : string;             (* Membership (metadata) *)
  Category : string;               (* Category (metadata) *)
  Course_Name : string }.          (* Course Name (metadata) *)

(** ** State and exceptions *)

Record World : Type := mkWorld {
  book : Book;
  heap : list BookingRow;
  stdout : list string }.

Definition M (A : Type) : Type := World -> World * result A.

Definition ret {A : Type} (a : A) : M A := fun w => (w, Ok a).

Definition raise {A : Type} (e : exn) : M A := fun w => (w, Raise e).

Definition bind {A B : Type} (m : M A) (f : A -> M B) : M B :=
  fun w =>
    match m w with
    | (w', Ok a) => f a w'
    | (w', Raise e) => (w', Raise e)
    end.

Notation "x <- m ;; k" := (bind m (fun x => k))
  (at level 100, m at next level, right associativity).
Notation "' p <- m ;; k" := (bind m (fun p => k))
  (at level 100, p pattern, m at next level, right associativity).
Notation "m ;; k" := (bind m (fun _ => k))
  (at level 100, right associativity).

Definition or_raise {A : Type} (e : exn) (o : option A) : M A :=
  match o with
  | Some a => ret a
  | None => raise e
  end.

Definition when (b : bool) (m : M unit) : M unit :=
  if b then m else ret tt.

Definition get_book : M Book := fun w => (w, Ok (book w)).

Definition modify_book (f : Book -> Book) : M unit :=
  fun w => (mkWorld (f (book w)) (heap w) (stdout w), Ok tt).

(** [print(s)] *)
Definition print (s : string) : M unit :=
  fun w => (mkWorld (book w) (heap w) (stdout w ++ [s]), Ok tt).

(** [l] with [f] applied to its element of index [n]. *)
Fixpoint upd_nth {A : Type} (n : nat) (f : A -> A) (l : list A) : list A :=
  match l, n with
  | [], _ => []
  | x :: rest, O => f x :: rest
  | x :: rest, S n' => x :: upd_nth n' f rest
  end.

Definition empty_row : BookingRow :=
  mkBookingRow (mkBookingCsv "" "" "" "" "" "" "" "") None None.

(** The dictionary the CSV reader yields for a row: a new object. *)
Definition new_row (c : BookingCsv) : M nat :=
  fun w => (mkWorld (book w) (heap w ++ [mkBookingRow c None None]) (stdout w),
            Ok (List.length (heap w))).

Definition get_row (r : nat) : M BookingRow :=
  fun w => (w, Ok (nth r (heap w) empty_row)).

Definition modify_row (r : nat) (f : BookingRow -> BookingRow) : M unit :=
  fun w => (mkWorld (book w) (upd_nth r f (heap w)) (stdout w), Ok tt).

(** [row[key]] for the two added keys. *)
Definition getitem {A : Type} (key : string) (o : option A) : M A :=
  or_raise (KeyError key) o.

(** ** Ledger operations *)

Fixpoint zeros (n : nat) : string :=
  match n with
  | O => EmptyString
  | S n' => String "0" (zeros n')
  end.

(** The ledger formats its identifiers as six-digit counters. *)
Definition format_id (n : nat) : string :=
  let s := NilEmpty.string_of_uint (Nat.to_uint n) in
  zeros (6 - String.length s) ++ s.

Definition set_invoices (b : Book) (l : list Invoice) : Book :=
  mkBook l (transactions b) (customers b) (invoice_counter b) (customer_counter b).

Definition set_transactions (b : Book) (l : list Transaction) : Book :=
  mkBook (invoices b) l (customers b) (invoice_counter b) (customer_counter b).

Definition modify_invoice (i : nat) (f : Invoice -> Invoice) : M unit :=
  modify_book (fun b => set_invoices b (upd_nth i f (invoices b))).

Definition modify_trans (t : nat) (f : Transaction -> Transaction) : M unit :=
  modify_book (fun b => set_transactions b (upd_nth t f (transactions b))).

(** [book.InvoiceNextID(owner)] *)
Definition InvoiceNextID (owner : option nat) : M string :=
  fun w =>
    let b := book w in
    let n := S (invoice_counter b) in
    (mkWorld (mkBook (invoices b) (transactions b) (customers b) n (customer_counter b))
             (heap w) (stdout w),
     Ok (format_id n)).

(** [book.CustomerNextID()] *)
Definition CustomerNextID : M string :=
  fun w =>
    let b := book w in
    let n := S (customer_counter b) in
    (mkWorld (mkBook (invoices b) (transactions b) (customers b) (invoice_counter b) n)
             (heap w) (stdout w),
     Ok (format_id n)).

(** [Invoice(book, id, currency, owner, date)]: the handle of the new invoice. *)
Definition Invoice_new (id currency : string) (owner : option nat) (d : option date) : M nat :=
  fun w =>
    let b := book w in
    (mkWorld (set_invoices b (invoices b ++ [mkInvoice id currency owner d false [] None []]))
             (heap w) (stdout w),
     Ok (List.length (invoices b))).

(** [Entry(book, invoice, date)] followed by its four setters. *)
Definition Entry_new (inv : nat) (d : date) (description : string)
    (quantity price : gnc_numeric) (acct : account) : M unit :=
  modify_invoice inv (fun i =>
    mkInvoice (inv_id i) (inv_currency i) (inv_owner i) (inv_date_opened i)
      (inv_is_credit_note i)
      (inv_entries i ++ [mkEntry d description quantity price acct])
      (inv_posted i) (inv_payments i)).

Definition SetIsCreditNote (inv : nat) (flag : bool) : M unit :=
  modify_invoice inv (fun i =>
    mkInvoice (inv_id i) (inv_currency i) (inv_owner i) (inv_date_opened i)
      flag (inv_entries i) (inv_posted i) (inv_payments i)).

Definition PostToAccount (inv : nat) (acc : account) (post due : date)
    (memo : string) (accumulate auto : bool) : M unit :=
  modify_invoice inv (fun i =>
    mkInvoice (inv_id i) (inv_currency i) (inv_owner i) (inv_date_opened i)
      (inv_is_credit_note i) (inv_entries i)
      (Some (mkPosting acc post due memo accumulate auto)) (inv_payments i)).

(** [invoice.ApplyPayment(trans, xfer_acct, amount, exch, date, None, None)]:
    the ledger's own operation, kept as the record of the call. *)
Definition ApplyPayment (inv : nat) (trans : nat) (xfer : account)
    (amount exch : gnc_numeric) (d : date) : M unit :=
  modify_invoice inv (fun i =>
    mkInvoice (inv_id i) (inv_currency i) (inv_owner i) (inv_date_opened i)
      (inv_is_credit_note i) (inv_entries i) (inv_posted i)
      (inv_payments i ++ [mkPayment trans xfer amount exch d])).

(** [Transaction(book)]: the handle of the new transaction. *)
Definition Transaction_new : M nat :=
  fun w =>
    let b := book w in
    (mkWorld (set_transactions b (transactions b ++ [mkTransaction [] None None ""]))
             (heap w) (stdout w),
     Ok (List.length (transactions b))).

(** [Split(book)], [SetAccount], [SetValue], [SetParent(trans)]. *)
Definition Split_new (trans : nat) (acct : account) (value : gnc_numeric) : M unit :=
  modify_trans trans (fun t =>
    mkTransaction (trans_splits t ++ [mkSplit acct value])
      (trans_currency t) (trans_date t) (trans_description t)).

Definition SetCurrency (trans : nat) (currency : string) : M unit :=
  modify_trans trans (fun t =>
    mkTransaction (trans_splits t) (Some currency) (trans_date t) (trans_description t)).

(** [trans.SetDate(d.day, d.month, d.year)] *)
Definition SetDate (trans : nat) (d : date) : M unit :=
  modify_trans trans (fun t =>
    mkTransaction (trans_splits t) (trans_currency t)
      (Some (mkDate (year d) (month d) (day d))) (trans_description t)).

Definition SetDescription (trans : nat) (description : string) : M unit :=
  modify_trans trans (fun t =>
    mkTransaction (trans_splits t) (trans_currency t) (trans_date t) description).

Definition AUD : string := "AUD".

Fixpoint find_index {A : Type} (p : A -> bool) (l : list A) (i : nat) : option nat :=
  match l with
  | [] => None
  | x :: rest => if p x then Some i else find_index p rest (S i)
  end.

(** [book.CustomerLookupByID("000001")] *)
Definition GetBookACourtCustomer : M (option nat) :=
  b <- get_book ;;
  ret (find_index (fun c => String.eqb (cust_id c) "000001") (customers b) 0).

(** ** The script *)

Definition GetCustomer (name email : string) : M nat :=
  b <- get_book ;;
  match find_index (fun c => String.eqb (cust_name c) name) (customers b) 0 with
  | Some customer => ret customer
  | None =>
      cust_id <- CustomerNextID ;;
      fun w =>
        let b := book w in
        (mkWorld (mkBook (invoices b) (transactions b)
                         (customers b ++ [mkCustomer cust_id AUD name email])
                         (invoice_counter b) (customer_counter b))
                 (heap w) (stdout w),
         Ok (List.length (customers b)))
  end.

Definition MakeStripePayment (amount fee net description : string) (txn_date : date) : M nat :=
  let stripe_acct := GetStripeAcct in
  trans <- Transaction_new ;;
  Split_new trans stripe_acct (GncNumeric amount) ;;
  SetCurrency trans AUD ;;
  SetDate trans txn_date ;;
  SetDescription trans description ;;
  ret trans.

Definition DoStripeTransfer (amount : string) (txn_date : date) : M unit :=
  let stripe_acct := GetStripeAcct in
  let checking_acct := GetCheckingAcct in
  trans <- Transaction_new ;;
  Split_new trans stripe_acct (GncNumeric amount) ;;
  Split_new trans checking_acct (GncNeg (GncNumeric amount)) ;;
  SetCurrency trans AUD ;;
  SetDate trans txn_date ;;
  SetDescription trans "Stripe Payout".

Definition RecordStripeFee (trans : nat) (net fee : string) : M unit :=
  if negb (truthy fee) then ret tt
  else
    let stripe_fee_acct := GetStripeFeeAcct in
    modify_trans trans (fun t =>
      mkTransaction
        (map (fun split =>
                if String.eqb (GetName (split_account split)) "Stripe Account"
                then mkSplit (split_account split) (GncNumeric net)
                else split)
             (trans_splits t))
        (trans_currency t) (trans_date t) (trans_description t)) ;;
    Split_new trans stripe_fee_acct (GncNumeric fee).

Definition CreateInvoiceAndPayment (customer : nat) (acct : account)
    (amount fee net description : string) (txn_date : date) : M unit :=
  cust_invoice_id <- InvoiceNextID (Some customer) ;;
  cust_invoice <- Invoice_new cust_invoice_id AUD (Some customer) None ;;
  Entry_new cust_invoice txn_date description (GncNumericInt 1) (GncNumeric amount) acct ;;
  let receivables := GetReceivablesAcct in
  PostToAccount cust_invoice receivables txn_date txn_date "" true false ;;
  trans <- MakeStripePayment amount fee net description txn_date ;;
  let stripe_acct := GetStripeAcct in
  ApplyPayment cust_invoice trans stripe_acct (GncNumeric amount) (GncNumericInt 1) txn_date ;;
  RecordStripeFee trans net fee.

Section Script.

Context {lib : PyLib}.

(** *** EnterBacInvoices *)

(** The body of the loop over the booking feed. *)
Definition EnterBacInvoices_row (cs_map : cs_map_t) (c : BookingCsv) : M cs_map_t :=
  let court_hire_acct := GetCourtHireAcct in
  let light_hire_acct := GetLightHireAcct in
  row <- new_row c ;;
  let player_name := (Player_First_Name c ++ " " ++ Player_Last_Name c)%string in
  cs_map <- (if truthy player_name then
               match cs_get cs_map player_name with
               | Some _ => ret (cs_append cs_map player_name row)
               | None => ret (cs_new cs_map player_name row)
               end
             else
               (* 'CS: No name for row: ' + row : str + dict *)
               raise TypeError) ;;
  let date_str := Booked_Date c in
  txn_date <- or_raise ValueError (date_fromisoformat date_str) ;;
  court_hire <- or_raise InvalidOperation (Decimal (Court_Fee c)) ;;
  light_hire <- or_raise InvalidOperation (Decimal (Light_Fee c)) ;;
  court_zero <- or_raise InvalidOperation (dec_eq0 court_hire) ;;
  light_zero <- or_raise InvalidOperation (dec_eq0 light_hire) ;;
  if court_zero && light_zero then ret cs_map
  else
    book_a_court <- GetBookACourtCustomer ;;
    invoice_id <- InvoiceNextID book_a_court ;;
    invoice <- Invoice_new invoice_id AUD book_a_court (Some txn_date) ;;
    court_pos <- or_raise InvalidOperation (dec_gt0 court_hire) ;;
    when court_pos
      (Entry_new invoice txn_date "Court Hire" (GncNumericInt 1)
         (GncNumeric (Court_Fee c)) court_hire_acct) ;;
    light_pos <- or_raise InvalidOperation (dec_gt0 light_hire) ;;
    when light_pos
      (Entry_new invoice txn_date "Light Hire" (GncNumericInt 1)
         (GncNumeric (Light_Fee c)) light_hire_acct) ;;
    let receivables := GetReceivablesAcct in
    PostToAccount invoice receivables txn_date txn_date "" true false ;;
    modify_row row (fun r => mkBookingRow (row_csv r) (Some invoice) (Some false)) ;;
    ret cs_map.

Fixpoint EnterBacInvoices_loop (cs_csv : list BookingCsv) (cs_map : cs_map_t) : M cs_map_t :=
  match cs_csv with
  | [] => ret cs_map
  | c :: rest =>
      cs_map' <- EnterBacInvoices_row cs_map c ;;
      EnterBacInvoices_loop rest cs_map'
  end.

Definition EnterBacInvoices (cs_csv : list BookingCsv) : M cs_map_t :=
  EnterBacInvoices_loop cs_csv [(NO_NAME_ENTRY, [])].

(** *** ProcessStripePayments *)

(** The two variables of the function that keep their value from one
    settlement row to the next; [None] is an unbound variable. *)
Record Locals : Type := mkLocals {
  player_list : option (list nat);
  player_row : option nat }.

(** [for player_row in player_list: ...]; the result is the loop variable
    and the flag [allocated]. *)
Fixpoint allocate_loop (trans : nat) (amount fee net : string) (txn_date : date)
    (l : list nat) (player_row : option nat) : M (option nat * bool) :=
  match l with
  | [] => ret (player_row, false)
  | r :: l' =>
      prow <- get_row r ;;
      hit <- (if String.eqb (Total_Fee (row_csv prow)) amount then
                a <- getitem "Allocated" (row_Allocated prow) ;;
                ret (negb a)
              else ret false) ;;
      if hit then
        inv <- getitem "Invoice" (row_Invoice prow) ;;
        ApplyPayment inv trans GetStripeAcct (GncNumeric amount) (GncNumericInt 1) txn_date ;;
        RecordStripeFee trans net fee ;;
        modify_row r (fun x => mkBookingRow (row_csv x) (row_Invoice x) (Some true)) ;;
        ret (Some r, true)
      else allocate_loop trans amount fee net txn_date l' (Some r)
  end.

(** The branch [description == COURT_BOOKING]. *)
Definition court_payment (loc : Locals) (player_name amount fee net description : string)
    (txn_date : date) : M Locals :=
  trans <- MakeStripePayment amount fee net description txn_date ;;
  l <- or_raise (UnboundLocalError "player_list") (player_list loc) ;;
  ' (prow, allocated) <- allocate_loop trans amount fee net txn_date l (player_row loc) ;;
  let loc' := mkLocals (player_list loc) prow in
  if negb allocated then
    r <- or_raise (UnboundLocalError "player_row") prow ;;
    x <- get_row r ;;
    print ("Unable to allocate payment to invoice :" ++ Total_Fee (row_csv x)
             ++ player_name ++ String newline EmptyString)%string ;;
    ret loc'
  else ret loc'.

(** The pattern [REFUND_PREFIX], a space, a literal opening parenthesis,
    a group of any characters repeated greedily, a literal closing
    parenthesis. *)
Definition refund_pattern : regex :=
  lit REFUND_PREFIX ++ [Lit " "; Lit "("; GroupOpen; Star AnyChar; GroupClose; Lit ")"].

Definition refund_format : string := "Coburg Tennis Club %A, %d %B %Y %I:%M %p".
Definition booking_format : string := "%Y-%m-%d %H:%M:%S".

(** [for cs_row in l: ...] of the refund search; [fees] is the pair
    [court_fee], [light_fee]. *)
Fixpoint refund_scan_bucket (booking_datetime : datetime) (amount : string)
    (l : list nat) (fees : option string * option string)
  : M (option string * option string) :=
  match l with
  | [] => ret fees
  | cs_row :: l' =>
      r <- get_row cs_row ;;
      cs_booking_datetime <-
        or_raise ValueError
          (datetime_strptime
             (Booking_Date (row_csv r) ++ " " ++ Booking_Time (row_csv r))%string
             booking_format) ;;
      let cs_total_fee := Total_Fee (row_csv r) in
      if datetime_eqb cs_booking_datetime booking_datetime && String.eqb cs_total_fee amount
      then refund_scan_bucket booking_datetime amount l'
             (Some (Court_Fee (row_csv r)), Some (Light_Fee (row_csv r)))
      else refund_scan_bucket booking_datetime amount l' fees
  end.

(** [for key in cs_map: l = cs_map[key] ...] *)
Fixpoint refund_scan (booking_datetime : datetime) (amount : string)
    (cs_map : cs_map_t) (fees : option string * option string)
  : M (option string * option string) :=
  match cs_map with
  | [] => ret fees
  | (key, l) :: rest =>
      fees' <- refund_scan_bucket booking_datetime amount l fees ;;
      refund_scan booking_datetime amount rest fees'
  end.

(** The refund branch with [refund_item == COURT_BOOKING]. *)
Definition court_refund (cs_map : cs_map_t) (refund_detail amount fee net : string)
    (txn_date : date) : M unit :=
  let booking_datetime := datetime_strptime refund_detail refund_format in
  ' (court_fee, light_fee) <-
      match booking_datetime with
      | Some bd => refund_scan bd amount cs_map (None, None)
      | None => ret (None, None)
      end ;;
  let court_fee :=
    match court_fee, light_fee with
    | None, None => Some amount
    | _, _ => court_fee
    end in
  book_a_court <- GetBookACourtCustomer ;;
  invoice_id <- InvoiceNextID book_a_court ;;
  invoice <- Invoice_new invoice_id AUD book_a_court (Some txn_date) ;;
  SetIsCreditNote invoice true ;;
  let court_hire_acct := GetCourtHireAcct in
  let light_hire_acct := GetLightHireAcct in
  let receivables := GetReceivablesAcct in
  match court_fee with
  | Some f =>
      when (truthy f)
        (Entry_new invoice txn_date "Court Hire Refund" (GncNumericInt 1)
           (GncNumeric f) court_hire_acct)
  | None => ret tt
  end ;;
  match light_fee with
  | Some f =>
      when (truthy f)
        (Entry_new invoice txn_date "Light Hire Refund" (GncNumericInt 1)
           (GncNumeric f) light_hire_acct)
  | None => ret tt
  end ;;
  PostToAccount invoice receivables txn_date txn_date "" true false ;;
  trans <- Transaction_new ;;
  Split_new trans GetStripeAcct (GncNumeric amount) ;;
  SetCurrency trans AUD ;;
  SetDate trans txn_date ;;
  SetDescription trans "Book A Court Refund" ;;
  ApplyPayment invoice trans GetStripeAcct (GncNumeric amount) (GncNumericInt 1) txn_date ;;
  RecordStripeFee trans net fee.

(** The refund branch for any other refunded item. *)
Definition plain_refund (refund_item amount : string) (txn_date : date) : M unit :=
  let refund_acct :=
    if re_search false (lit MEMBERSHIP_PREFIX) refund_item
    then GetMembershipAcct refund_item
    else GetEventAcct refund_item in
  trans <- Transaction_new ;;
  Split_new trans GetStripeAcct (GncNumeric amount) ;;
  Split_new trans refund_acct (GncNeg (GncNumeric amount)) ;;
  SetCurrency trans AUD ;;
  SetDate trans txn_date ;;
  SetDescription trans "Refund".

(** The pattern [MEMBERSHIP_PREFIX], a colon, a group of any characters
    repeated greedily. *)
Definition membership_item_pattern : regex :=
  lit MEMBERSHIP_PREFIX ++ [Lit ":"; GroupOpen; Star AnyChar; GroupClose].

(** The pattern: any characters, [Customer: ], a group of non-commas, a
    comma, spaces, a group of any characters. *)
Definition customer_name_pattern : regex :=
  [Star AnyChar] ++ lit "Customer: " ++
  [GroupOpen; Star (NotChar ","); GroupClose; Lit ","; Star (OneChar " ");
   GroupOpen; Star AnyChar; GroupClose].

(** The same pattern followed by a comma and any characters. *)
Definition customer_email_pattern : regex :=
  customer_name_pattern ++ [Lit ","; Star AnyChar].

(** The branch [description.startswith(MEMBERSHIP_PREFIX)]. *)
Definition membership_payment (membership_detail amount fee net description : string)
    (txn_date : date) : M unit :=
  let membership_item := re_sub false membership_item_pattern 1 description in
  let customer_name := re_sub false customer_name_pattern 1 membership_detail in
  let customer_email := re_sub false customer_email_pattern 2 membership_detail in
  customer <- GetCustomer customer_name customer_email ;;
  let membership_acct := GetMembershipAcct membership_detail in
  CreateInvoiceAndPayment customer membership_acct amount fee net membership_item txn_date.

(** The branch [description.startswith(EVENT_PREFIX)]. *)
Definition event_payment (row : StripeRow) (player_name email_address amount fee net : string)
    (txn_date : date) : M unit :=
  let event_detail := Category row in
  let event_detail :=
    if String.eqb event_detail "Custom" then Course_Name row else event_detail in
  let customer_name := player_name in
  let customer_email := email_address in
  customer <- GetCustomer customer_name customer_email ;;
  let event_acct := GetEventAcct event_detail in
  CreateInvoiceAndPayment customer event_acct amount fee net event_detail txn_date.

(** [player_name] as the loop infers it from the metadata columns. *)
Definition player_name_of (row : StripeRow) : string :=
  let first_name := First_name row in
  let first_name := if truthy first_name then first_name else First_Name row in
  let first_name := if truthy first_name then first_name else FirstName row in
  let last_name := Last_name row in
  let last_name := if truthy last_name then last_name else Last_Name row in
  let last_name := if truthy last_name then last_name else Surname row in
  let player_name := (first_name ++ " " ++ last_name)%string in
  if truthy player_name then player_name else NO_NAME_ENTRY.

(** The body of the loop over the settlement feed. *)
Definition ProcessStripePayments_row (cs_map : cs_map_t) (loc : Locals) (row : StripeRow)
  : M Locals :=
  (* the contact id and the phone numbers are read and not used *)
  let email_address := Email_address row in
  let player_name := player_name_of row in
  let loc :=
    match cs_get cs_map player_name with
    | Some l => mkLocals (Some l) (player_row loc)
    | None => loc
    end in
  let date_str := split_space_0 (Available_On row) in
  txn_date <- or_raise ValueError (date_fromisoformat date_str) ;;
  let amount := Amount row in
  let fee := Fee row in
  let net := Net row in
  if py_eq (PyStr amount) (PyInt 0) then ret loc
  else
    let description := Description row in
    let txn_type := Type_ row in
    if String.eqb description COURT_BOOKING then
      court_payment loc player_name amount fee net description txn_date
    else if String.eqb txn_type "payout" then
      DoStripeTransfer amount txn_date ;; ret loc
    else if startswith description REFUND_PREFIX then
      let refund_item := re_sub false refund_pattern 1 description in
      let refund_detail := Session row in
      if String.eqb refund_item COURT_BOOKING then
        court_refund cs_map refund_detail amount fee net txn_date ;; ret loc
      else
        plain_refund refund_item amount txn_date ;; ret loc
    else if startswith description MEMBERSHIP_PREFIX then
      membership_payment (Membership row) amount fee net description txn_date ;; ret loc
    else if startswith description EVENT_PREFIX then
      event_payment row player_name email_address amount fee net txn_date ;; ret loc
    else ret loc.

Fixpoint ProcessStripePayments_loop (cs_map : cs_map_t) (stripe_csv : list StripeRow)
    (loc : Locals) : M Locals :=
  match stripe_csv with
  | [] => ret loc
  | row :: rest =>
      loc' <- ProcessStripePayments_row cs_map loc row ;;
      ProcessStripePayments_loop cs_map rest loc'
  end.

Definition ProcessStripePayments (stripe_csv : list StripeRow) (cs_map : cs_map_t) : M unit :=
  ProcessStripePayments_loop cs_map stripe_csv (mkLocals None None) ;; ret tt.

(** The main program: both feeds against a book. *)
Definition main (cs_csv : list BookingCsv) (stripe_csv : list StripeRow) : M unit :=
  cs_map <- EnterBacInvoices cs_csv ;;
  ProcessStripePayments stripe_csv cs_map.

End Script.

(** ** An instance of the library parsers

    The parsers below read the plain spellings that occur in the two feeds
    (signed decimal literals, ISO dates, the two date-time formats of the
    script).  The properties of the script are proved for every [PyLib];
    this instance serves to run the script on concrete rows. *)

Module FeedLib.

Definition is_digit (c : ascii) : bool :=
  let n := nat_of_ascii c in (48 <=? n)%nat && (n <=? 57)%nat.

Definition digit_val (c : ascii) : Z := Z.of_nat (nat_of_ascii c - 48).

(** The leading digits of [s]: their value continuing [acc], their number,
    and the rest. *)
Fixpoint take_digits (s : string) (acc : Z) (cnt : nat) : Z * nat * string :=
  match s with
  | String c s' =>
      if is_digit c then take_digits s' (10 * acc + digit_val c)%Z (S cnt)
      else (acc, cnt, s)
  | EmptyString => (acc, cnt, s)
  end.

Definition take_sign (s : string) : bool * string :=
  match s with
  | String "-" s' => (true, s')
  | String "+" s' => (false, s')
  | _ => (false, s)
  end.

Definition parse_exponent (s : string) : option Z :=
  match s with
  | EmptyString => Some 0%Z
  | String c s' =>
      if Ascii.eqb (ascii_lower c) "e" then
        let '(neg, s1) := take_sign s' in
        match take_digits s1 0%Z 0 with
        | (_, O, _) => None
        | (e, _, EmptyString) => Some (if neg then (- e)%Z else e)
        | _ => None
        end
      else None
  end.

Definition parse_decimal (s : string) : option decimal :=
  let '(neg, s1) := take_sign s in
  let '(ip, n1, s2) := take_digits s1 0%Z 0 in
  let '(coeff, n2, s3) :=
    match s2 with
    | String "." s2' => take_digits s2' ip 0
    | _ => (ip, 0, s2)
    end in
  if (n1 + n2 =? 0)%nat then None
  else
    match parse_exponent s3 with
    | Some e => Some (DecFinite neg (Z.to_N coeff) (e - Z.of_nat n2)%Z)
    | None => None
    end.

Definition is_leap (y : Z) : bool :=
  ((y mod 4 =? 0) && negb (y mod 100 =? 0) || (y mod 400 =? 0))%Z.

Definition days_in_month (y m : Z) : Z :=
  if (m =? 2)%Z then (if is_leap y then 29 else 28)%Z
  else if ((m =? 4) || (m =? 6) || (m =? 9) || (m =? 11))%Z then 30%Z
  else 31%Z.

Definition valid_date (y m d : Z) : bool :=
  ((1 <=? y) && (y <=? 9999) && (1 <=? m) && (m <=? 12) &&
   (1 <=? d) && (d <=? days_in_month y m))%Z.

(** Exactly [n] digits at the start of [s]. *)
Fixpoint fixed_digits (n : nat) (s : string) (acc : Z) : option (Z * string) :=
  match n with
  | O => Some (acc, s)
  | S n' =>
      match s with
      | String c s' =>
          if is_digit c then fixed_digits n' s' (10 * acc + digit_val c)%Z else None
      | EmptyString => None
      end
  end.

(** [YYYY-MM-DD] *)
Definition parse_isodate (s : string) : option date :=
  match fixed_digits 4 s 0%Z with
  | Some (y, String "-" s1) =>
      match fixed_digits 2 s1 0%Z with
      | Some (m, String "-" s2) =>
          match fixed_digits 2 s2 0%Z with
          | Some (d, EmptyString) =>
              if valid_date y m d then Some (mkDate y m d) else None
          | _ => None
          end
      | _ => None
      end
  | _ => None
  end.

(** One or two digits at the start of [s]. *)
Definition short_number (s : string) : option (Z * string) :=
  match s with
  | String c s' =>
      if is_digit c then
        match s' with
        | String c' s'' =>
            if is_digit c' then Some (10 * digit_val c + digit_val c', s'')%Z
            else Some (digit_val c, s')
        | EmptyString => Some (digit_val c, s')
        end
      else None
  | EmptyString => None
  end.

(** [s] without the prefix [p], compared without regard to case. *)
Fixpoint strip_prefix (p s : string) : option string :=
  match p with
  | EmptyString => Some s
  | String c p' =>
      match s with
      | String d s' => if chr_eq true c d then strip_prefix p' s' else None
      | EmptyString => None
      end
  end.

(** The first name of [names] that starts [s], with its position from 1. *)
Fixpoint strip_name (names : list string) (i : Z) (s : string) : option (Z * string) :=
  match names with
  | [] => None
  | n :: rest =>
      match strip_prefix n s with
      | Some s' => Some (i, s')
      | None => strip_name rest (i + 1)%Z s
      end
  end.

Definition weekdays : list string :=
  ["Monday"; "Tuesday"; "Wednesday"; "Thursday"; "Friday"; "Saturday"; "Sunday"].

Definition months : list string :=
  ["January"; "February"; "March"; "April"; "May"; "June"; "July"; "August";
   "September"; "October"; "November"; "December"].

Fixpoint skip_spaces (s : string) : string :=
  match s with
  | String " " s' => skip_spaces s'
  | _ => s
  end.

(** The fields a format can set; [p_hour12] and [p_pm] come from [%I] and [%p]. *)
Record parsed : Type := mkParsed {
  p_year : Z; p_month : Z; p_day : Z; p_hour : Z; p_minute : Z; p_second : Z;
  p_hour12 : option Z; p_pm : bool }.

Definition in_range (lo hi v : Z) : bool := ((lo <=? v) && (v <=? hi))%Z.

Definition directive (d : ascii) (s : string) (p : parsed) : option (parsed * string) :=
  let num lo hi (set : Z -> parsed) :=
    match short_number s with
    | Some (v, s') => if in_range lo hi v then Some (set v, s') else None
    | None => None
    end in
  if Ascii.eqb d "Y" then
    match fixed_digits 4 s 0%Z with
    | Some (v, s') =>
        Some (mkParsed v (p_month p) (p_day p) (p_hour p) (p_minute p) (p_second p)
                (p_hour12 p) (p_pm p), s')
    | None => None
    end
  else if Ascii.eqb d "m" then
    num 1%Z 12%Z (fun v => mkParsed (p_year p) v (p_day p) (p_hour p) (p_minute p)
                              (p_second p) (p_hour12 p) (p_pm p))
  else if Ascii.eqb d "d" then
    num 1%Z 31%Z (fun v => mkParsed (p_year p) (p_month p) v (p_hour p) (p_minute p)
                              (p_second p) (p_hour12 p) (p_pm p))
  else if Ascii.eqb d "H" then
    num 0%Z 23%Z (fun v => mkParsed (p_year p) (p_month p) (p_day p) v (p_minute p)
                              (p_second p) (p_hour12 p) (p_pm p))
  else if Ascii.eqb d "I" then
    num 1%Z 12%Z (fun v => mkParsed (p_year p) (p_month p) (p_day p) (p_hour p) (p_minute p)
                              (p_second p) (Some v) (p_pm p))
  else if Ascii.eqb d "M" then
    num 0%Z 59%Z (fun v => mkParsed (p_year p) (p_month p) (p_day p) (p_hour p) v
                              (p_second p) (p_hour12 p) (p_pm p))
  else if Ascii.eqb d "S" then
    num 0%Z 59%Z (fun v => mkParsed (p_year p) (p_month p) (p_day p) (p_hour p) (p_minute p)
                              v (p_hour12 p) (p_pm p))
  else if Ascii.eqb d "A" then
    match strip_name weekdays 1%Z s with
    | Some (_, s') => Some (p, s')
    | None => None
    end
  else if Ascii.eqb d "B" then
    match strip_name months 1%Z s with
    | Some (v, s') =>
        Some (mkParsed (p_year p) v (p_day p) (p_hour p) (p_minute p) (p_second p)
                (p_hour12 p) (p_pm p), s')
    | None => None
    end
  else if Ascii.eqb d "p" then
    match strip_name ["AM"; "PM"] 0%Z s with
    | Some (v, s') =>
        Some (mkParsed (p_year p) (p_month p) (p_day p) (p_hour p) (p_minute p)
                (p_second p) (p_hour12 p) (v =? 1)%Z, s')
    | None => None
    end
  else None.

Fixpoint parse_format (fmt s : string) (p : parsed) : option parsed :=
  match fmt with
  | EmptyString => match s with EmptyString => Some p | _ => None end
  | String "%" (String d fmt') =>
      match directive d s p with
      | Some (p', s') => parse_format fmt' s' p'
      | None => None
      end
  | String " " fmt' =>
      match s with
      | String " " s' => parse_format fmt' (skip_spaces s') p
      | _ => None
      end
  | String c fmt' =>
      match s with
      | String c' s' => if chr_eq true c c' then parse_format fmt' s' p else None
      | EmptyString => None
      end
  end.

Definition strptime (s fmt : string) : option datetime :=
  match parse_format fmt s (mkParsed 1900 1 1 0 0 0 None false) with
  | Some p =>
      let hour :=
        match p_hour12 p with
        | Some h => ((h mod 12) + (if p_pm p then 12 else 0))%Z
        | None => p_hour p
        end in
      if valid_date (p_year p) (p_month p) (p_day p)
      then Some (mkDatetime (p_year p) (p_month p) (p_day p) hour (p_minute p) (p_second p))
      else None
  | None => None
  end.

End FeedLib.

#[export] Instance feed_lib : PyLib := {
  Decimal := FeedLib.parse_decimal;
  date_fromisoformat := FeedLib.parse_isodate;
  datetime_strptime := FeedLib.strptime
}.

(** ** Vocabulary of the properties *)

(** [kw] is a substring of [text]. *)
Definition contains (kw text : string) : Prop :=
  exists pre post, text = (pre ++ kw ++ post)%string.

(** Some substring of [text] equals [kw] up to the case of its letters. *)
Definition contains_nocase (kw text : string) : Prop :=
  exists pre mid post,
    text = (pre ++ mid ++ post)%string /\ string_lower mid = string_lower kw.

(** Equality of texts, up to the case of letters when [ic] is set. *)
Definition text_eq (ic : bool) (a b : string) : Prop :=
  if ic then string_lower a = string_lower b else a = b.

(** Keyword routing: the account of the first keyword of the table, in its
    order, that occurs in the text; the default when none occurs. *)
Inductive first_match (occurs : string -> string -> Prop) (default : account)
    (text : string) : list (string * account) -> account -> Prop :=
| fm_default : first_match occurs default text [] default
| fm_hit (kw : string) (a : account) (rest : list (string * account)) :
    occurs kw text -> first_match occurs default text ((kw, a) :: rest) a
| fm_skip (kw : string) (a : account) (rest : list (string * account)) (b : account) :
    ~ occurs kw text ->
    first_match occurs default text rest b ->
    first_match occurs default text ((kw, a) :: rest) b.

Definition membership_table : list (string * account) :=
  [("Junior", ["Income"; "Memberships"; "Junior"]);
   ("Social", ["Income"; "Memberships"; "Social"]);
   ("Student", ["Income"; "Memberships"; "Student"]);
   ("Senior", ["Income"; "Memberships"; "Senior"])].

Definition membership_default : account := ["Income"; "Memberships"; "Individual"].

Definition event_table : list (string * account) :=
  [("OpenCourtSessions", ["Income"; "Events"; "Open Court Sessions"]);
   ("MensSocial", ["Income"; "Events"; "MensSocial"]);
   ("Girl", ["Income"; "Events"; "Girl Lets Play"]);
   ("Club Champ", ["Income"; "Events"; "Club Championships"]);
   ("Bingo", ["Income"; "Fundraising"; "Bingo"])].

Definition event_default : account := ["Income"; "Fundraising"; "Club Events"].

(** The routing loop both account functions unroll: search each keyword in
    turn with [re.search]. *)
Fixpoint route (ic : bool) (table : list (string * account)) (default : account)
    (text : string) : account :=
  match table with
  | [] => default
  | (kw, a) :: rest =>
      if re_search ic (lit kw) text then a else route ic rest default text
  end.

(** The transaction [t] once the processor fee is recorded on it: every
    split on an account named Stripe Account is valued [net], and a last
    split on the fee expense account is valued [fee]. *)
Definition fee_posted (net fee : string) (t : Transaction) : Transaction :=
  mkTransaction
    (map (fun s =>
            if String.eqb (GetName (split_account s)) "Stripe Account"
            then mkSplit (split_account s) (GncNumeric net)
            else s)
         (trans_splits t)
     ++ [mkSplit GetStripeFeeAcct (GncNumeric fee)])
    (trans_currency t) (trans_date t) (trans_description t).

Definition with_transactions (w : World) (l : list Transaction) : World :=
  mkWorld (set_transactions (book w) l) (heap w) (stdout w).

(** ** Sample feeds *)

(** A book holding the booking-agent customer and nothing else. *)
Definition sample_book : Book :=
  mkBook [] [] [mkCustomer "000001" AUD "Book A Court" ""] 0 1.

Definition sample_world : World := mkWorld sample_book [] [].

Definition jane_booking : BookingCsv :=
  mkBookingCsv "Jane" "Doe" "2021-10-17" "20.00" "5.00" "25.00" "2021-10-19" "17:00:00".

Definition free_booking : BookingCsv :=
  mkBookingCsv "Jane" "Doe" "2021-10-17" "0" "0.00" "0.00" "2021-10-20" "09:00:00".

(** A settlement row of a payer with the given names. *)
Definition stripe_row (first last amount fee net description type session : string)
  : StripeRow :=
  mkStripeRow "payer@example.org" "" "" "" first "" "" last "" ""
    "2021-10-20 00:00" amount fee net description type session "" "" "".

(** A world with one transaction holding a single clearing-account split. *)
Definition one_payment_world : World :=
  mkWorld
    (mkBook [] [mkTransaction [mkSplit GetStripeAcct (GncNumeric "25.00")]
                  (Some AUD) (Some (mkDate 2021 10 20)) COURT_BOOKING] [] 0 0)
    [] [].

(** The variables of [ProcessStripePayments] after the bucket lookup of a
    settlement row. *)
Definition rebind (cs_map : cs_map_t) (loc : Locals) (row : StripeRow) : Locals :=
  match cs_get cs_map (player_name_of row) with
  | Some l => mkLocals (Some l) (player_row loc)
  | None => loc
  end.

Definition with_book (w : World) (b : Book) : World :=
  mkWorld b (heap w) (stdout w).

(** The two-sided refund transaction of the plain refund branch. *)
Definition refund_transaction (target : account) (amount : string) (d : date) : Transaction :=
  mkTransaction
    [mkSplit GetStripeAcct (GncNumeric amount); mkSplit target (GncNeg (GncNumeric amount))]
    (Some AUD) (Some (mkDate (year d) (month d) (day d))) "Refund".

(** The target account of a plain refund. *)
Definition refund_account (refund_item : string) : account :=
  if re_search false (lit MEMBERSHIP_PREFIX) refund_item
  then GetMembershipAcct refund_item
  else GetEventAcct refund_item.

(** The transaction [MakeStripePayment] creates. *)
Definition payment_transaction (amount description : string) (d : date) : Transaction :=
  mkTransaction [mkSplit GetStripeAcct (GncNumeric amount)]
    (Some AUD) (Some (mkDate (year d) (month d) (day d))) description.

(** The transaction [DoStripeTransfer] creates. *)
Definition transfer_transaction (amount : string) (d : date) : Transaction :=
  mkTransaction
    [mkSplit GetStripeAcct (GncNumeric amount);
     mkSplit GetCheckingAcct (GncNeg (GncNumeric amount))]
    (Some AUD) (Some (mkDate (year d) (month d) (day d))) "Stripe Payout".

(** The refund description of the scenario of the specification, and one
    whose parenthesized fragment carries [MEMBERSHIP_PREFIX]. *)
Definition social_refund_description : string :=
  "REFUND FOR CHARGE (Coburg Tennis Club Memberships:Social, ...)".

Definition prefixed_social_refund_description : string :=
  "REFUND FOR CHARGE (Coburg Tennis Club:Social, ...)".

(** A court payment of 25.00 by a payer with the given names. *)
Definition court_payment_row (first last : string) : StripeRow :=
  stripe_row first last "25.00" "1.20" "23.80" COURT_BOOKING "charge" "".

(** A row of Jane Doe that no branch of the reconciler handles. *)
Definition unclassified_row : StripeRow :=
  stripe_row "Jane" "Doe" "10.00" "0.50" "9.50" "Donation" "charge" "".

(** ** Vocabulary of the court refund *)

(** The rows of every bucket, in the order the refund search visits them. *)
Definition all_rows (cs_map : cs_map_t) : list nat := concat (map snd cs_map).

Section RefundVocabulary.

Context {lib : PyLib}.

(** The booking date-time of the row [r] of the store [hp], when its
    date and time cells parse. *)
Definition booking_datetime_of (hp : list BookingRow) (r : nat) : option datetime :=
  let x := nth r hp empty_row in
  datetime_strptime (Booking_Date (row_csv x) ++ " " ++ Booking_Time (row_csv x))%string
    booking_format.

(** The date and time cells of every row of [l] parse. *)
Definition rows_parse (hp : list BookingRow) (l : list nat) : Prop :=
  forall r, In r l -> booking_datetime_of hp r <> None.

(** The row [r] is the booking a refund of [amount] at [bd] refers to. *)
Definition refund_match (hp : list BookingRow) (bd : datetime) (amount : string)
    (r : nat) : bool :=
  match booking_datetime_of hp r with
  | Some t =>
      datetime_eqb t bd && String.eqb (Total_Fee (row_csv (nth r hp empty_row))) amount
  | None => false
  end.

(** The fees the refund search ends with over rows that all parse. *)
Fixpoint scan_fees (hp : list BookingRow) (bd : datetime) (amount : string)
    (l : list nat) (fees : option string * option string)
  : option string * option string :=
  match l with
  | [] => fees
  | r :: l' =>
      scan_fees hp bd amount l'
        (if refund_match hp bd amount r
         then (Some (Court_Fee (row_csv (nth r hp empty_row))),
               Some (Light_Fee (row_csv (nth r hp empty_row))))
         else fees)
  end.

End RefundVocabulary.

Definition court_refund_entry (d : date) (f : string) : Entry :=
  mkEntry d "Court Hire Refund" (GncNumericInt 1) (GncNumeric f) GetCourtHireAcct.

Definition light_refund_entry (d : date) (f : string) : Entry :=
  mkEntry d "Light Hire Refund" (GncNumericInt 1) (GncNumeric f) GetLightHireAcct.

(** The line items of a credit note that splits a refund into a court fee
    and a light fee: one item per fee cell that is not empty. *)
Definition fee_entries (d : date) (court_fee light_fee : string) : list Entry :=
  (if truthy court_fee then [court_refund_entry d court_fee] else [])
  ++ (if truthy light_fee then [light_refund_entry d light_fee] else []).

(** The line items for the fees the refund search ended with. *)
Definition entries_of_fees (d : date) (amount : string)
    (fees : option string * option string) : list Entry :=
  match fees with
  | (None, None) => fee_entries d amount ""
  | (court_fee, light_fee) =>
      fee_entries d
        (match court_fee with Some f => f | None => "" end)
        (match light_fee with Some f => f | None => "" end)
  end.

(** The refund payment of a court refund, with the processor fee recorded. *)
Definition refund_payment_transaction (amount fee net : string) (d : date) : Transaction :=
  let t := mkTransaction [mkSplit GetStripeAcct (GncNumeric amount)]
             (Some AUD) (Some (mkDate (year d) (month d) (day d))) "Book A Court Refund" in
  if truthy fee then fee_posted net fee t else t.

(** The credit note of a court refund in the book [b]: owned by the
    booking-agent customer, posted to receivables on the settlement date,
    with the refund payment applied. *)
Definition credit_note (b : Book) (d : date) (entries : list Entry) (amount : string)
  : Invoice :=
  mkInvoice (format_id (S (invoice_counter b))) AUD
    (find_index (fun c => String.eqb (cust_id c) "000001") (customers b) 0)
    (Some d) true entries
    (Some (mkPosting GetReceivablesAcct d d "" true false))
    [mkPayment (List.length (transactions b)) GetStripeAcct (GncNumeric amount)
       (GncNumericInt 1) d].

(** The state after a court refund: one credit note and one transaction
    more. *)
Definition court_refund_world (w : World) (d : date) (entries : list Entry)
    (amount fee net : string) : World :=
  with_book w
    (mkBook (invoices (book w) ++ [credit_note (book w) d entries amount])
       (transactions (book w) ++ [refund_payment_transaction amount fee net d])
       (customers (book w)) (S (invoice_counter (book w))) (customer_counter (book w))).

(** The state and the allocation index after the import of Jane Doe's
    booking into the sample book. *)
Definition imported_world : World :=
  fst (EnterBacInvoices (lib := feed_lib) [jane_booking] sample_world).

Definition imported_map : cs_map_t := [(NO_NAME_ENTRY, []); ("Jane Doe", [0])].

(** A refund of a court booking of 25.00 with the given session text. *)
Definition court_refund_row (session : string) : StripeRow :=
  stripe_row "Jane" "Doe" "25.00" "0.00" "25.00"
    "REFUND FOR CHARGE (Court booking at Coburg Tennis Club)" "refund" session.

(** ** Vocabulary of the booking import *)

(** The player name a booking row is filed under. *)
Definition booking_player (c : BookingCsv) : string :=
  (Player_First_Name c ++ " " ++ Player_Last_Name c)%string.

(** The allocation index once the row [r] is filed under [key]. *)
Definition file_row (cs_map : cs_map_t) (key : string) (r : nat) : cs_map_t :=
  match cs_get cs_map key with
  | Some _ => cs_append cs_map key r
  | None => cs_new cs_map key r
  end.

Section ImportVocabulary.

Context {lib : PyLib}.

(** The cell reads as the decimal zero. *)
Definition fee_is_zero (cell : string) : Prop :=
  exists z, Decimal cell = Some z /\ dec_eq0 z = Some true.

(** Both fee cells of the row parse and compare equal to zero. *)
Definition both_zero (c : BookingCsv) : bool :=
  match Decimal (Court_Fee c), Decimal (Light_Fee c) with
  | Some a, Some b =>
      match dec_eq0 a, dec_eq0 b with
      | Some x, Some y => x && y
      | _, _ => false
      end
  | _, _ => false
  end.

End ImportVocabulary.

(** The invoice the importer posts for a booking in the book [b]. *)
Definition booking_invoice (b : Book) (d : date) (entries : list Entry) : Invoice :=
  mkInvoice (format_id (S (invoice_counter b))) AUD
    (find_index (fun c => String.eqb (cust_id c) "000001") (customers b) 0)
    (Some d) false entries
    (Some (mkPosting GetReceivablesAcct d d "" true false)) [].

(** The state after the import of a row with a fee: one invoice more, and
    the row in the store with its invoice and the flag unset. *)
Definition invoiced_world (w : World) (c : BookingCsv) (d : date) (entries : list Entry)
  : World :=
  mkWorld
    (mkBook (invoices (book w) ++ [booking_invoice (book w) d entries])
       (transactions (book w)) (customers (book w))
       (S (invoice_counter (book w))) (customer_counter (book w)))
    (heap w ++ [mkBookingRow c (Some (List.length (invoices (book w)))) (Some false)])
    (stdout w).

(** The state after the import of a row without fee: the row in the
    store, nothing else. *)
Definition skipped_world (w : World) (c : BookingCsv) : World :=
  mkWorld (book w) (heap w ++ [mkBookingRow c None None]) (stdout w).

(** ** Vocabulary of the allocation *)

(** The payments applied so far to the invoice of handle [i]. *)
Definition payments_of (w : World) (i : nat) : list Payment :=
  match nth_error (invoices (book w)) i with
  | Some inv => inv_payments inv
  | None => []
  end.

(** The invoice [i] with one more payment applied. *)
Definition add_payment (p : Payment) (i : Invoice) : Invoice :=
  mkInvoice (inv_id i) (inv_currency i) (inv_owner i) (inv_date_opened i)
    (inv_is_credit_note i) (inv_entries i) (inv_posted i) (inv_payments i ++ [p]).

(** The booking row [x] with its flag set. *)
Definition set_allocated (x : BookingRow) : BookingRow :=
  mkBookingRow (row_csv x) (row_Invoice x) (Some true).

(** The payment a court-payment row applies. *)
Definition court_payment_record (trans : nat) (amount : string) (d : date) : Payment :=
  mkPayment trans GetStripeAcct (GncNumeric amount) (GncNumericInt 1) d.

(** Exclusive allocation, over a store of booking rows and the invoices
    of the book: the invoice of a row exists, two rows never share an
    invoice, and the invoice of a row has at most one payment applied,
    none while the flag of the row is unset. *)
Definition exclusive_on (hp : list BookingRow) (invs : list Invoice) : Prop :=
  (forall r x i,
      nth_error hp r = Some x -> row_Invoice x = Some i -> i < List.length invs) /\
  (forall r1 r2 x1 x2 i,
      nth_error hp r1 = Some x1 -> nth_error hp r2 = Some x2 ->
      row_Invoice x1 = Some i -> row_Invoice x2 = Some i -> r1 = r2) /\
  (forall r x i inv,
      nth_error hp r = Some x -> row_Invoice x = Some i -> nth_error invs i = Some inv ->
      List.length (inv_payments inv) <= 1 /\
      (row_Allocated x = Some false -> inv_payments inv = [])).

Definition exclusive (w : World) : Prop :=
  exclusive_on (heap w) (invoices (book w)).

(** The state changed by new invoices only, as far as booking rows and
    the existing invoices go. *)
Definition grows (w w' : World) : Prop :=
  heap w' = heap w /\ exists extra, invoices (book w') = invoices (book w) ++ extra.

(** The state after [CreateInvoiceAndPayment]. *)
Definition customer_invoice (b : Book) (customer : nat) (acct : account)
    (amount description : string) (d : date) : Invoice :=
  mkInvoice (format_id (S (invoice_counter b))) AUD (Some customer) None false
    [mkEntry d description (GncNumericInt 1) (GncNumeric amount) acct]
    (Some (mkPosting GetReceivablesAcct d d "" true false))
    [mkPayment (List.length (transactions b)) GetStripeAcct (GncNumeric amount)
       (GncNumericInt 1) d].

Definition customer_payment_transaction (amount fee net description : string) (d : date)
  : Transaction :=
  if truthy fee then fee_posted net fee (payment_transaction amount description d)
  else payment_transaction amount description d.

Definition invoiced_customer_world (w : World) (customer : nat) (acct : account)
    (amount fee net description : string) (d : date) : World :=
  with_book w
    (mkBook (invoices (book w) ++ [customer_invoice (book w) customer acct amount description d])
       (transactions (book w) ++ [customer_payment_transaction amount fee net description d])
       (customers (book w)) (S (invoice_counter (book w))) (customer_counter (book w))).

(** The state after the import of Jane Doe's booking and the creation of
    the payment transaction of a court payment of 25.00. *)
Definition paying_world : World :=
  fst (MakeStripePayment "25.00" "1.20" "23.80" COURT_BOOKING (mkDate 2021 10 20)
         imported_world).

(** The value of the loop variable [player_row] after a loop over [l]
    that does not break. *)
Fixpoint last_row (l : list nat) (player_row : option nat) : option nat :=
  match l with
  | [] => player_row
  | r :: l' => last_row l' (Some r)
  end.

(** The line the court-payment handler prints when it allocates nothing. *)
Definition unresolved_message (total_fee player_name : string) : string :=
  ("Unable to allocate payment to invoice :" ++ total_fee ++ player_name
   ++ String newline EmptyString)%string.

(** ** Vocabulary of the further properties *)

(** The line items of a booking invoice: the court hire when the court fee
    is positive, then the light hire when the light fee is positive. *)
Definition booking_entries (d : date) (c : BookingCsv) (court_pos light_pos : bool)
  : list Entry :=
  (if court_pos
   then [mkEntry d "Court Hire" (GncNumericInt 1) (GncNumeric (Court_Fee c))
           GetCourtHireAcct]
   else [])
  ++ (if light_pos
      then [mkEntry d "Light Hire" (GncNumericInt 1) (GncNumeric (Light_Fee c))
              GetLightHireAcct]
      else []).

(** The state when the importer raises after it created the invoice of a
    row and before it posted it: the invoice stays in the book, unposted,
    and the row has no invoice reference. *)
Definition unposted_world (w : World) (c : BookingCsv) (d : date) (entries : list Entry)
  : World :=
  mkWorld
    (mkBook (invoices (book w)
             ++ [mkInvoice (format_id (S (invoice_counter (book w)))) AUD
                   (find_index (fun x => String.eqb (cust_id x) "000001")
                      (customers (book w)) 0)
                   (Some d) false entries None []])
       (transactions (book w)) (customers (book w))
       (S (invoice_counter (book w))) (customer_counter (book w)))
    (heap w ++ [mkBookingRow c None None])
    (stdout w).

(** The parsers of [feed_lib], with the spelling [NaN] of the quiet
    not-a-number that [Decimal] also accepts. *)
Definition nan_lib : PyLib := {|
  Decimal := fun s => if String.eqb s "NaN" then Some (DecNaN false)
                      else FeedLib.parse_decimal s;
  date_fromisoformat := FeedLib.parse_isodate;
  datetime_strptime := FeedLib.strptime
|}.

(** The text contains a space. *)
Fixpoint has_space (s : string) : bool :=
  match s with
  | EmptyString => false
  | String c s' => Ascii.eqb c " " || has_space s'
  end.

(** The row object [x] is the booking [c] as the importer leaves it:
    without the two added keys when both fees are zero, with an invoice
    and the flag unset otherwise. *)
Definition imported_row {lib : PyLib} (c : BookingCsv) (x : BookingRow) : Prop :=
  row_csv x = c /\
  ((both_zero c = true /\ row_Invoice x = None /\ row_Allocated x = None) \/
   (both_zero c = false /\ (exists inv, row_Invoice x = Some inv) /\
    row_Allocated x = Some false)).

(** The state after [GetCustomer] created a customer. *)
Definition customer_created_world (w : World) (name email : string) : World :=
  mkWorld
    (mkBook (invoices (book w)) (transactions (book w))
       (customers (book w)
        ++ [mkCustomer (format_id (S (customer_counter (book w)))) AUD name email])
       (invoice_counter (book w)) (S (customer_counter (book w))))
    (heap w) (stdout w).

(** A payout row; its other cells do not matter. *)
Definition payout_row : StripeRow :=
  stripe_row "" "" "500.00" "0.00" "500.00" STRIPE_PAYOUT "payout" "".

(** The state after the loop of the court-payment handler allocated the
    payment of transaction [trans] to the row [r] of invoice [inv]. *)
Definition allocated_world (w : World) (trans : nat) (amount fee net : string) (d : date)
    (r inv : nat) : World :=
  mkWorld
    (mkBook
       (upd_nth inv (add_payment (court_payment_record trans amount d))
          (invoices (book w)))
       (if truthy fee
        then upd_nth trans (fee_posted net fee) (transactions (book w))
        else transactions (book w))
       (customers (book w)) (invoice_counter (book w)) (customer_counter (book w)))
    (upd_nth r set_allocated (heap w))
    (stdout w).

(** The state after a court-payment row was allocated to the row [r] of
    invoice [inv]: the payment transaction with the fee recorded, the
    payment applied to the invoice, the flag of the row set. *)
Definition court_allocated_world (w : World) (amount fee net description : string)
    (d : date) (r inv : nat) : World :=
  mkWorld
    (mkBook
       (upd_nth inv
          (add_payment (court_payment_record (List.length (transactions (book w))) amount d))
          (invoices (book w)))
       (transactions (book w)
        ++ [customer_payment_transaction amount fee net description d])
       (customers (book w)) (invoice_counter (book w)) (customer_counter (book w)))
    (upd_nth r set_allocated (heap w))
    (stdout w).

(** No row of [l] can take a payment of [amount]: its total fee differs,
    or it is allocated already. *)
Definition none_open (hp : list BookingRow) (amount : string) (l : list nat) : Prop :=
  forall x, In x l ->
    String.eqb (Total_Fee (row_csv (nth x hp empty_row))) amount = false \/
    row_Allocated (nth x hp empty_row) = Some true.

(** A court payment of nothing by Jane Doe. *)
Definition free_payment_row : StripeRow :=
  stripe_row "Jane" "Doe" "0.00" "0.00" "0.00" COURT_BOOKING "charge" "".

(** The invoice [b] is the invoice [a] with, at most, payments added. *)
Definition invoice_kept (a b : Invoice) : Prop :=
  inv_id b = inv_id a /\ inv_currency b = inv_currency a /\
  inv_owner b = inv_owner a /\ inv_date_opened b = inv_date_opened a /\
  inv_is_credit_note b = inv_is_credit_note a /\ inv_entries b = inv_entries a /\
  inv_posted b = inv_posted a /\
  exists ps, inv_payments b = inv_payments a ++ ps.

(** The booking row [x'] is the row [x] with, at most, its unset flag set. *)
Definition row_kept (x x' : BookingRow) : Prop :=
  row_csv x' = row_csv x /\ row_Invoice x' = row_Invoice x /\
  (row_Allocated x' = row_Allocated x \/
   (row_Allocated x = Some false /\ row_Allocated x' = Some true)).

(** From [w] to [w'] the ledger and the store were only extended: at most
    [n] transactions, customers and invoices were appended, the earlier
    transactions and customers are as they were, the earlier invoices
    gained at most payments, and the booking rows at most had their flag
    set. *)
Definition ledger_kept (n : nat) (w w' : World) : Prop :=
  (exists et, transactions (book w') = transactions (book w) ++ et /\
              List.length et <= n) /\
  (exists ec, customers (book w') = customers (book w) ++ ec /\
              List.length ec <= n) /\
  List.length (invoices (book w')) <= List.length (invoices (book w)) + n /\
  (forall i a, nth_error (invoices (book w)) i = Some a ->
     exists b, nth_error (invoices (book w')) i = Some b /\ invoice_kept a b) /\
  List.length (heap w') = List.length (heap w) /\
  (forall r x, nth_error (heap w) r = Some x ->
     exists x', nth_error (heap w') r = Some x' /\ row_kept x x').

(** An invoice as the importer posts it: in the ledger currency, dated,
    posted to receivables on its date with automatic payment off, not a
    credit note, without payment. *)
Definition booking_invoice_shape (i : Invoice) : Prop :=
  inv_currency i = AUD /\ inv_is_credit_note i = false /\ inv_payments i = [] /\
  exists d, inv_date_opened i = Some d /\
            inv_posted i = Some (mkPosting GetReceivablesAcct d d "" true false).

(** The state a run of the reconciler over two court payments of Jane Doe
    ends in. *)
Definition reconciled_world : World :=
  fst (ProcessStripePayments (lib := feed_lib)
         [court_payment_row "Jane" "Doe"; court_payment_row "Jane" "Doe"]
         imported_map imported_world).

(** The text holds no newline. *)
Fixpoint one_line (s : string) : bool :=
  match s with
  | EmptyString => true
  | String c s' => negb (Ascii.eqb c newline) && one_line s'
  end.

(** The event category of a settlement row: the course name when the
    category reads Custom. *)
Definition event_detail_of (row : StripeRow) : string :=
  if String.eqb (Category row) "Custom" then Course_Name row else Category row.

(** A membership payment and an event payment of Greg Armstrong. *)
Definition membership_row : StripeRow :=
  mkStripeRow "greg@example.org" "" "" "" "Greg" "" "" "Armstrong" "" ""
    "2021-10-20 00:00" "90.00" "1.50" "88.50"
    "Coburg Tennis Club:2021 Adult Half Year Membership" "charge" ""
    "2021 Adult Half Year Membership, ID: f90a, Customer: Greg Armstrong, greg@example.org, Customer ID:f07b"
    "" "".

Definition event_row : StripeRow :=
  mkStripeRow "greg@example.org" "" "" "" "Greg" "" "" "Armstrong" "" ""
    "2021-10-20 00:00" "15.00" "0.60" "14.40"
    "Coburg Tennis Club Friday Bingo Night" "charge" "" "" "Custom" "Friday Bingo Night".

(** A booking row that has the allocated flag has an invoice. *)
Definition flag_with_invoice (x : BookingRow) : Prop :=
  row_Allocated x <> None -> row_Invoice x <> None.

(** Every bucket of the index but the sentinel one holds a row. *)
Definition buckets_filled (cs_map : cs_map_t) : Prop :=
  forall key l, cs_get cs_map key = Some l -> key <> NO_NAME_ENTRY -> l <> [].

(** The bucket variable holds no empty bucket. *)
Definition bound_to_rows (loc : Locals) : Prop :=
  forall l, player_list loc = Some l -> l <> [].

(** A booking whose date and time are written as the comment of the
    refund scan has them, which is not the booking format. *)
Definition slash_booking : BookingCsv :=
  mkBookingCsv "Jane" "Doe" "2021-10-17" "20.00" "5.00" "25.00" "17/10/2021" "10:30:00 AM".

(** A court refund without amount, and with a session that does not parse. *)
Definition empty_refund_row : StripeRow :=
  stripe_row "Jane" "Doe" "" "" ""
    "REFUND FOR CHARGE (Court booking at Coburg Tennis Club)" "refund" "unknown".

(** * Properties *)

(** ** Literal patterns search substrings *)

Lemma chr_eq_true (ic : bool) (c d : ascii) :
  chr_eq ic c d = true <->
  (if ic then ascii_lower c = ascii_lower d else c = d).
Proof.
  unfold chr_eq. destruct ic; apply Ascii.eqb_eq.
Qed.

Lemma match_here_lit (ic : bool) (p s : string) (opened caps : list string)
    (r : list string * string) :
  match_here ic (lit p) s opened caps = Some r <->
  exists mid rest, s = (mid ++ rest)%string /\ text_eq ic mid p /\ r = (caps, rest).
Proof.
  revert s. induction p as [|c p IH]; intros s; simpl.
  - split.
    + intros H. injection H as <-. exists EmptyString, s.
      repeat split. destruct ic; reflexivity.
    + intros (mid & rest & -> & E & ->).
      assert (mid = EmptyString) as ->.
      { destruct ic; simpl in E; [destruct mid; [reflexivity|discriminate] | exact E]. }
      reflexivity.
  - destruct s as [|d s].
    + split; [discriminate|].
      intros (mid & rest & E0 & E & _). exfalso.
      destruct mid as [|m mid]; [|discriminate].
      destruct ic; simpl in E; discriminate.
    + destruct (chr_eq ic c d) eqn:Ec.
      * rewrite IH. apply chr_eq_true in Ec. split.
        -- intros (mid & rest & -> & E & ->).
           exists (String d mid), rest. repeat split.
           destruct ic; simpl in *; congruence.
        -- intros (mid & rest & E0 & E & ->).
           destruct mid as [|m mid].
           ++ exfalso. destruct ic; simpl in E; discriminate.
           ++ simpl in E0. injection E0 as <- ->.
              exists mid, rest. repeat split.
              destruct ic; simpl in *; congruence.
      * split; [discriminate|].
        intros (mid & rest & E0 & E & _). exfalso.
        destruct mid as [|m mid].
        -- destruct ic; simpl in E; discriminate.
        -- simpl in E0. injection E0 as <- ->.
           assert (chr_eq ic c d = true) as X; [|congruence].
           apply chr_eq_true. destruct ic; simpl in E; congruence.
Qed.

Lemma re_search_lit (ic : bool) (p s : string) :
  re_search ic (lit p) s = true <->
  exists pre mid post, s = (pre ++ mid ++ post)%string /\ text_eq ic mid p.
Proof.
  induction s as [|d s IH]; simpl.
  - destruct (match_here ic (lit p) "" [] []) as [r|] eqn:E.
    + apply match_here_lit in E. destruct E as (mid & rest & E0 & E1 & _).
      split; [|reflexivity]. intros _. exists EmptyString, mid, rest. auto.
    + split; [discriminate|]. intros (pre & mid & post & E0 & E1). exfalso.
      destruct pre; [|discriminate]. simpl in E0.
      assert (match_here ic (lit p) "" [] [] = Some ([], post)) as X; [|congruence].
      apply match_here_lit. exists mid, post. auto.
  - destruct (match_here ic (lit p) (String d s) [] []) as [r|] eqn:E.
    + apply match_here_lit in E. destruct E as (mid & rest & E0 & E1 & _).
      split; [|reflexivity]. intros _. exists EmptyString, mid, rest. auto.
    + rewrite IH. split.
      * intros (pre & mid & post & -> & E1).
        exists (String d pre), mid, post. auto.
      * intros (pre & mid & post & E0 & E1).
        destruct pre as [|x pre].
        -- exfalso. simpl in E0.
           assert (match_here ic (lit p) (String d s) [] [] = Some ([], post)) as X;
             [|congruence].
           apply match_here_lit. exists mid, post. auto.
        -- simpl in E0. injection E0 as <- ->. exists pre, mid, post. auto.
Qed.

Lemma re_search_contains (kw text : string) :
  re_search false (lit kw) text = true <-> contains kw text.
Proof.
  rewrite re_search_lit. unfold contains, text_eq. split.
  - intros (pre & mid & post & -> & ->). eauto.
  - intros (pre & post & ->). eauto.
Qed.

Lemma re_search_contains_nocase (kw text : string) :
  re_search true (lit kw) text = true <-> contains_nocase kw text.
Proof.
  rewrite re_search_lit. unfold contains_nocase, text_eq. reflexivity.
Qed.

Lemma not_contains (kw text : string) :
  re_search false (lit kw) text = false -> ~ contains kw text.
Proof.
  intros H C. apply re_search_contains in C. congruence.
Qed.

Lemma not_contains_nocase (kw text : string) :
  re_search true (lit kw) text = false -> ~ contains_nocase kw text.
Proof.
  intros H C. apply re_search_contains_nocase in C. congruence.
Qed.

(** ** Substitution terminates

    The fuel [re_sub] starts with is enough: any larger amount gives the
    same result. *)

Lemma re_sub_aux_fuel (ic : bool) (re : regex) (g : nat) (n : nat) :
  forall (m : nat) (s : string),
    String.length s < n -> String.length s < m ->
    re_sub_aux n ic re g s = re_sub_aux m ic re g s.
Proof.
  induction n as [|n IH]; intros m s Hn Hm; [lia|].
  destruct m as [|m]; [lia|]. simpl.
  destruct (match_here ic re s [] []) as [[caps rest]|].
  - destruct (String.length rest <? String.length s)%nat eqn:E.
    + apply Nat.ltb_lt in E. f_equal. apply IH; lia.
    + destruct s as [|c s]; [reflexivity|]. simpl in Hn, Hm.
      do 2 f_equal. apply IH; lia.
  - destruct s as [|c s]; [reflexivity|]. simpl in Hn, Hm.
    f_equal. apply IH; lia.
Qed.

Lemma re_sub_fuel (ic : bool) (re : regex) (g : nat) (s : string) (n : nat) :
  String.length s < n -> re_sub_aux n ic re g s = re_sub ic re g s.
Proof.
  intros H. unfold re_sub. apply re_sub_aux_fuel; lia.
Qed.

(** ** Keyword routing *)

Lemma first_match_functional (occurs : string -> string -> Prop) (default : account)
    (text : string) (table : list (string * account)) (a b : account) :
  first_match occurs default text table a ->
  first_match occurs default text table b ->
  a = b.
Proof.
  intros Ha. revert b.
  induction Ha; intros b' Hb; inversion Hb; subst; auto; contradiction.
Qed.

Lemma route_first_match (ic : bool) (occurs : string -> string -> Prop)
    (table : list (string * account)) (default : account) (text : string) :
  (forall kw, re_search ic (lit kw) text = true <-> occurs kw text) ->
  first_match occurs default text table (route ic table default text).
Proof.
  intros R. induction table as [|[kw a] rest IH]; simpl.
  - constructor.
  - destruct (re_search ic (lit kw) text) eqn:E.
    + apply fm_hit. apply R. exact E.
    + apply fm_skip; [|exact IH]. intros C. apply R in C. congruence.
Qed.

Lemma GetMembershipAcct_route (text : string) :
  GetMembershipAcct text = route false membership_table membership_default text.
Proof. reflexivity. Qed.

Lemma GetEventAcct_route (text : string) :
  GetEventAcct text = route true event_table event_default text.
Proof. reflexivity. Qed.

Ltac no_keyword :=
  first [ apply not_contains_nocase | apply not_contains ]; vm_compute; reflexivity.

Ltac has_keyword :=
  first [ apply re_search_contains_nocase | apply re_search_contains ];
  vm_compute; reflexivity.

(** C3, as stated: membership routing searches its keywords without regard
    to case.  It does not: for the category text [junior] the keyword
    Junior occurs up to case, and the account returned is not the one the
    case-insensitive search in table order selects. *)
Lemma GetMembershipAcct_not_nocase :
  ~ first_match contains_nocase membership_default "junior" membership_table
      (GetMembershipAcct "junior").
Proof.
  intros H.
  assert (first_match contains_nocase membership_default "junior" membership_table
            ["Income"; "Memberships"; "Junior"]) as J.
  { apply fm_hit. has_keyword. }
  pose proof (first_match_functional _ _ _ _ _ _ H J) as E.
  vm_compute in E. discriminate E.
Qed.

(** C3, amended: for every membership category text, [GetMembershipAcct]
    is a case-sensitive substring search of the keywords Junior, Social,
    Student, Senior in that order, with the Individual sub-account as the
    fallback, and the account is determined by the text alone. *)
Theorem GetMembershipAcct_keyword_order (text : string) :
  first_match contains membership_default text membership_table (GetMembershipAcct text) /\
  (forall a : account,
      first_match contains membership_default text membership_table a ->
      GetMembershipAcct text = a).
Proof.
  assert (first_match contains membership_default text membership_table
            (GetMembershipAcct text)) as H.
  { rewrite GetMembershipAcct_route. apply route_first_match.
    intros kw. apply re_search_contains. }
  split; [exact H|].
  intros a Ha. exact (first_match_functional _ _ _ _ _ _ H Ha).
Qed.

Lemma GetMembershipAcct_keyword_order_witness :
  first_match contains membership_default "2021 Social Membership" membership_table
    ["Income"; "Memberships"; "Social"] /\
  GetMembershipAcct "2021 Social Membership" = ["Income"; "Memberships"; "Social"].
Proof.
  assert (first_match contains membership_default "2021 Social Membership"
            membership_table ["Income"; "Memberships"; "Social"]) as H.
  { apply fm_skip; [no_keyword|]. apply fm_hit. has_keyword. }
  split; [exact H|].
  exact (proj2 (GetMembershipAcct_keyword_order "2021 Social Membership") _ H).
Defined.

(** C8: [GetEventAcct] tries the keywords OpenCourtSessions, MensSocial,
    Girl, Club Champ, Bingo in that order, without regard to case, and
    falls back to the fundraising sub-account Club Events; the two sample
    inputs are routed to MensSocial under Events and to Bingo under
    Fundraising, and a text containing none of the keywords is routed to
    Club Events. *)
Theorem GetEventAcct_keyword_order :
  (forall text : string,
      first_match contains_nocase event_default text event_table (GetEventAcct text)) /\
  GetEventAcct "Coburg Tennis Club MensSocial Night" = ["Income"; "Events"; "MensSocial"] /\
  GetEventAcct "Coburg Tennis Club Friday Bingo Night" = ["Income"; "Fundraising"; "Bingo"] /\
  (forall text : string,
      (forall kw a, In (kw, a) event_table -> ~ contains_nocase kw text) ->
      GetEventAcct text = ["Income"; "Fundraising"; "Club Events"]).
Proof.
  assert (forall text : string,
             first_match contains_nocase event_default text event_table
               (GetEventAcct text)) as H.
  { intros text. rewrite GetEventAcct_route. apply route_first_match.
    intros kw. apply re_search_contains_nocase. }
  split; [exact H|]. split; [reflexivity|]. split; [reflexivity|].
  intros text None_occurs.
  specialize (H text). revert H. generalize (GetEventAcct text). intros a H.
  unfold event_table in *.
  repeat match goal with
  | H : first_match _ _ _ (_ :: _) _ |- _ =>
      inversion H; subst; clear H;
      [ exfalso; eapply None_occurs; [|eassumption]; simpl; tauto | ]
  end.
  match goal with H : first_match _ _ _ [] _ |- _ => inversion H end.
  reflexivity.
Qed.

Lemma GetEventAcct_keyword_order_witness :
  (forall kw a, In (kw, a) event_table ->
                ~ contains_nocase kw "Coburg Tennis Club Trivia Night") /\
  GetEventAcct "Coburg Tennis Club Trivia Night" = ["Income"; "Fundraising"; "Club Events"].
Proof.
  assert (forall kw a, In (kw, a) event_table ->
                       ~ contains_nocase kw "Coburg Tennis Club Trivia Night") as H.
  { intros kw a HIn. simpl in HIn.
    repeat (destruct HIn as [E|HIn]; [injection E as <- <-; no_keyword|]).
    destruct HIn. }
  split; [exact H|].
  exact (proj2 (proj2 (proj2 GetEventAcct_keyword_order)) _ H).
Defined.

(** ** Stores *)

Lemma upd_nth_length {A : Type} (n : nat) (f : A -> A) (l : list A) :
  List.length (upd_nth n f l) = List.length l.
Proof.
  revert n. induction l as [|x l IH]; intros [|n]; simpl; auto.
Qed.

Lemma nth_error_upd_nth_same {A : Type} (n : nat) (f : A -> A) (l : list A) :
  nth_error (upd_nth n f l) n = option_map f (nth_error l n).
Proof.
  revert n. induction l as [|x l IH]; intros [|n]; simpl; auto.
Qed.

Lemma nth_error_upd_nth_other {A : Type} (n m : nat) (f : A -> A) (l : list A) :
  n <> m -> nth_error (upd_nth n f l) m = nth_error l m.
Proof.
  revert n m. induction l as [|x l IH]; intros [|n] [|m] H; simpl; auto.
  - contradiction.
Qed.

Lemma upd_nth_app_length {A : Type} (f : A -> A) (l : list A) (x : A) (r : list A) :
  upd_nth (List.length l) f (l ++ x :: r) = l ++ f x :: r.
Proof.
  induction l as [|y l IH]; simpl; [reflexivity|]. now rewrite IH.
Qed.

Lemma upd_nth_upd_nth {A : Type} (n : nat) (f g : A -> A) (l : list A) :
  upd_nth n g (upd_nth n f l) = upd_nth n (fun x => g (f x)) l.
Proof.
  revert n. induction l as [|x l IH]; intros [|n]; simpl; auto.
  now rewrite IH.
Qed.

Lemma upd_nth_beyond {A : Type} (n : nat) (f : A -> A) (l : list A) :
  List.length l <= n -> upd_nth n f l = l.
Proof.
  revert n. induction l as [|x l IH]; intros [|n] H; simpl in *; auto.
  - lia.
  - rewrite IH; [reflexivity|lia].
Qed.

Lemma nth_upd_nth_same {A : Type} (n : nat) (f : A -> A) (l : list A) (d : A) :
  n < List.length l -> nth n (upd_nth n f l) d = f (nth n l d).
Proof.
  revert n. induction l as [|x l IH]; intros [|n] H; simpl in *; auto; try lia.
  apply IH. lia.
Qed.

Lemma nth_upd_nth_other {A : Type} (n m : nat) (f : A -> A) (l : list A) (d : A) :
  n <> m -> nth m (upd_nth n f l) d = nth m l d.
Proof.
  revert n m. induction l as [|x l IH]; intros [|n] [|m] H; simpl; auto.
  contradiction.
Qed.

(** ** The processor fee *)

Lemma truthy_false (s : string) : truthy s = false <-> s = "".
Proof.
  unfold truthy. rewrite negb_false_iff. apply String.eqb_eq.
Qed.

Lemma truthy_true (s : string) : truthy s = true <-> s <> "".
Proof.
  unfold truthy. rewrite negb_true_iff. apply String.eqb_neq.
Qed.

(** C9, as stated: no fee posting is created when the fee is zero.  A fee
    cell reading [0.00] is the decimal zero, and [RecordStripeFee] still
    appends a split on the fee expense account to the transaction. *)
Lemma RecordStripeFee_posts_zero_fee :
  (exists d, Decimal "0.00" = Some d /\ dec_eq0 d = Some true) /\
  transactions (book (fst (RecordStripeFee 0 "25.00" "0.00" one_payment_world))) =
    [mkTransaction
       [mkSplit GetStripeAcct (GncNumeric "25.00");
        mkSplit GetStripeFeeAcct (GncNumeric "0.00")]
       (Some AUD) (Some (mkDate 2021 10 20)) COURT_BOOKING] /\
  fst (RecordStripeFee 0 "25.00" "0.00" one_payment_world) <> one_payment_world.
Proof.
  split; [|split].
  - eexists. split; vm_compute; reflexivity.
  - vm_compute. reflexivity.
  - vm_compute. discriminate.
Qed.

(** ** Running ledger operations *)

Ltac ledger_run :=
  lazy beta iota zeta delta
    [bind ret raise or_raise when get_book modify_book modify_invoice modify_trans
     modify_row InvoiceNextID CustomerNextID Invoice_new Entry_new SetIsCreditNote
     PostToAccount ApplyPayment Transaction_new Split_new SetCurrency SetDate
     SetDescription GetBookACourtCustomer set_invoices set_transactions with_book
     with_transactions book heap stdout invoices transactions customers
     invoice_counter customer_counter trans_splits trans_currency trans_date
     trans_description inv_id inv_currency inv_owner inv_date_opened
     inv_is_credit_note inv_entries inv_posted inv_payments fst snd negb].

(** ** Dispatch of a settlement row *)

Section Dispatch.

Context {lib : PyLib}.
Variables (cs_map : cs_map_t) (loc : Locals) (row : StripeRow) (d : date).
Hypothesis available_on : date_fromisoformat (split_space_0 (Available_On row)) = Some d.

Lemma dispatch_court (w : World) :
  Description row = COURT_BOOKING ->
  ProcessStripePayments_row cs_map loc row w =
    court_payment (rebind cs_map loc row) (player_name_of row)
      (Amount row) (Fee row) (Net row) (Description row) d w.
Proof.
  intros HD. unfold ProcessStripePayments_row. rewrite available_on.
  unfold bind at 1. simpl. fold (rebind cs_map loc row).
  rewrite HD. rewrite String.eqb_refl. reflexivity.
Qed.

Lemma dispatch_payout (w : World) :
  String.eqb (Description row) COURT_BOOKING = false ->
  Type_ row = "payout" ->
  ProcessStripePayments_row cs_map loc row w =
    (DoStripeTransfer (Amount row) d ;; ret (rebind cs_map loc row)) w.
Proof.
  intros HD HT. unfold ProcessStripePayments_row. rewrite available_on.
  unfold bind at 1. simpl. fold (rebind cs_map loc row).
  rewrite HD, HT. reflexivity.
Qed.

Lemma dispatch_refund (w : World) :
  String.eqb (Description row) COURT_BOOKING = false ->
  String.eqb (Type_ row) "payout" = false ->
  startswith (Description row) REFUND_PREFIX = true ->
  ProcessStripePayments_row cs_map loc row w =
    (if String.eqb (re_sub false refund_pattern 1 (Description row)) COURT_BOOKING
     then court_refund cs_map (Session row) (Amount row) (Fee row) (Net row) d ;;
          ret (rebind cs_map loc row)
     else plain_refund (re_sub false refund_pattern 1 (Description row)) (Amount row) d ;;
          ret (rebind cs_map loc row)) w.
Proof.
  intros HD HT HR. unfold ProcessStripePayments_row. rewrite available_on.
  unfold bind at 1. simpl. fold (rebind cs_map loc row).
  rewrite HD, HT, HR. reflexivity.
Qed.

End Dispatch.

Lemma plain_refund_run (refund_item amount : string) (d : date) (w : World) :
  plain_refund refund_item amount d w =
    (with_book w (set_transactions (book w)
       (transactions (book w)
        ++ [refund_transaction (refund_account refund_item) amount d])),
     Ok tt).
Proof.
  unfold plain_refund. fold (refund_account refund_item).
  generalize (refund_account refund_item). intros target.
  unfold bind, Transaction_new, Split_new, SetCurrency, SetDate, SetDescription,
    modify_trans, modify_book, with_book, refund_transaction, set_transactions.
  cbn. rewrite !upd_nth_upd_nth. rewrite upd_nth_app_length. cbn. reflexivity.
Qed.

Lemma MakeStripePayment_run (amount fee net description : string) (d : date) (w : World) :
  MakeStripePayment amount fee net description d w =
    (with_book w (set_transactions (book w)
       (transactions (book w) ++ [payment_transaction amount description d])),
     Ok (List.length (transactions (book w)))).
Proof.
  unfold MakeStripePayment, bind, Transaction_new, Split_new, SetCurrency, SetDate,
    SetDescription, modify_trans, modify_book, with_book, payment_transaction,
    set_transactions, ret.
  cbn. rewrite !upd_nth_upd_nth. rewrite upd_nth_app_length. cbn. reflexivity.
Qed.

Lemma DoStripeTransfer_run (amount : string) (d : date) (w : World) :
  DoStripeTransfer amount d w =
    (with_book w (set_transactions (book w)
       (transactions (book w) ++ [transfer_transaction amount d])),
     Ok tt).
Proof.
  unfold DoStripeTransfer, bind, Transaction_new, Split_new, SetCurrency, SetDate,
    SetDescription, modify_trans, modify_book, with_book, transfer_transaction,
    set_transactions.
  cbn. rewrite !upd_nth_upd_nth. rewrite upd_nth_app_length. cbn. reflexivity.
Qed.

(** ** Zero amounts *)

(** C5, on the failing input: a payout row whose amount cell reads [0.00]
    is the decimal zero, yet the comparison of the cell with the integer 0
    is false for every cell, the row is classified, and a transfer
    transaction of value [0.00] is created in the ledger. *)
Lemma zero_amount_row_is_processed :
  (exists z, Decimal "0.00" = Some z /\ dec_eq0 z = Some true) /\
  (forall amount : string, py_eq (PyStr amount) (PyInt 0) = false) /\
  ProcessStripePayments
    [stripe_row "" "" "0.00" "0.00" "0.00" STRIPE_PAYOUT "payout" ""]
    [(NO_NAME_ENTRY, [])] sample_world =
  (with_book sample_world (set_transactions sample_book
     [transfer_transaction "0.00" (mkDate 2021 10 20)]),
   Ok tt).
Proof.
  split; [|split].
  - eexists. split; vm_compute; reflexivity.
  - reflexivity.
  - vm_compute. reflexivity.
Qed.

(** ** Refunds of other items *)

(** C6, as stated: the refund of the fragment
    [Coburg Tennis Club Memberships:Social, ...] is routed to the
    membership sub-account Social.  It is not: the fragment does not
    contain [MEMBERSHIP_PREFIX], and the refund is posted against the
    fundraising sub-account Club Events. *)
Lemma social_refund_not_on_membership :
  ProcessStripePayments
    [stripe_row "Jane" "Doe" "25.00" "" "25.00" social_refund_description "refund" ""]
    [(NO_NAME_ENTRY, [])] sample_world =
  (with_book sample_world (set_transactions sample_book
     [refund_transaction ["Income"; "Fundraising"; "Club Events"] "25.00"
        (mkDate 2021 10 20)]),
   Ok tt) /\
  ["Income"; "Fundraising"; "Club Events"] <> ["Income"; "Memberships"; "Social"].
Proof.
  split.
  - vm_compute. reflexivity.
  - discriminate.
Qed.

(** C6, amended: for a refund row that is not a payout, the reconciler
    posts a plain two-sided refund transaction described Refund (the
    clearing account is posted the amount, the target account its
    negation) and creates no invoice and no credit note: the book changes
    by that one transaction only.  The target is the fundraising
    sub-account Club Events when the fragment is
    [Coburg Tennis Club Memberships:Social, ...], which does not contain the
    membership prefix [Coburg Tennis Club:], and the membership sub-account
    Social when the fragment is [Coburg Tennis Club:Social, ...]. *)
Theorem social_refund_is_plain {lib : PyLib} (cs_map : cs_map_t) (loc : Locals)
    (row : StripeRow) (d : date) (w : World) :
  date_fromisoformat (split_space_0 (Available_On row)) = Some d ->
  Type_ row <> "payout" ->
  (Description row = social_refund_description ->
   ProcessStripePayments_row cs_map loc row w =
     (with_book w (set_transactions (book w)
        (transactions (book w)
         ++ [refund_transaction ["Income"; "Fundraising"; "Club Events"] (Amount row) d])),
      Ok (rebind cs_map loc row))) /\
  (Description row = prefixed_social_refund_description ->
   ProcessStripePayments_row cs_map loc row w =
     (with_book w (set_transactions (book w)
        (transactions (book w)
         ++ [refund_transaction ["Income"; "Memberships"; "Social"] (Amount row) d])),
      Ok (rebind cs_map loc row))).
Proof.
  intros Hd HT. apply String.eqb_neq in HT.
  split; intros HD.
  - rewrite (dispatch_refund cs_map loc row d Hd w);
      try (rewrite HD; vm_compute; reflexivity); try exact HT.
    rewrite HD.
    replace (re_sub false refund_pattern 1 social_refund_description)
      with "Coburg Tennis Club Memberships:Social, ..." by (vm_compute; reflexivity).
    replace ("Coburg Tennis Club Memberships:Social, ..." =? COURT_BOOKING)%string
      with false by (vm_compute; reflexivity).
    unfold bind. rewrite plain_refund_run.
    replace (refund_account "Coburg Tennis Club Memberships:Social, ...")
      with ["Income"; "Fundraising"; "Club Events"] by (vm_compute; reflexivity).
    reflexivity.
  - rewrite (dispatch_refund cs_map loc row d Hd w);
      try (rewrite HD; vm_compute; reflexivity); try exact HT.
    rewrite HD.
    replace (re_sub false refund_pattern 1 prefixed_social_refund_description)
      with "Coburg Tennis Club:Social, ..." by (vm_compute; reflexivity).
    replace ("Coburg Tennis Club:Social, ..." =? COURT_BOOKING)%string
      with false by (vm_compute; reflexivity).
    unfold bind. rewrite plain_refund_run.
    replace (refund_account "Coburg Tennis Club:Social, ...")
      with ["Income"; "Memberships"; "Social"] by (vm_compute; reflexivity).
    reflexivity.
Qed.

Lemma social_refund_is_plain_witness :
  ProcessStripePayments_row [(NO_NAME_ENTRY, [])] (mkLocals None None)
    (stripe_row "Jane" "Doe" "25.00" "" "25.00" social_refund_description "refund" "")
    sample_world =
  (with_book sample_world (set_transactions sample_book
     [refund_transaction ["Income"; "Fundraising"; "Club Events"] "25.00"
        (mkDate 2021 10 20)]),
   Ok (mkLocals None None)) /\
  ProcessStripePayments_row [(NO_NAME_ENTRY, [])] (mkLocals None None)
    (stripe_row "Jane" "Doe" "25.00" "" "25.00" prefixed_social_refund_description
       "refund" "")
    sample_world =
  (with_book sample_world (set_transactions sample_book
     [refund_transaction ["Income"; "Memberships"; "Social"] "25.00"
        (mkDate 2021 10 20)]),
   Ok (mkLocals None None)).
Proof.
  split.
  - apply (proj1 (social_refund_is_plain (lib := feed_lib) [(NO_NAME_ENTRY, [])]
             (mkLocals None None)
             (stripe_row "Jane" "Doe" "25.00" "" "25.00" social_refund_description
                "refund" "")
             (mkDate 2021 10 20) sample_world eq_refl
             ltac:(discriminate))).
    reflexivity.
  - apply (proj2 (social_refund_is_plain (lib := feed_lib) [(NO_NAME_ENTRY, [])]
             (mkLocals None None)
             (stripe_row "Jane" "Doe" "25.00" "" "25.00"
                prefixed_social_refund_description "refund" "")
             (mkDate 2021 10 20) sample_world eq_refl
             ltac:(discriminate))).
    reflexivity.
Defined.

(** ** The bucket variable of the court-payment handler *)

Lemma bind_ret_const {A B : Type} (m : M A) (b : B) (w w' : World) (r : B) :
  (m ;; ret b) w = (w', Ok r) -> r = b.
Proof.
  unfold bind, ret. destruct (m w) as [w1 [a|e]]; intros H; inversion H; reflexivity.
Qed.

Lemma court_payment_keeps_player_list (loc loc' : Locals)
    (player_name amount fee net description : string) (d : date) (w w' : World) :
  court_payment loc player_name amount fee net description d w = (w', Ok loc') ->
  player_list loc' = player_list loc.
Proof.
  unfold court_payment, bind.
  destruct (MakeStripePayment amount fee net description d w) as [w1 [trans|e]];
    [|discriminate].
  destruct (player_list loc) as [l|]; simpl; [|discriminate].
  destruct (allocate_loop trans amount fee net d l (player_row loc) w1)
    as [w2 [[prow allocated]|e]]; [|discriminate].
  destruct allocated; simpl.
  - intros H. inversion H. reflexivity.
  - destruct prow as [r|]; simpl; [|discriminate].
    intros H. inversion H. reflexivity.
Qed.

Lemma court_payment_unbound (loc : Locals)
    (player_name amount fee net description : string) (d : date) (w : World) :
  player_list loc = None ->
  court_payment loc player_name amount fee net description d w =
    (with_book w (set_transactions (book w)
       (transactions (book w) ++ [payment_transaction amount description d])),
     Raise (UnboundLocalError "player_list")).
Proof.
  intros H. unfold court_payment, bind. rewrite MakeStripePayment_run. rewrite H.
  reflexivity.
Qed.

Lemma player_list_rebind (cs_map : cs_map_t) (loc : Locals) (row : StripeRow) :
  player_list (rebind cs_map loc row) =
    match cs_get cs_map (player_name_of row) with
    | Some l => Some l
    | None => player_list loc
    end.
Proof.
  unfold rebind. destruct (cs_get cs_map (player_name_of row)); reflexivity.
Qed.

Lemma row_player_list {lib : PyLib} (cs_map : cs_map_t) (loc loc' : Locals)
    (row : StripeRow) (w w' : World) :
  ProcessStripePayments_row cs_map loc row w = (w', Ok loc') ->
  player_list loc' = player_list (rebind cs_map loc row).
Proof.
  unfold ProcessStripePayments_row. fold (rebind cs_map loc row).
  generalize (rebind cs_map loc row). intros loc1.
  unfold bind at 1.
  destruct (date_fromisoformat (split_space_0 (Available_On row))) as [d|]; simpl;
    [|discriminate].
  destruct (String.eqb (Description row) COURT_BOOKING).
  { apply court_payment_keeps_player_list. }
  destruct (String.eqb (Type_ row) "payout").
  { intros H. apply bind_ret_const in H. congruence. }
  destruct (startswith (Description row) REFUND_PREFIX).
  { destruct (String.eqb (re_sub false refund_pattern 1 (Description row)) COURT_BOOKING);
      intros H; apply bind_ret_const in H; congruence. }
  destruct (startswith (Description row) MEMBERSHIP_PREFIX).
  { intros H. apply bind_ret_const in H. congruence. }
  destruct (startswith (Description row) EVENT_PREFIX).
  { intros H. apply bind_ret_const in H. congruence. }
  intros H. inversion H. reflexivity.
Qed.

(** C4, on the failing input: Jane Doe has a booking, and the first
    settlement row is a court payment by Bob Roe, who has no bucket, so
    that no unallocated row of matching fee exists in his bucket.  The
    reconciler raises an unbound-variable error and prints nothing. *)
Lemma unknown_player_court_payment_raises :
  exists w : World,
    main [jane_booking] [court_payment_row "Bob" "Roe"] sample_world =
      (w, Raise (UnboundLocalError "player_list")) /\
    stdout w = [].
Proof.
  remember (main [jane_booking] [court_payment_row "Bob" "Roe"] sample_world) as r eqn:E.
  vm_compute in E. subst r. eexists. split; reflexivity.
Qed.

(** C10: [player_list] is assigned only when the player name of the
    current row is a key of the allocation index: after a row is processed
    the variable holds that bucket when the name is a key and its previous
    value otherwise.  A court-payment row whose player name has no bucket
    is processed exactly as if the bucket bound by an earlier row were the
    player's own; in the sample run the payment of Bob Roe is applied to
    the invoice of Jane Doe's booking, whose fee it matches.  When no
    earlier row bound the variable, the handler raises an unbound-variable
    error after creating the payment transaction, and prints nothing. *)
Theorem player_list_binding {lib : PyLib} (cs_map : cs_map_t) (loc : Locals)
    (row : StripeRow) (w : World) :
  (forall (w' : World) (loc' : Locals),
      ProcessStripePayments_row cs_map loc row w = (w', Ok loc') ->
      player_list loc' =
        match cs_get cs_map (player_name_of row) with
        | Some l => Some l
        | None => player_list loc
        end) /\
  (forall (d : date) (l : list nat),
      date_fromisoformat (split_space_0 (Available_On row)) = Some d ->
      Description row = COURT_BOOKING ->
      cs_get cs_map (player_name_of row) = None ->
      player_list loc = Some l ->
      ProcessStripePayments_row cs_map loc row w =
        ProcessStripePayments_row [(player_name_of row, l)] loc row w) /\
  (forall d : date,
      date_fromisoformat (split_space_0 (Available_On row)) = Some d ->
      Description row = COURT_BOOKING ->
      cs_get cs_map (player_name_of row) = None ->
      player_list loc = None ->
      ProcessStripePayments_row cs_map loc row w =
        (with_book w (set_transactions (book w)
           (transactions (book w)
            ++ [payment_transaction (Amount row) (Description row) d])),
         Raise (UnboundLocalError "player_list"))) /\
  (exists w' : World,
      main (lib := feed_lib) [jane_booking]
        [unclassified_row; court_payment_row "Bob" "Roe"] sample_world = (w', Ok tt) /\
      option_map row_Allocated (nth_error (heap w') 0) = Some (Some true) /\
      option_map inv_payments (nth_error (invoices (book w')) 0) =
        Some [mkPayment 0 GetStripeAcct (GncNumeric "25.00") (GncNumericInt 1)
                (mkDate 2021 10 20)] /\
      stdout w' = []).
Proof.
  split; [|split; [|split]].
  - intros w' loc' H. apply row_player_list in H. rewrite H.
    apply player_list_rebind.
  - intros d l Hd HD HN HL.
    rewrite (dispatch_court cs_map loc row d Hd w HD).
    rewrite (dispatch_court [(player_name_of row, l)] loc row d Hd w HD).
    unfold rebind. rewrite HN. simpl. rewrite String.eqb_refl.
    destruct loc as [pl pr]. simpl in HL. subst pl. reflexivity.
  - intros d Hd HD HN HL.
    rewrite (dispatch_court cs_map loc row d Hd w HD).
    apply court_payment_unbound. unfold rebind. rewrite HN. exact HL.
  - remember (main (lib := feed_lib) [jane_booking]
                [unclassified_row; court_payment_row "Bob" "Roe"] sample_world)
      as r eqn:E.
    vm_compute in E. subst r. eexists. repeat split.
Qed.

Lemma player_list_binding_witness :
  ProcessStripePayments_row [(NO_NAME_ENTRY, [])] (mkLocals None None)
    (court_payment_row "Bob" "Roe") sample_world =
  (with_book sample_world (set_transactions sample_book
     [payment_transaction "25.00" COURT_BOOKING (mkDate 2021 10 20)]),
   Raise (UnboundLocalError "player_list")) /\
  ProcessStripePayments_row [(NO_NAME_ENTRY, [])] (mkLocals (Some [0]) None)
    (court_payment_row "Bob" "Roe") sample_world =
  ProcessStripePayments_row [("Bob Roe", [0])] (mkLocals (Some [0]) None)
    (court_payment_row "Bob" "Roe") sample_world.
Proof.
  split.
  - exact (proj1 (proj2 (proj2
      (player_list_binding (lib := feed_lib) [(NO_NAME_ENTRY, [])] (mkLocals None None)
         (court_payment_row "Bob" "Roe") sample_world)))
      (mkDate 2021 10 20) eq_refl eq_refl eq_refl eq_refl).
  - exact (proj1 (proj2
      (player_list_binding (lib := feed_lib) [(NO_NAME_ENTRY, [])]
         (mkLocals (Some [0]) None) (court_payment_row "Bob" "Roe") sample_world))
      (mkDate 2021 10 20) [0] eq_refl eq_refl eq_refl eq_refl).
Defined.

(** ** Court refunds *)

Section CourtRefund.

Context {lib : PyLib}.

Lemma refund_scan_bucket_run (bd : datetime) (amount : string) (l : list nat)
    (fees : option string * option string) (w : World) :
  rows_parse (heap w) l ->
  refund_scan_bucket bd amount l fees w = (w, Ok (scan_fees (heap w) bd amount l fees)).
Proof.
  revert fees. induction l as [|r l IH]; intros fees P; simpl.
  - reflexivity.
  - unfold bind at 1. unfold get_row at 1.
    assert (booking_datetime_of (heap w) r <> None) as Pr by (apply P; left; reflexivity).
    unfold refund_match. unfold booking_datetime_of in *.
    unfold bind at 1.
    destruct (datetime_strptime _ booking_format) as [t|]; [|contradiction].
    simpl.
    destruct (datetime_eqb t bd && _)%bool;
      apply IH; intros x Hx; apply P; right; exact Hx.
Qed.

Lemma scan_fees_app (hp : list BookingRow) (bd : datetime) (amount : string)
    (l1 l2 : list nat) (fees : option string * option string) :
  scan_fees hp bd amount (l1 ++ l2) fees =
    scan_fees hp bd amount l2 (scan_fees hp bd amount l1 fees).
Proof.
  revert fees. induction l1 as [|r l1 IH]; intros fees; simpl; auto.
Qed.

Lemma refund_scan_run (bd : datetime) (amount : string) (cs_map : cs_map_t)
    (fees : option string * option string) (w : World) :
  rows_parse (heap w) (all_rows cs_map) ->
  refund_scan bd amount cs_map fees w =
    (w, Ok (scan_fees (heap w) bd amount (all_rows cs_map) fees)).
Proof.
  revert fees. induction cs_map as [|[key l] rest IH]; intros fees P; simpl.
  - reflexivity.
  - unfold all_rows in *. simpl in *. unfold bind.
    rewrite refund_scan_bucket_run
      by (intros r Hr; apply P; apply in_or_app; left; exact Hr).
    rewrite IH by (intros r Hr; apply P; apply in_or_app; right; exact Hr).
    rewrite scan_fees_app. reflexivity.
Qed.

Lemma scan_fees_no_match (hp : list BookingRow) (bd : datetime) (amount : string)
    (l : list nat) (fees : option string * option string) :
  (forall r, In r l -> refund_match hp bd amount r = false) ->
  scan_fees hp bd amount l fees = fees.
Proof.
  revert fees. induction l as [|r l IH]; intros fees H; simpl.
  - reflexivity.
  - rewrite (H r) by (left; reflexivity). apply IH.
    intros x Hx. apply H. right. exact Hx.
Qed.

Lemma scan_fees_last_match (hp : list BookingRow) (bd : datetime) (amount : string)
    (pre : list nat) (r : nat) (post : list nat) (fees : option string * option string) :
  refund_match hp bd amount r = true ->
  (forall x, In x post -> refund_match hp bd amount x = false) ->
  scan_fees hp bd amount (pre ++ r :: post) fees =
    (Some (Court_Fee (row_csv (nth r hp empty_row))),
     Some (Light_Fee (row_csv (nth r hp empty_row)))).
Proof.
  intros Hr Hpost. rewrite scan_fees_app. simpl. rewrite Hr.
  apply scan_fees_no_match. exact Hpost.
Qed.

End CourtRefund.

Lemma court_refund_run {lib : PyLib} (cs_map : cs_map_t)
    (refund_detail amount fee net : string) (d : date) (w : World)
    (fees : option string * option string) :
  match datetime_strptime refund_detail refund_format with
  | Some bd => refund_scan bd amount cs_map (None, None)
  | None => ret (None, None)
  end w = (w, Ok fees) ->
  court_refund cs_map refund_detail amount fee net d w =
    (court_refund_world w d (entries_of_fees d amount fees) amount fee net, Ok tt).
Proof.
  intros H. unfold court_refund. unfold bind at 1. rewrite H. clear H.
  destruct fees as [court_fee light_fee].
  destruct w as [[invs txs custs ic cc] hp out].
  unfold court_refund_world, credit_note, refund_payment_transaction, entries_of_fees,
    fee_entries, RecordStripeFee, fee_posted.
  destruct court_fee as [cf|], light_fee as [lf|];
    try destruct (truthy cf); try destruct (truthy lf); try destruct (truthy amount);
    destruct (truthy fee);
    ledger_run;
    rewrite ?upd_nth_app_length; cbn; rewrite ?upd_nth_app_length; reflexivity.
Qed.

Lemma refund_is_not_court_booking (description : string) :
  startswith description REFUND_PREFIX = true ->
  String.eqb description COURT_BOOKING = false.
Proof.
  intros H. destruct (String.eqb description COURT_BOOKING) eqn:E; [|reflexivity].
  apply String.eqb_eq in E. subst description. vm_compute in H. discriminate H.
Qed.

(** C7, as stated: a court refund whose parsed session and amount match
    no booking row gets a credit note with the single court-hire refund
    item, and so does one whose session does not parse.  Neither holds
    for every row.  With a booking row whose date and time are not in the
    booking format, a refund whose session parses raises [ValueError] in
    the scan, which reads every booking row: the run stops in the state
    the importer left, without credit note.  And a refund whose amount
    cell is empty gets a credit note without line item. *)
Lemma court_refund_not_attributed :
  @datetime_strptime feed_lib
    "Coburg Tennis Club Tuesday, 19 October 2021 5:00 PM" refund_format =
    Some (mkDatetime 2021 10 19 17 0 0) /\
  EnterBacInvoices (lib := feed_lib) [slash_booking] sample_world =
    (invoiced_world sample_world slash_booking (mkDate 2021 10 17)
       (booking_entries (mkDate 2021 10 17) slash_booking true true),
     Ok imported_map) /\
  (forall r, In r (all_rows imported_map) ->
     refund_match (lib := feed_lib)
       (heap (invoiced_world sample_world slash_booking (mkDate 2021 10 17)
                (booking_entries (mkDate 2021 10 17) slash_booking true true)))
       (mkDatetime 2021 10 19 17 0 0) "25.00" r = false) /\
  main (lib := feed_lib) [slash_booking]
    [court_refund_row "Coburg Tennis Club Tuesday, 19 October 2021 5:00 PM"]
    sample_world =
    (invoiced_world sample_world slash_booking (mkDate 2021 10 17)
       (booking_entries (mkDate 2021 10 17) slash_booking true true),
     Raise ValueError) /\
  ProcessStripePayments (lib := feed_lib) [empty_refund_row] imported_map imported_world =
    (court_refund_world imported_world (mkDate 2021 10 20) [] "" "" "", Ok tt).
Proof.
  split; [|split; [|split; [|split]]].
  - vm_compute. reflexivity.
  - vm_compute. reflexivity.
  - intros r [<-|[]]. vm_compute. reflexivity.
  - vm_compute. reflexivity.
  - vm_compute. reflexivity.
Qed.

(** C7, amended: for a refund row whose refunded item is the court
    booking and whose amount cell is not empty, the credit note carries a
    single court-hire refund line item for the full amount, and no
    light-hire item, when the session text does not parse under the fixed
    format, and also when it parses, the date and time of every booking
    row parse under the booking format, and no booking row of any bucket
    has that date-time and a total fee equal to the amount; when the
    session parses, the date and time of every booking row parse and a
    booking row matches, the line items are the court fee and the light
    fee of that row (of the last such row in bucket order). *)
Theorem court_refund_attribution {lib : PyLib} (cs_map : cs_map_t) (loc : Locals)
    (row : StripeRow) (d : date) (w : World) :
  date_fromisoformat (split_space_0 (Available_On row)) = Some d ->
  Type_ row <> "payout" ->
  startswith (Description row) REFUND_PREFIX = true ->
  re_sub false refund_pattern 1 (Description row) = COURT_BOOKING ->
  (datetime_strptime (Session row) refund_format = None ->
   Amount row <> "" ->
   ProcessStripePayments_row cs_map loc row w =
     (court_refund_world w d [court_refund_entry d (Amount row)]
        (Amount row) (Fee row) (Net row),
      Ok (rebind cs_map loc row))) /\
  (forall bd : datetime,
      datetime_strptime (Session row) refund_format = Some bd ->
      rows_parse (heap w) (all_rows cs_map) ->
      (forall r, In r (all_rows cs_map) ->
                 refund_match (heap w) bd (Amount row) r = false) ->
      Amount row <> "" ->
      ProcessStripePayments_row cs_map loc row w =
        (court_refund_world w d [court_refund_entry d (Amount row)]
           (Amount row) (Fee row) (Net row),
         Ok (rebind cs_map loc row))) /\
  (forall (bd : datetime) (pre : list nat) (r : nat) (post : list nat),
      datetime_strptime (Session row) refund_format = Some bd ->
      rows_parse (heap w) (all_rows cs_map) ->
      all_rows cs_map = pre ++ r :: post ->
      refund_match (heap w) bd (Amount row) r = true ->
      (forall x, In x post -> refund_match (heap w) bd (Amount row) x = false) ->
      ProcessStripePayments_row cs_map loc row w =
        (court_refund_world w d
           (fee_entries d (Court_Fee (row_csv (nth r (heap w) empty_row)))
              (Light_Fee (row_csv (nth r (heap w) empty_row))))
           (Amount row) (Fee row) (Net row),
         Ok (rebind cs_map loc row))).
Proof.
  intros Hd HT HR HI.
  assert (forall fees,
    match datetime_strptime (Session row) refund_format with
    | Some bd => refund_scan bd (Amount row) cs_map (None, None)
    | None => ret (None, None)
    end w = (w, Ok fees) ->
    ProcessStripePayments_row cs_map loc row w =
      (court_refund_world w d (entries_of_fees d (Amount row) fees)
         (Amount row) (Fee row) (Net row),
       Ok (rebind cs_map loc row))) as Run.
  { intros fees Hscan.
    rewrite (dispatch_refund cs_map loc row d Hd w
               (refund_is_not_court_booking _ HR)
               (proj2 (String.eqb_neq _ _) HT) HR).
    rewrite HI. rewrite String.eqb_refl. unfold bind.
    rewrite (court_refund_run cs_map (Session row) (Amount row) (Fee row) (Net row)
               d w fees Hscan).
    reflexivity. }
  assert (forall amount, amount <> "" ->
            entries_of_fees d amount (None, None) = [court_refund_entry d amount]) as Full.
  { intros amount Ha. apply truthy_true in Ha.
    unfold entries_of_fees, fee_entries. rewrite Ha. reflexivity. }
  split; [|split].
  - intros Hp Ha. rewrite <- (Full _ Ha). apply Run. rewrite Hp. reflexivity.
  - intros bd Hp P Hno Ha. rewrite <- (Full _ Ha). apply Run. rewrite Hp.
    rewrite (refund_scan_run bd (Amount row) cs_map (None, None) w P).
    rewrite (scan_fees_no_match _ _ _ _ _ Hno). reflexivity.
  - intros bd pre r post Hp P Hall Hr Hpost.
    rewrite (Run (Some (Court_Fee (row_csv (nth r (heap w) empty_row))),
                  Some (Light_Fee (row_csv (nth r (heap w) empty_row))))).
    + reflexivity.
    + rewrite Hp. rewrite (refund_scan_run bd (Amount row) cs_map (None, None) w P).
      rewrite Hall. rewrite (scan_fees_last_match _ _ _ _ _ _ _ Hr Hpost). reflexivity.
Qed.

Lemma court_refund_attribution_witness :
  ProcessStripePayments_row imported_map (mkLocals None None)
    (court_refund_row "unknown") imported_world =
  (court_refund_world imported_world (mkDate 2021 10 20)
     [court_refund_entry (mkDate 2021 10 20) "25.00"] "25.00" "0.00" "25.00",
   Ok (mkLocals (Some [0]) None)) /\
  ProcessStripePayments_row imported_map (mkLocals None None)
    (court_refund_row "Coburg Tennis Club Tuesday, 19 October 2021 6:00 PM")
    imported_world =
  (court_refund_world imported_world (mkDate 2021 10 20)
     [court_refund_entry (mkDate 2021 10 20) "25.00"] "25.00" "0.00" "25.00",
   Ok (mkLocals (Some [0]) None)) /\
  ProcessStripePayments_row imported_map (mkLocals None None)
    (court_refund_row "Coburg Tennis Club Tuesday, 19 October 2021 5:00 PM")
    imported_world =
  (court_refund_world imported_world (mkDate 2021 10 20)
     [court_refund_entry (mkDate 2021 10 20) "20.00";
      light_refund_entry (mkDate 2021 10 20) "5.00"] "25.00" "0.00" "25.00",
   Ok (mkLocals (Some [0]) None)).
Proof.
  assert (rows_parse (lib := feed_lib) (heap imported_world) (all_rows imported_map)) as P.
  { intros r [<-|[]]. vm_compute. discriminate. }
  split; [|split].
  - apply (proj1 (court_refund_attribution (lib := feed_lib) imported_map
                    (mkLocals None None) (court_refund_row "unknown")
                    (mkDate 2021 10 20) imported_world
                    ltac:(vm_compute; reflexivity) ltac:(discriminate)
                    ltac:(vm_compute; reflexivity) ltac:(vm_compute; reflexivity))).
    + vm_compute. reflexivity.
    + discriminate.
  - apply (proj1 (proj2 (court_refund_attribution (lib := feed_lib) imported_map
                    (mkLocals None None)
                    (court_refund_row "Coburg Tennis Club Tuesday, 19 October 2021 6:00 PM")
                    (mkDate 2021 10 20) imported_world
                    ltac:(vm_compute; reflexivity) ltac:(discriminate)
                    ltac:(vm_compute; reflexivity) ltac:(vm_compute; reflexivity)))
             (mkDatetime 2021 10 19 18 0 0)).
    + vm_compute. reflexivity.
    + exact P.
    + intros r [<-|[]]. vm_compute. reflexivity.
    + discriminate.
  - apply (proj2 (proj2 (court_refund_attribution (lib := feed_lib) imported_map
                    (mkLocals None None)
                    (court_refund_row "Coburg Tennis Club Tuesday, 19 October 2021 5:00 PM")
                    (mkDate 2021 10 20) imported_world
                    ltac:(vm_compute; reflexivity) ltac:(discriminate)
                    ltac:(vm_compute; reflexivity) ltac:(vm_compute; reflexivity)))
             (mkDatetime 2021 10 19 17 0 0) [] 0 []).
    + vm_compute. reflexivity.
    + exact P.
    + reflexivity.
    + vm_compute. reflexivity.
    + intros x [].
Defined.

(** ** The booking import *)

Lemma truthy_player_name (a b : string) : truthy (a ++ " " ++ b) = true.
Proof.
  apply truthy_true. destruct a; simpl; discriminate.
Qed.

Lemma cs_get_append (cs_map : cs_map_t) (key key' : string) (r : nat) :
  cs_get (cs_append cs_map key r) key' =
    if String.eqb key key'
    then option_map (fun l => l ++ [r]) (cs_get cs_map key')
    else cs_get cs_map key'.
Proof.
  induction cs_map as [|[k l] rest IH]; simpl.
  - destruct (String.eqb key key'); reflexivity.
  - destruct (String.eqb k key) eqn:E1; simpl.
    + apply String.eqb_eq in E1. subst k.
      destruct (String.eqb key key'); reflexivity.
    + destruct (String.eqb k key') eqn:E2.
      * destruct (String.eqb key key') eqn:E3; [|reflexivity].
        apply String.eqb_eq in E2, E3. subst. rewrite String.eqb_refl in E1.
        discriminate.
      * exact IH.
Qed.

Lemma cs_get_new (cs_map : cs_map_t) (key key' : string) (r : nat) :
  cs_get (cs_new cs_map key r) key' =
    match cs_get cs_map key' with
    | Some l => Some l
    | None => if String.eqb key key' then Some [r] else None
    end.
Proof.
  unfold cs_new. induction cs_map as [|[k l] rest IH]; simpl.
  - reflexivity.
  - destruct (String.eqb k key'); [reflexivity|exact IH].
Qed.

Lemma file_row_same (cs_map : cs_map_t) (key : string) (r : nat) :
  exists l, cs_get (file_row cs_map key r) key = Some l /\ In r l.
Proof.
  unfold file_row. destruct (cs_get cs_map key) as [l|] eqn:E.
  - rewrite cs_get_append, String.eqb_refl, E. simpl.
    eexists. split; [reflexivity|]. apply in_or_app. right. left. reflexivity.
  - rewrite cs_get_new, E, String.eqb_refl.
    eexists. split; [reflexivity|]. left. reflexivity.
Qed.

Lemma file_row_grows (cs_map : cs_map_t) (key key' : string) (r : nat) (l : list nat) :
  cs_get cs_map key' = Some l ->
  exists l', cs_get (file_row cs_map key r) key' = Some l' /\ incl l l'.
Proof.
  intros H. unfold file_row. destruct (cs_get cs_map key) as [l0|] eqn:E.
  - rewrite cs_get_append, H. destruct (String.eqb key key'); simpl.
    + eexists. split; [reflexivity|]. apply incl_appl. apply incl_refl.
    + eexists. split; [reflexivity|]. apply incl_refl.
  - rewrite cs_get_new, H. eexists. split; [reflexivity|]. apply incl_refl.
Qed.

Section BookingImport.

Context {lib : PyLib}.

Lemma truthy_booking_player (c : BookingCsv) : truthy (booking_player c) = true.
Proof. apply truthy_player_name. Qed.

Lemma file_row_ret (cs_map : cs_map_t) (key : string) (r : nat) :
  match cs_get cs_map key with
  | Some _ => ret (cs_append cs_map key r)
  | None => ret (cs_new cs_map key r)
  end = ret (file_row cs_map key r).
Proof. unfold file_row. destruct (cs_get cs_map key); reflexivity. Qed.

Lemma EnterBacInvoices_row_ok (cs_map cs_map' : cs_map_t) (c : BookingCsv) (w w' : World) :
  EnterBacInvoices_row cs_map c w = (w', Ok cs_map') ->
  cs_map' = file_row cs_map (booking_player c) (List.length (heap w)) /\
  ((both_zero c = true /\ w' = skipped_world w c) \/
   (both_zero c = false /\
    exists d entries,
      date_fromisoformat (Booked_Date c) = Some d /\ w' = invoiced_world w c d entries)).
Proof.
  unfold EnterBacInvoices_row, both_zero. cbv zeta. fold (booking_player c).
  rewrite truthy_booking_player.
  unfold bind at 1. unfold new_row at 1.
  rewrite file_row_ret. fold (skipped_world w c).
  unfold bind at 1. unfold ret at 1.
  unfold bind at 1.
  destruct (date_fromisoformat (Booked_Date c)) as [d|]; [|discriminate].
  unfold or_raise at 1, ret at 1.
  unfold bind at 1.
  destruct (Decimal (Court_Fee c)) as [court_hire|]; [|discriminate].
  unfold or_raise at 1, ret at 1.
  unfold bind at 1.
  destruct (Decimal (Light_Fee c)) as [light_hire|]; [|discriminate].
  unfold or_raise at 1, ret at 1.
  unfold bind at 1.
  destruct (dec_eq0 court_hire) as [court_zero|]; [|discriminate].
  unfold or_raise at 1, ret at 1.
  unfold bind at 1.
  destruct (dec_eq0 light_hire) as [light_zero|]; [|discriminate].
  unfold or_raise at 1, ret at 1.
  destruct (court_zero && light_zero)%bool.
  - intros H. inversion H. split; [reflexivity|]. left. split; reflexivity.
  - destruct w as [[invs txs custs ic cc] hp out].
    unfold skipped_world, invoiced_world, booking_invoice.
    destruct (dec_gt0 court_hire) as [court_pos|];
      [|ledger_run; discriminate].
    destruct (dec_gt0 light_hire) as [light_pos|];
      [|destruct court_pos; ledger_run; discriminate].
    destruct court_pos, light_pos; ledger_run;
      rewrite ?upd_nth_app_length; cbn; rewrite ?upd_nth_app_length;
      intros H; inversion H; (split; [reflexivity|]); right; (split; [reflexivity|]);
      exists d; eexists; split; reflexivity.
Qed.
Lemma both_zero_iff (c : BookingCsv) :
  both_zero c = true <-> fee_is_zero (Court_Fee c) /\ fee_is_zero (Light_Fee c).
Proof.
  unfold both_zero, fee_is_zero. split.
  - destruct (Decimal (Court_Fee c)) as [a|]; [|discriminate].
    destruct (Decimal (Light_Fee c)) as [b|]; [|discriminate].
    destruct (dec_eq0 a) as [x|] eqn:Ea; [|discriminate].
    destruct (dec_eq0 b) as [y|] eqn:Eb; [|discriminate].
    intros H. apply andb_true_iff in H. destruct H as [-> ->].
    split; eexists; split; try reflexivity; assumption.
  - intros [(a & -> & Ha) (b & -> & Hb)]. rewrite Ha, Hb. reflexivity.
Qed.

(** What one iteration that does not raise does to the store and to the
    number of invoices. *)
Lemma EnterBacInvoices_row_store (cs_map cs_map' : cs_map_t) (c : BookingCsv)
    (w w' : World) :
  EnterBacInvoices_row cs_map c w = (w', Ok cs_map') ->
  cs_map' = file_row cs_map (booking_player c) (List.length (heap w)) /\
  (exists x, heap w' = heap w ++ [x] /\
             (both_zero c = true -> x = mkBookingRow c None None)) /\
  List.length (invoices (book w')) =
    List.length (invoices (book w)) + (if both_zero c then 0 else 1) /\
  (both_zero c = true -> book w' = book w).
Proof.
  intros H. apply EnterBacInvoices_row_ok in H.
  destruct H as [-> [[Z ->]|[Z (d & entries & _ & ->)]]]; rewrite Z; simpl.
  - split; [reflexivity|].
    split; [eexists; split; [reflexivity|intros _; reflexivity]|].
    split; [lia|intros _; reflexivity].
  - split; [reflexivity|]. split; [eexists; split; [reflexivity|discriminate]|].
    split; [|discriminate]. rewrite length_app. simpl. lia.
Qed.

Lemma EnterBacInvoices_loop_ok (cs_csv : list BookingCsv) :
  forall (cs_map cs_map' : cs_map_t) (w w' : World),
    EnterBacInvoices_loop cs_csv cs_map w = (w', Ok cs_map') ->
    List.length (heap w') = List.length (heap w) + List.length cs_csv /\
    (forall k, k < List.length (heap w) -> nth_error (heap w') k = nth_error (heap w) k) /\
    (forall key l, cs_get cs_map key = Some l ->
                   exists l', cs_get cs_map' key = Some l' /\ incl l l') /\
    List.length (invoices (book w')) =
      List.length (invoices (book w))
      + List.length (filter (fun c => negb (both_zero c)) cs_csv) /\
    (forall i c, nth_error cs_csv i = Some c ->
       (exists l, cs_get cs_map' (booking_player c) = Some l /\
                  In (List.length (heap w) + i) l) /\
       (both_zero c = true ->
        nth_error (heap w') (List.length (heap w) + i) = Some (mkBookingRow c None None))).
Proof.
  induction cs_csv as [|c rest IH]; intros cs_map cs_map' w w' H; simpl in H.
  - inversion H; subst. simpl. repeat split; try lia.
    + intros key l Hl. exists l. split; [exact Hl|apply incl_refl].
    + destruct i; discriminate.
    + destruct i; discriminate.
  - unfold bind in H.
    destruct (EnterBacInvoices_row cs_map c w) as [w1 [cs_map1|e]] eqn:Step;
      [|discriminate].
    apply EnterBacInvoices_row_store in Step.
    destruct Step as (-> & (x & Hheap & Hx) & Hinv & _).
    apply IH in H. destruct H as (Hlen & Hold & Hmap & Hcount & Hrows).
    rewrite Hheap in Hlen, Hold, Hrows. rewrite length_app in Hlen, Hold, Hrows.
    simpl in Hlen, Hold, Hrows.
    split; [simpl; lia|]. split; [|split; [|split]].
    + intros k Hk. rewrite Hold by lia. apply nth_error_app1. exact Hk.
    + intros key l Hl.
      destruct (file_row_grows cs_map (booking_player c) key (List.length (heap w)) l Hl)
        as (l1 & Hl1 & I1).
      destruct (Hmap key l1 Hl1) as (l2 & Hl2 & I2).
      exists l2. split; [exact Hl2|]. eapply incl_tran; eassumption.
    + rewrite Hcount, Hinv. simpl. destruct (both_zero c); simpl; lia.
    + intros [|i] c' Hc'; simpl in Hc'.
      * inversion Hc'; subst c'. rewrite Nat.add_0_r. split.
        -- destruct (file_row_same cs_map (booking_player c) (List.length (heap w)))
             as (l1 & Hl1 & In1).
           destruct (Hmap _ l1 Hl1) as (l2 & Hl2 & I2).
           exists l2. split; [exact Hl2|]. apply I2. exact In1.
        -- intros Z. rewrite Hold by lia.
           rewrite nth_error_app2 by lia. rewrite Nat.sub_diag. simpl.
           rewrite (Hx Z). reflexivity.
      * replace (List.length (heap w) + S i) with (List.length (heap w) + 1 + i) by lia.
        apply Hrows. exact Hc'.
Qed.

End BookingImport.

(** C2, as stated: a booking row whose fees are both zero is excluded
    from the allocation index.  It is not: the import of the single row
    [free_booking], whose two fee cells read as the decimal zero, creates
    no invoice and returns an index whose bucket Jane Doe holds the row. *)
Lemma zero_fee_row_is_indexed :
  fee_is_zero (lib := feed_lib) (Court_Fee free_booking) /\
  fee_is_zero (lib := feed_lib) (Light_Fee free_booking) /\
  EnterBacInvoices (lib := feed_lib) [free_booking] sample_world =
    (skipped_world sample_world free_booking,
     Ok [(NO_NAME_ENTRY, []); ("Jane Doe", [0])]) /\
  nth_error (heap (skipped_world sample_world free_booking)) 0 =
    Some (mkBookingRow free_booking None None).
Proof.
  split; [|split; [|split]].
  - eexists. split; vm_compute; reflexivity.
  - eexists. split; vm_compute; reflexivity.
  - vm_compute. reflexivity.
  - reflexivity.
Qed.

(** C2, amended: for every booking row whose court fee and light fee are
    both zero, the Booking Importer creates no invoice in the ledger (the
    iteration leaves the book as it was, and a run that returns has
    created as many invoices as there are rows with a fee); the row is
    still filed in the bucket of its player name in the allocation index
    returned, without invoice reference and without allocated flag. *)
Theorem zero_fee_rows_import {lib : PyLib} (cs_csv : list BookingCsv)
    (w w' : World) (cs_map : cs_map_t) :
  EnterBacInvoices cs_csv w = (w', Ok cs_map) ->
  (forall i c,
      nth_error cs_csv i = Some c ->
      fee_is_zero (Court_Fee c) -> fee_is_zero (Light_Fee c) ->
      nth_error (heap w') (List.length (heap w) + i) = Some (mkBookingRow c None None) /\
      exists l, cs_get cs_map (booking_player c) = Some l /\
                In (List.length (heap w) + i) l) /\
  List.length (invoices (book w')) =
    List.length (invoices (book w))
    + List.length (filter (fun c => negb (both_zero c)) cs_csv) /\
  (forall (m0 m1 : cs_map_t) (c : BookingCsv) (w0 w1 : World),
      EnterBacInvoices_row m0 c w0 = (w1, Ok m1) ->
      fee_is_zero (Court_Fee c) -> fee_is_zero (Light_Fee c) ->
      book w1 = book w0).
Proof.
  intros H. unfold EnterBacInvoices in H. apply EnterBacInvoices_loop_ok in H.
  destruct H as (_ & _ & _ & Hcount & Hrows).
  split; [|split].
  - intros i c Hc Zc Zl.
    destruct (Hrows i c Hc) as [Hbucket Hrow].
    split; [|exact Hbucket].
    apply Hrow. apply both_zero_iff. split; assumption.
  - exact Hcount.
  - intros m0 m1 c w0 w1 Step Zc Zl.
    apply EnterBacInvoices_row_store in Step.
    destruct Step as (_ & _ & _ & Hbook).
    apply Hbook. apply both_zero_iff. split; assumption.
Qed.

Lemma zero_fee_rows_import_witness :
  nth_error
    (heap (fst (EnterBacInvoices (lib := feed_lib) [jane_booking; free_booking]
                  sample_world))) 1 =
    Some (mkBookingRow free_booking None None) /\
  exists l,
    cs_get [(NO_NAME_ENTRY, []); ("Jane Doe", [0; 1])] (booking_player free_booking)
      = Some l /\ In 1 l.
Proof.
  assert (fee_is_zero (lib := feed_lib) (Court_Fee free_booking)) as Zc.
  { eexists. split; vm_compute; reflexivity. }
  assert (fee_is_zero (lib := feed_lib) (Light_Fee free_booking)) as Zl.
  { eexists. split; vm_compute; reflexivity. }
  exact (proj1 (zero_fee_rows_import (lib := feed_lib) [jane_booking; free_booking]
                  sample_world
                  (fst (EnterBacInvoices (lib := feed_lib) [jane_booking; free_booking]
                          sample_world))
                  [(NO_NAME_ENTRY, []); ("Jane Doe", [0; 1])]
                  ltac:(vm_compute; reflexivity))
           1 free_booking eq_refl Zc Zl).
Defined.

(** ** Exclusive allocation *)

Lemma exclusive_on_nil (invs : list Invoice) : exclusive_on [] invs.
Proof.
  repeat split; intros; destruct r || destruct r1; discriminate.
Qed.

Lemma exclusive_on_app (hp : list BookingRow) (invs extra : list Invoice) :
  exclusive_on hp invs -> exclusive_on hp (invs ++ extra).
Proof.
  intros (A & B & C). split; [|split].
  - intros r x i Hr Hi. rewrite length_app. specialize (A r x i Hr Hi). lia.
  - exact B.
  - intros r x i inv Hr Hi Hinv.
    rewrite nth_error_app1 in Hinv by (eapply A; eassumption).
    eapply C; eassumption.
Qed.

Lemma exclusive_grows (w w' : World) : exclusive w -> grows w w' -> exclusive w'.
Proof.
  unfold exclusive. intros E (Hh & extra & Hi). rewrite Hh, Hi.
  apply exclusive_on_app. exact E.
Qed.

Lemma grows_refl (w : World) : grows w w.
Proof.
  split; [reflexivity|]. exists []. rewrite app_nil_r. reflexivity.
Qed.

Lemma grows_trans (w1 w2 w3 : World) : grows w1 w2 -> grows w2 w3 -> grows w1 w3.
Proof.
  intros (H1 & e1 & I1) (H2 & e2 & I2). split; [congruence|].
  exists (e1 ++ e2). rewrite I2, I1. rewrite app_assoc. reflexivity.
Qed.

Lemma exclusive_on_skipped (hp : list BookingRow) (invs : list Invoice) (c : BookingCsv) :
  exclusive_on hp invs -> exclusive_on (hp ++ [mkBookingRow c None None]) invs.
Proof.
  assert (forall r x i,
             nth_error (hp ++ [mkBookingRow c None None]) r = Some x ->
             row_Invoice x = Some i -> nth_error hp r = Some x) as Old.
  { intros r x i Hr Hi. destruct (Nat.lt_ge_cases r (List.length hp)) as [L|G].
    - rewrite nth_error_app1 in Hr by exact L. exact Hr.
    - rewrite nth_error_app2 in Hr by exact G.
      destruct (r - List.length hp) as [|k]; simpl in Hr.
      + inversion Hr; subst x. discriminate.
      + destruct k; discriminate. }
  intros (A & B & C). split; [|split].
  - intros r x i Hr Hi. eapply A; eauto.
  - intros r1 r2 x1 x2 i H1 H2 I1 I2. eapply B; eauto.
  - intros r x i inv Hr Hi Hinv. eapply C; eauto.
Qed.

Lemma exclusive_on_invoiced (hp : list BookingRow) (invs : list Invoice)
    (c : BookingCsv) (inv0 : Invoice) :
  inv_payments inv0 = [] ->
  exclusive_on hp invs ->
  exclusive_on (hp ++ [mkBookingRow c (Some (List.length invs)) (Some false)])
    (invs ++ [inv0]).
Proof.
  intros P0 (A & B & C).
  assert (forall r x,
             nth_error (hp ++ [mkBookingRow c (Some (List.length invs)) (Some false)]) r
               = Some x ->
             nth_error hp r = Some x \/
             (r = List.length hp /\
              x = mkBookingRow c (Some (List.length invs)) (Some false))) as Cases.
  { intros r x Hr. destruct (Nat.lt_ge_cases r (List.length hp)) as [L|G].
    - rewrite nth_error_app1 in Hr by exact L. left. exact Hr.
    - rewrite nth_error_app2 in Hr by exact G.
      destruct (r - List.length hp) as [|k] eqn:E; simpl in Hr.
      + inversion Hr. right. split; [lia|reflexivity].
      + destruct k; discriminate. }
  split; [|split].
  - intros r x i Hr Hi. rewrite length_app. simpl.
    destruct (Cases r x Hr) as [Old|[-> ->]].
    + specialize (A r x i Old Hi). lia.
    + simpl in Hi. inversion Hi. lia.
  - intros r1 r2 x1 x2 i H1 H2 I1 I2.
    destruct (Cases r1 x1 H1) as [O1|[-> ->]], (Cases r2 x2 H2) as [O2|[-> ->]].
    + eapply B; eauto.
    + simpl in I2. inversion I2; subst i. specialize (A r1 x1 _ O1 I1). lia.
    + simpl in I1. inversion I1; subst i. specialize (A r2 x2 _ O2 I2). lia.
    + reflexivity.
  - intros r x i inv Hr Hi Hinv.
    destruct (Cases r x Hr) as [Old|[-> ->]].
    + rewrite nth_error_app1 in Hinv by (eapply A; eassumption).
      eapply C; eassumption.
    + simpl in Hi. inversion Hi; subst i.
      rewrite nth_error_app2 in Hinv by lia. rewrite Nat.sub_diag in Hinv.
      simpl in Hinv. inversion Hinv; subst inv. rewrite P0. simpl.
      split; [lia|reflexivity].
Qed.

Lemma exclusive_on_allocated (hp : list BookingRow) (invs : list Invoice)
    (r : nat) (x : BookingRow) (i : nat) (p : Payment) :
  exclusive_on hp invs ->
  nth_error hp r = Some x ->
  row_Allocated x = Some false ->
  row_Invoice x = Some i ->
  exclusive_on (upd_nth r set_allocated hp) (upd_nth i (add_payment p) invs).
Proof.
  intros (A & B & C) Hr Hflag Hinv.
  assert (forall r' x',
             nth_error (upd_nth r set_allocated hp) r' = Some x' ->
             exists y, nth_error hp r' = Some y /\ row_Invoice x' = row_Invoice y /\
                       (r' <> r -> x' = y) /\
                       (r' = r -> row_Allocated x' = Some true)) as Back.
  { intros r' x' H'. destruct (Nat.eq_dec r r') as [<-|N].
    - rewrite nth_error_upd_nth_same, Hr in H'. simpl in H'. inversion H'.
      exists x. split; [exact Hr|]. split; [reflexivity|].
      split; [intros N; contradiction|reflexivity].
    - rewrite nth_error_upd_nth_other in H' by exact N.
      exists x'. split; [exact H'|]. split; [reflexivity|].
      split; [reflexivity|]. intros ->. contradiction. }
  split; [|split].
  - intros r' x' j H' Hj. rewrite upd_nth_length.
    destruct (Back r' x' H') as (y & Hy & Ey & _). rewrite Ey in Hj.
    eapply A; eassumption.
  - intros r1 r2 x1 x2 j H1 H2 J1 J2.
    destruct (Back r1 x1 H1) as (y1 & Hy1 & E1 & _).
    destruct (Back r2 x2 H2) as (y2 & Hy2 & E2 & _).
    rewrite E1 in J1. rewrite E2 in J2. eapply B; eassumption.
  - intros r' x' j inv H' Hj Hnth.
    destruct (Back r' x' H') as (y & Hy & Ey & Other & Same). rewrite Ey in Hj.
    destruct (Nat.eq_dec r' r) as [->|N].
    + assert (j = i) as -> by congruence.
      rewrite nth_error_upd_nth_same in Hnth.
      destruct (nth_error invs i) as [inv0|] eqn:E0; [|discriminate].
      simpl in Hnth. inversion Hnth; subst inv.
      destruct (C r x i inv0 Hr Hinv E0) as [_ Empty].
      unfold add_payment. simpl. rewrite (Empty Hflag). simpl.
      split; [lia|]. rewrite (Same eq_refl). discriminate.
    + assert (j <> i) as Nj.
      { intros ->. apply N. eapply B; eassumption. }
      rewrite nth_error_upd_nth_other in Hnth by auto.
      rewrite (Other N). eapply C; eassumption.
Qed.

(** The loop of the court-payment handler either leaves the state as it
    was and allocates nothing, or applies the payment to the invoice of one
    row of the bucket whose total fee is the amount and whose flag is
    unset, records the fee on the transaction, and sets the flag of that
    row. *)
Lemma allocate_loop_outcome (trans : nat) (amount fee net : string) (d : date)
    (l : list nat) :
  forall (pr : option nat) (w w' : World) (res : result (option nat * bool)),
    allocate_loop trans amount fee net d l pr w = (w', res) ->
    (w' = w /\ forall r, res <> Ok (r, true)) \/
    exists r inv,
      In r l /\
      Total_Fee (row_csv (nth r (heap w) empty_row)) = amount /\
      row_Allocated (nth r (heap w) empty_row) = Some false /\
      row_Invoice (nth r (heap w) empty_row) = Some inv /\
      res = Ok (Some r, true) /\
      heap w' = upd_nth r set_allocated (heap w) /\
      invoices (book w') =
        upd_nth inv (add_payment (court_payment_record trans amount d))
          (invoices (book w)) /\
      transactions (book w') =
        (if truthy fee
         then upd_nth trans (fee_posted net fee) (transactions (book w))
         else transactions (book w)) /\
      stdout w' = stdout w.
Proof.
  induction l as [|r l IH]; intros pr w w' res H; simpl in H.
  - inversion H. left. split; [reflexivity|discriminate].
  - unfold bind at 1 in H. unfold get_row at 1 in H.
    unfold bind at 1 in H.
    destruct (String.eqb (Total_Fee (row_csv (nth r (heap w) empty_row))) amount) eqn:Et.
    + unfold bind at 1 in H.
      destruct (row_Allocated (nth r (heap w) empty_row)) as [[|]|] eqn:Ea;
        simpl in H.
      * apply IH in H. destruct H as [H|(r' & inv & Hin & Rest)].
        -- left. exact H.
        -- right. exists r', inv. split; [right; exact Hin|exact Rest].
      * unfold bind at 1 in H.
        destruct (row_Invoice (nth r (heap w) empty_row)) as [inv|] eqn:Ei; simpl in H.
        -- right. exists r, inv. apply String.eqb_eq in Et.
           split; [left; reflexivity|]. split; [exact Et|]. split; [exact Ea|].
           split; [exact Ei|].
           destruct w as [[invs txs custs ic cc] hp out].
           unfold RecordStripeFee in H. destruct (truthy fee);
             revert H; ledger_run; intros H; inversion H;
             rewrite ?upd_nth_upd_nth; repeat split.
        -- inversion H. left. split; [reflexivity|discriminate].
      * inversion H. left. split; [reflexivity|discriminate].
    + simpl in H.
      apply IH in H. destruct H as [H|(r' & inv & Hin & Rest)].
      * left. exact H.
      * right. exists r', inv. split; [right; exact Hin|exact Rest].
Qed.

(** When no row of the bucket has the amount as total fee with its flag
    unset (and every row of matching fee has a flag), the loop allocates
    nothing and leaves the state as it was. *)
Lemma allocate_loop_unresolved (trans : nat) (amount fee net : string) (d : date)
    (l : list nat) :
  forall (pr : option nat) (w : World),
    (forall r, In r l ->
       String.eqb (Total_Fee (row_csv (nth r (heap w) empty_row))) amount = false \/
       row_Allocated (nth r (heap w) empty_row) = Some true) ->
    allocate_loop trans amount fee net d l pr w = (w, Ok (last_row l pr, false)).
Proof.
  induction l as [|r l IH]; intros pr w H; simpl.
  - reflexivity.
  - unfold bind at 1. unfold get_row at 1. unfold bind at 1.
    destruct (H r (or_introl eq_refl)) as [E|E].
    + rewrite E. simpl. apply IH. intros x Hx. apply H. right. exact Hx.
    + rewrite E.
      destruct (String.eqb (Total_Fee (row_csv (nth r (heap w) empty_row))) amount);
        simpl; apply IH; intros x Hx; apply H; right; exact Hx.
Qed.

(** With a bucket bound to [player_list] and no unallocated row of
    matching fee in it, the court-payment handler creates the payment
    transaction, prints the diagnostic and returns. *)
Lemma court_payment_unresolved (loc : Locals)
    (player_name amount fee net description : string) (d : date) (w : World)
    (l : list nat) (r : nat) :
  player_list loc = Some l ->
  last_row l (player_row loc) = Some r ->
  (forall x, In x l ->
     String.eqb (Total_Fee (row_csv (nth x (heap w) empty_row))) amount = false \/
     row_Allocated (nth x (heap w) empty_row) = Some true) ->
  court_payment loc player_name amount fee net description d w =
    (mkWorld
       (set_transactions (book w)
          (transactions (book w) ++ [payment_transaction amount description d]))
       (heap w)
       (stdout w
        ++ [unresolved_message (Total_Fee (row_csv (nth r (heap w) empty_row)))
              player_name]),
     Ok (mkLocals (Some l) (Some r))).
Proof.
  intros Hl Hr Hno. unfold court_payment. unfold bind at 1.
  rewrite MakeStripePayment_run. rewrite Hl. unfold bind at 1. simpl or_raise.
  unfold ret at 1. unfold bind at 1.
  rewrite allocate_loop_unresolved by exact Hno.
  rewrite Hr. reflexivity.
Qed.

Lemma flagged_row_in_store (hp : list BookingRow) (r : nat) (b : bool) :
  row_Allocated (nth r hp empty_row) = Some b ->
  nth_error hp r = Some (nth r hp empty_row).
Proof.
  intros H. destruct (Nat.lt_ge_cases r (List.length hp)) as [L|G].
  - apply nth_error_nth'. exact L.
  - rewrite nth_overflow in H by exact G. discriminate H.
Qed.

(** The court-payment handler either leaves the booking rows and the
    invoices as they were, or applies its payment to one unallocated row
    of the bucket bound to [player_list] whose total fee is the amount. *)
Lemma court_payment_outcome (loc : Locals) (player_name amount fee net description : string)
    (d : date) (w w' : World) (res : result Locals) :
  court_payment loc player_name amount fee net description d w = (w', res) ->
  (heap w' = heap w /\ invoices (book w') = invoices (book w)) \/
  exists l r inv,
    player_list loc = Some l /\ In r l /\
    Total_Fee (row_csv (nth r (heap w) empty_row)) = amount /\
    row_Allocated (nth r (heap w) empty_row) = Some false /\
    row_Invoice (nth r (heap w) empty_row) = Some inv /\
    heap w' = upd_nth r set_allocated (heap w) /\
    invoices (book w') =
      upd_nth inv
        (add_payment (court_payment_record (List.length (transactions (book w))) amount d))
        (invoices (book w)).
Proof.
  unfold court_payment. unfold bind at 1. rewrite MakeStripePayment_run.
  unfold bind at 1.
  destruct (player_list loc) as [l|]; simpl.
  - unfold bind at 1.
    match goal with
    | |- context [allocate_loop ?t ?a ?f ?n ?dd ?ll ?pr ?ww] =>
        destruct (allocate_loop t a f n dd ll pr ww) as [w2 res0] eqn:Loop
    end.
    apply allocate_loop_outcome in Loop.
    destruct Loop as [[-> _]|(r & inv & Hin & Ht & Ha & Hi & -> & Hheap & Hinvs & _)].
    + intros H. left.
      destruct res0 as [[prow allocated]|e]; [|inversion H; split; reflexivity].
      destruct allocated; simpl in H; [inversion H; split; reflexivity|].
      destruct prow as [r|]; simpl in H; [|inversion H; split; reflexivity].
      unfold bind, get_row, print, ret in H. simpl in H.
      inversion H. split; reflexivity.
    + simpl. intros H. inversion H; subst. right.
      exists l, r, inv. simpl in *. repeat split; assumption.
  - intros H. inversion H. left. split; reflexivity.
Qed.

Lemma court_payment_exclusive (loc : Locals)
    (player_name amount fee net description : string)
    (d : date) (w w' : World) (res : result Locals) :
  exclusive w ->
  court_payment loc player_name amount fee net description d w = (w', res) ->
  exclusive w'.
Proof.
  intros E H. apply court_payment_outcome in H. unfold exclusive in *.
  destruct H as [[-> ->]|(l & r & inv & _ & _ & _ & Ha & Hi & -> & ->)].
  - exact E.
  - eapply exclusive_on_allocated; try eassumption.
    eapply flagged_row_in_store. exact Ha.
Qed.

Lemma grows_with_transactions (w : World) (l : list Transaction) :
  grows w (with_book w (set_transactions (book w) l)).
Proof.
  split; [reflexivity|]. exists []. simpl. rewrite app_nil_r. reflexivity.
Qed.

Lemma DoStripeTransfer_grows (amount : string) (d : date) (w w' : World)
    (res : result unit) :
  DoStripeTransfer amount d w = (w', res) -> grows w w'.
Proof.
  rewrite DoStripeTransfer_run. intros H. inversion H. apply grows_with_transactions.
Qed.

Lemma plain_refund_grows (refund_item amount : string) (d : date) (w w' : World)
    (res : result unit) :
  plain_refund refund_item amount d w = (w', res) -> grows w w'.
Proof.
  rewrite plain_refund_run. intros H. inversion H. apply grows_with_transactions.
Qed.

Lemma CreateInvoiceAndPayment_run (customer : nat) (acct : account)
    (amount fee net description : string) (d : date) (w : World) :
  CreateInvoiceAndPayment customer acct amount fee net description d w =
    (invoiced_customer_world w customer acct amount fee net description d, Ok tt).
Proof.
  destruct w as [[invs txs custs ic cc] hp out].
  unfold CreateInvoiceAndPayment, MakeStripePayment, RecordStripeFee,
    invoiced_customer_world, customer_invoice, customer_payment_transaction,
    payment_transaction, fee_posted.
  destruct (truthy fee); ledger_run;
    rewrite ?upd_nth_app_length; cbn; rewrite ?upd_nth_app_length; reflexivity.
Qed.

Lemma GetCustomer_grows (name email : string) (w w' : World) (res : result nat) :
  GetCustomer name email w = (w', res) -> grows w w'.
Proof.
  unfold GetCustomer, bind, get_book, CustomerNextID, ret.
  destruct (find_index (fun c => String.eqb (cust_name c) name) (customers (book w)) 0);
    intros H; inversion H.
  - apply grows_refl.
  - split; [reflexivity|]. exists []. simpl. rewrite app_nil_r. reflexivity.
Qed.

Lemma CreateInvoiceAndPayment_grows (customer : nat) (acct : account)
    (amount fee net description : string) (d : date) (w w' : World) (res : result unit) :
  CreateInvoiceAndPayment customer acct amount fee net description d w = (w', res) ->
  grows w w'.
Proof.
  rewrite CreateInvoiceAndPayment_run. intros H. inversion H.
  split; [reflexivity|]. eexists. reflexivity.
Qed.

Section Handlers.

Context {lib : PyLib}.

Lemma refund_scan_bucket_world (bd : datetime) (amount : string) (l : list nat) :
  forall (fees : option string * option string) (w w' : World)
         (res : result (option string * option string)),
    refund_scan_bucket bd amount l fees w = (w', res) -> w' = w.
Proof.
  induction l as [|r l IH]; intros fees w w' res H; simpl in H.
  - inversion H. reflexivity.
  - unfold bind at 1 in H. unfold get_row at 1 in H. unfold bind at 1 in H.
    destruct (datetime_strptime _ booking_format) as [t|]; simpl in H.
    + destruct (datetime_eqb t bd && _)%bool; eapply IH; exact H.
    + inversion H. reflexivity.
Qed.

Lemma refund_scan_world (bd : datetime) (amount : string) (cs_map : cs_map_t) :
  forall (fees : option string * option string) (w w' : World)
         (res : result (option string * option string)),
    refund_scan bd amount cs_map fees w = (w', res) -> w' = w.
Proof.
  induction cs_map as [|[key l] rest IH]; intros fees w w' res H; simpl in H.
  - inversion H. reflexivity.
  - unfold bind in H.
    destruct (refund_scan_bucket bd amount l fees w) as [w1 [fees'|e]] eqn:B.
    + apply refund_scan_bucket_world in B. subst w1. eapply IH. exact H.
    + apply refund_scan_bucket_world in B. inversion H. congruence.
Qed.

Lemma court_refund_grows (cs_map : cs_map_t) (refund_detail amount fee net : string)
    (d : date) (w w' : World) (res : result unit) :
  court_refund cs_map refund_detail amount fee net d w = (w', res) -> grows w w'.
Proof.
  destruct (match datetime_strptime refund_detail refund_format with
            | Some bd => refund_scan bd amount cs_map (None, None)
            | None => ret (None, None)
            end w) as [w1 r1] eqn:Scan.
  assert (w1 = w) as ->.
  { destruct (datetime_strptime refund_detail refund_format).
    - eapply refund_scan_world. exact Scan.
    - inversion Scan. reflexivity. }
  destruct r1 as [fees|e].
  - rewrite (court_refund_run _ _ _ _ _ _ _ _ Scan). intros H. inversion H.
    split; [reflexivity|]. eexists. reflexivity.
  - unfold court_refund. unfold bind at 1. rewrite Scan. intros H. inversion H.
    apply grows_refl.
Qed.

Lemma membership_payment_grows (membership_detail amount fee net description : string)
    (d : date) (w w' : World) (res : result unit) :
  membership_payment membership_detail amount fee net description d w = (w', res) ->
  grows w w'.
Proof.
  unfold membership_payment, bind.
  match goal with
  | |- context [GetCustomer ?n ?e w] =>
      destruct (GetCustomer n e w) as [w1 [c|e1]] eqn:G
  end; apply GetCustomer_grows in G.
  - intros H. apply CreateInvoiceAndPayment_grows in H. eapply grows_trans; eassumption.
  - intros H. inversion H. subst. exact G.
Qed.

Lemma event_payment_grows (row : StripeRow) (player_name email_address amount fee net : string)
    (d : date) (w w' : World) (res : result unit) :
  event_payment row player_name email_address amount fee net d w = (w', res) ->
  grows w w'.
Proof.
  unfold event_payment, bind.
  match goal with
  | |- context [GetCustomer ?n ?e w] =>
      destruct (GetCustomer n e w) as [w1 [c|e1]] eqn:G
  end; apply GetCustomer_grows in G.
  - intros H. apply CreateInvoiceAndPayment_grows in H. eapply grows_trans; eassumption.
  - intros H. inversion H. subst. exact G.
Qed.

Lemma then_ret_world {A B : Type} (m : M A) (b : B) (w w' : World) (res : result B) :
  (m ;; ret b) w = (w', res) -> exists r, m w = (w', r).
Proof.
  unfold bind, ret. destruct (m w) as [w1 [a|e]]; intros H; inversion H; eauto.
Qed.

(** One settlement row keeps the allocation exclusive, whatever its
    outcome. *)
Lemma ProcessStripePayments_row_exclusive (cs_map : cs_map_t) (loc : Locals)
    (row : StripeRow) (w w' : World) (res : result Locals) :
  exclusive w ->
  ProcessStripePayments_row cs_map loc row w = (w', res) ->
  exclusive w'.
Proof.
  intros E. unfold ProcessStripePayments_row. fold (rebind cs_map loc row).
  generalize (rebind cs_map loc row). intros loc1.
  unfold bind at 1.
  destruct (date_fromisoformat (split_space_0 (Available_On row))) as [d|]; simpl;
    [|intros H; inversion H; subst; exact E].
  destruct (String.eqb (Description row) COURT_BOOKING).
  { apply court_payment_exclusive. exact E. }
  destruct (String.eqb (Type_ row) "payout").
  { intros H. apply then_ret_world in H. destruct H as [r H].
    apply DoStripeTransfer_grows in H. eapply exclusive_grows; eassumption. }
  destruct (startswith (Description row) REFUND_PREFIX).
  { destruct (String.eqb (re_sub false refund_pattern 1 (Description row)) COURT_BOOKING);
      intros H; apply then_ret_world in H; destruct H as [r H].
    - apply court_refund_grows in H. eapply exclusive_grows; eassumption.
    - apply plain_refund_grows in H. eapply exclusive_grows; eassumption. }
  destruct (startswith (Description row) MEMBERSHIP_PREFIX).
  { intros H. apply then_ret_world in H. destruct H as [r H].
    apply membership_payment_grows in H. eapply exclusive_grows; eassumption. }
  destruct (startswith (Description row) EVENT_PREFIX).
  { intros H. apply then_ret_world in H. destruct H as [r H].
    apply event_payment_grows in H. eapply exclusive_grows; eassumption. }
  intros H. inversion H. subst. exact E.
Qed.

Lemma ProcessStripePayments_loop_exclusive (cs_map : cs_map_t) (stripe_csv : list StripeRow) :
  forall (loc : Locals) (w w' : World) (res : result Locals),
    exclusive w ->
    ProcessStripePayments_loop cs_map stripe_csv loc w = (w', res) ->
    exclusive w'.
Proof.
  induction stripe_csv as [|row rest IH]; intros loc w w' res E H; simpl in H.
  - inversion H. subst. exact E.
  - unfold bind in H.
    destruct (ProcessStripePayments_row cs_map loc row w) as [w1 [loc1|e]] eqn:Step;
      apply ProcessStripePayments_row_exclusive in Step; try exact E.
    + eapply IH; eassumption.
    + inversion H. subst. exact Step.
Qed.

Lemma EnterBacInvoices_loop_exclusive (cs_csv : list BookingCsv) :
  forall (cs_map cs_map' : cs_map_t) (w w' : World),
    exclusive w ->
    EnterBacInvoices_loop cs_csv cs_map w = (w', Ok cs_map') ->
    exclusive w'.
Proof.
  induction cs_csv as [|c rest IH]; intros cs_map cs_map' w w' E H; simpl in H.
  - inversion H. subst. exact E.
  - unfold bind in H.
    destruct (EnterBacInvoices_row cs_map c w) as [w1 [cs_map1|e]] eqn:Step;
      [|discriminate].
    apply EnterBacInvoices_row_ok in Step.
    eapply IH; [|exact H].
    destruct Step as [_ [[_ ->]|[_ (d & entries & _ & ->)]]]; unfold exclusive in *; simpl.
    + apply exclusive_on_skipped. exact E.
    + apply exclusive_on_invoiced; [reflexivity|exact E].
Qed.

End Handlers.

(** C1: allocation is exclusive.  For every run of the reconciler over
    any settlement rows and the allocation index the importer returned,
    whatever the outcome of the run, the invoice of every booking row has
    at most one payment applied.  The court-payment handler applies its
    payment only to the invoice of a row of the bucket bound to
    [player_list] whose total fee equals the amount and whose allocated
    flag is false, and that row's flag is true afterwards; otherwise it
    leaves the payments of every invoice as they were. *)
Theorem allocation_is_exclusive {lib : PyLib} (cs_csv : list BookingCsv)
    (stripe_csv : list StripeRow) (b0 : Book) (out0 : list string)
    (w1 w2 : World) (cs_map : cs_map_t) (res : result unit) :
  EnterBacInvoices cs_csv (mkWorld b0 [] out0) = (w1, Ok cs_map) ->
  ProcessStripePayments stripe_csv cs_map w1 = (w2, res) ->
  (forall r x i,
      nth_error (heap w2) r = Some x -> row_Invoice x = Some i ->
      List.length (payments_of w2 i) <= 1) /\
  (forall (loc : Locals) (player_name amount fee net description : string) (d : date)
          (w w' : World) (res' : result Locals),
      court_payment loc player_name amount fee net description d w = (w', res') ->
      (forall i, payments_of w' i = payments_of w i) \/
      exists l r inv,
        player_list loc = Some l /\ In r l /\
        Total_Fee (row_csv (nth r (heap w) empty_row)) = amount /\
        row_Allocated (nth r (heap w) empty_row) = Some false /\
        row_Invoice (nth r (heap w) empty_row) = Some inv /\
        row_Allocated (nth r (heap w') empty_row) = Some true /\
        invoices (book w') =
          upd_nth inv
            (add_payment
               (court_payment_record (List.length (transactions (book w))) amount d))
            (invoices (book w))).
Proof.
  intros Himport Hrun. split.
  - assert (exclusive w2) as (A & _ & C).
    { unfold ProcessStripePayments in Hrun. apply then_ret_world in Hrun.
      destruct Hrun as [r Hrun].
      eapply ProcessStripePayments_loop_exclusive; [|exact Hrun].
      unfold EnterBacInvoices in Himport.
      eapply EnterBacInvoices_loop_exclusive; [|exact Himport].
      apply exclusive_on_nil. }
    intros r x i Hr Hi. unfold payments_of.
    destruct (nth_error (invoices (book w2)) i) as [inv|] eqn:E; [|simpl; lia].
    exact (proj1 (C r x i inv Hr Hi E)).
  - intros loc player_name amount fee net description d w w' res' H.
    apply court_payment_outcome in H.
    destruct H as [[_ Hinv]|(l & r & inv & Hl & Hin & Ht & Ha & Hi & Hheap & Hinv)].
    + left. intros i. unfold payments_of. rewrite Hinv. reflexivity.
    + right. exists l, r, inv. repeat split; try assumption.
      rewrite Hheap. rewrite nth_upd_nth_same; [reflexivity|].
      apply flagged_row_in_store in Ha.
      apply nth_error_Some. rewrite Ha. discriminate.
Qed.

Lemma allocation_is_exclusive_witness :
  List.length
    (payments_of
       (fst (main (lib := feed_lib) [jane_booking]
               [court_payment_row "Jane" "Doe"; court_payment_row "Jane" "Doe"]
               sample_world)) 0) <= 1.
Proof.
  apply (proj1 (allocation_is_exclusive (lib := feed_lib) [jane_booking]
                  [court_payment_row "Jane" "Doe"; court_payment_row "Jane" "Doe"]
                  sample_book [] imported_world
                  (fst (main (lib := feed_lib) [jane_booking]
                          [court_payment_row "Jane" "Doe"; court_payment_row "Jane" "Doe"]
                          sample_world))
                  imported_map (Ok tt)
                  ltac:(vm_compute; reflexivity) ltac:(vm_compute; reflexivity))
           0 (mkBookingRow jane_booking (Some 0) (Some true)) 0).
  - vm_compute. reflexivity.
  - reflexivity.
Defined.

(** ** The processor fee on applied payments *)

(** C9, amended: the processor fee is attached as a posting against the
    fee expense account exactly when the fee cell is not empty: then every
    split of the transaction on the Stripe Account is valued at the net
    amount and a split on Expenses, Stripe Fee valued at the fee is
    appended; when the fee cell is empty nothing is created and the
    transaction, like the rest of the state, is left unchanged.  This is
    what happens to the payment transaction of a membership or event
    payment, and to that of a court payment once it is allocated. *)
Theorem RecordStripeFee_posting (trans : nat) (net fee : string) (w : World) :
  (fee = "" -> RecordStripeFee trans net fee w = (w, Ok tt)) /\
  (fee <> "" ->
   RecordStripeFee trans net fee w =
     (with_transactions w (upd_nth trans (fee_posted net fee) (transactions (book w))),
      Ok tt)) /\
  (forall (customer : nat) (acct : account) (amount description : string) (d : date),
      CreateInvoiceAndPayment customer acct amount fee net description d w =
        (invoiced_customer_world w customer acct amount fee net description d, Ok tt)) /\
  (forall (amount : string) (d : date) (l : list nat) (pr r : option nat) (w' : World),
      allocate_loop trans amount fee net d l pr w = (w', Ok (r, true)) ->
      transactions (book w') =
        (if truthy fee
         then upd_nth trans (fee_posted net fee) (transactions (book w))
         else transactions (book w))).
Proof.
  split; [|split; [|split]].
  - intros H. unfold RecordStripeFee. apply truthy_false in H. rewrite H. reflexivity.
  - intros H. unfold RecordStripeFee. apply truthy_true in H. rewrite H. simpl.
    unfold bind, modify_trans, Split_new, modify_trans, modify_book, with_transactions.
    simpl. rewrite upd_nth_upd_nth. reflexivity.
  - intros customer acct amount description d. apply CreateInvoiceAndPayment_run.
  - intros amount d l pr r w' H. apply allocate_loop_outcome in H.
    destruct H as [[_ N]|(r' & inv & _ & _ & _ & _ & _ & _ & _ & T & _)].
    + exfalso. exact (N r eq_refl).
    + exact T.
Qed.

Lemma RecordStripeFee_posting_witness :
  "1.20" <> "" /\
  RecordStripeFee 0 "23.80" "1.20" one_payment_world =
    (with_transactions one_payment_world
       (upd_nth 0 (fee_posted "23.80" "1.20") (transactions (book one_payment_world))),
     Ok tt) /\
  RecordStripeFee 0 "25.00" "" one_payment_world = (one_payment_world, Ok tt) /\
  transactions
    (book (fst (allocate_loop 0 "25.00" "1.20" "23.80" (mkDate 2021 10 20) [0] None
                  paying_world))) =
    (if truthy "1.20"
     then upd_nth 0 (fee_posted "23.80" "1.20") (transactions (book paying_world))
     else transactions (book paying_world)).
Proof.
  assert ("1.20" <> "") as H by discriminate.
  split; [exact H|]. split; [|split].
  - exact (proj1 (proj2 (RecordStripeFee_posting 0 "23.80" "1.20" one_payment_world)) H).
  - exact (proj1 (RecordStripeFee_posting 0 "25.00" "" one_payment_world) eq_refl).
  - exact (proj2 (proj2 (proj2 (RecordStripeFee_posting 0 "23.80" "1.20" paying_world)))
             "25.00" (mkDate 2021 10 20) [0] None (Some 0)
             (fst (allocate_loop 0 "25.00" "1.20" "23.80" (mkDate 2021 10 20) [0] None
                     paying_world))
             ltac:(vm_compute; reflexivity)).
Defined.

(** * Further properties of the script *)

(** ** The import of one booking row *)

Section ImportRow.

Context {lib : PyLib}.

Lemma EnterBacInvoices_row_enter (cs_map : cs_map_t) (c : BookingCsv) (w : World) :
  EnterBacInvoices_row cs_map c w =
    (txn_date <- or_raise ValueError (date_fromisoformat (Booked_Date c)) ;;
     court_hire <- or_raise InvalidOperation (Decimal (Court_Fee c)) ;;
     light_hire <- or_raise InvalidOperation (Decimal (Light_Fee c)) ;;
     court_zero <- or_raise InvalidOperation (dec_eq0 court_hire) ;;
     light_zero <- or_raise InvalidOperation (dec_eq0 light_hire) ;;
     if court_zero && light_zero
     then ret (file_row cs_map (booking_player c) (List.length (heap w)))
     else
       book_a_court <- GetBookACourtCustomer ;;
       invoice_id <- InvoiceNextID book_a_court ;;
       invoice <- Invoice_new invoice_id AUD book_a_court (Some txn_date) ;;
       court_pos <- or_raise InvalidOperation (dec_gt0 court_hire) ;;
       when court_pos
         (Entry_new invoice txn_date "Court Hire" (GncNumericInt 1)
            (GncNumeric (Court_Fee c)) GetCourtHireAcct) ;;
       light_pos <- or_raise InvalidOperation (dec_gt0 light_hire) ;;
       when light_pos
         (Entry_new invoice txn_date "Light Hire" (GncNumericInt 1)
            (GncNumeric (Light_Fee c)) GetLightHireAcct) ;;
       PostToAccount invoice GetReceivablesAcct txn_date txn_date "" true false ;;
       modify_row (List.length (heap w))
         (fun r => mkBookingRow (row_csv r) (Some invoice) (Some false)) ;;
       ret (file_row cs_map (booking_player c) (List.length (heap w))))
    (skipped_world w c).
Proof.
  unfold EnterBacInvoices_row. cbv zeta. fold (booking_player c).
  rewrite truthy_booking_player.
  unfold bind at 1. unfold new_row at 1.
  rewrite file_row_ret. fold (skipped_world w c).
  unfold bind at 1. unfold ret at 1. reflexivity.
Qed.

(** X1: a booking row with a fee gets exactly one invoice, owned by the
    booking-agent customer and dated at the booked date, with a court-hire
    line item priced at the court fee cell when the court fee is
    positive, then a light-hire line item priced at the light fee cell
    when the light fee is positive; the invoice is posted to receivables
    with the booked date as posting and due date and automatic payment
    off, carries no payment, and the row is filed under its player with
    that invoice and the flag unset. *)
Theorem EnterBacInvoices_row_with_fee (cs_map : cs_map_t) (c : BookingCsv) (w : World)
    (d : date) (court_hire light_hire : decimal) (court_zero light_zero : bool)
    (court_pos light_pos : bool) :
  date_fromisoformat (Booked_Date c) = Some d ->
  Decimal (Court_Fee c) = Some court_hire ->
  Decimal (Light_Fee c) = Some light_hire ->
  dec_eq0 court_hire = Some court_zero ->
  dec_eq0 light_hire = Some light_zero ->
  court_zero && light_zero = false ->
  dec_gt0 court_hire = Some court_pos ->
  dec_gt0 light_hire = Some light_pos ->
  EnterBacInvoices_row cs_map c w =
    (invoiced_world w c d (booking_entries d c court_pos light_pos),
     Ok (file_row cs_map (booking_player c) (List.length (heap w)))).
Proof.
  intros Hd Hc Hl Zc Zl Z Pc Pl. rewrite EnterBacInvoices_row_enter.
  rewrite Hd, Hc, Hl.
  destruct w as [[invs txs custs ic cc] hp out].
  unfold invoiced_world, booking_invoice, booking_entries, skipped_world.
  ledger_run. rewrite Zc, Zl, Z, Pc, Pl.
  destruct court_pos, light_pos; ledger_run;
    rewrite ?upd_nth_app_length; cbn; rewrite ?upd_nth_app_length; reflexivity.
Qed.

(** X2: the errors of one import iteration.  A booked date that does not
    parse raises [ValueError], and a fee cell that does not parse raises
    [InvalidOperation]; in both cases the row object is in the store and
    the book is as it was.  A fee that parses to a value without order
    (a NaN) raises [InvalidOperation] only at the test for a positive fee,
    after the invoice was created: the invoice stays in the book,
    unposted. *)
Theorem EnterBacInvoices_row_errors (cs_map : cs_map_t) (c : BookingCsv) (w : World) :
  (date_fromisoformat (Booked_Date c) = None ->
   EnterBacInvoices_row cs_map c w = (skipped_world w c, Raise ValueError)) /\
  (forall d,
      date_fromisoformat (Booked_Date c) = Some d ->
      Decimal (Court_Fee c) = None \/
      (Decimal (Court_Fee c) <> None /\ Decimal (Light_Fee c) = None) ->
      EnterBacInvoices_row cs_map c w = (skipped_world w c, Raise InvalidOperation)) /\
  (forall d light_hire,
      date_fromisoformat (Booked_Date c) = Some d ->
      Decimal (Court_Fee c) = Some (DecNaN false) ->
      Decimal (Light_Fee c) = Some light_hire ->
      dec_eq0 light_hire <> None ->
      EnterBacInvoices_row cs_map c w = (unposted_world w c d [], Raise InvalidOperation)).
Proof.
  split; [|split].
  - intros Hd. rewrite EnterBacInvoices_row_enter. rewrite Hd. reflexivity.
  - intros d Hd [Hc|[Hc Hl]]; rewrite EnterBacInvoices_row_enter; rewrite Hd.
    + rewrite Hc. reflexivity.
    + destruct (Decimal (Court_Fee c)); [|contradiction]. rewrite Hl. reflexivity.
  - intros d light_hire Hd Hc Hl Zl. rewrite EnterBacInvoices_row_enter.
    rewrite Hd, Hc, Hl.
    destruct (dec_eq0 light_hire) as [light_zero|] eqn:E; [|contradiction].
    destruct w as [[invs txs custs ic cc] hp out].
    unfold unposted_world, skipped_world. ledger_run. rewrite E. ledger_run.
    reflexivity.
Qed.

End ImportRow.

Lemma EnterBacInvoices_row_with_fee_witness :
  EnterBacInvoices_row (lib := feed_lib) [(NO_NAME_ENTRY, [])] jane_booking sample_world =
    (invoiced_world sample_world jane_booking (mkDate 2021 10 17)
       (booking_entries (mkDate 2021 10 17) jane_booking true true),
     Ok [(NO_NAME_ENTRY, []); ("Jane Doe", [0])]).
Proof.
  exact (EnterBacInvoices_row_with_fee (lib := feed_lib) [(NO_NAME_ENTRY, [])]
           jane_booking sample_world (mkDate 2021 10 17)
           (DecFinite false 2000 (-2)) (DecFinite false 500 (-2)) false false true true
           eq_refl eq_refl eq_refl eq_refl eq_refl eq_refl eq_refl eq_refl).
Defined.

Lemma EnterBacInvoices_row_errors_witness :
  EnterBacInvoices_row (lib := feed_lib) [(NO_NAME_ENTRY, [])]
    (mkBookingCsv "Jane" "Doe" "17/10/2021" "20.00" "5.00" "25.00" "" "") sample_world =
    (skipped_world sample_world
       (mkBookingCsv "Jane" "Doe" "17/10/2021" "20.00" "5.00" "25.00" "" ""),
     Raise ValueError) /\
  EnterBacInvoices_row (lib := feed_lib) [(NO_NAME_ENTRY, [])]
    (mkBookingCsv "Jane" "Doe" "2021-10-17" "free" "5.00" "25.00" "" "") sample_world =
    (skipped_world sample_world
       (mkBookingCsv "Jane" "Doe" "2021-10-17" "free" "5.00" "25.00" "" ""),
     Raise InvalidOperation) /\
  EnterBacInvoices_row (lib := nan_lib) [(NO_NAME_ENTRY, [])]
    (mkBookingCsv "Jane" "Doe" "2021-10-17" "NaN" "5.00" "25.00" "" "") sample_world =
    (unposted_world sample_world
       (mkBookingCsv "Jane" "Doe" "2021-10-17" "NaN" "5.00" "25.00" "" "")
       (mkDate 2021 10 17) [],
     Raise InvalidOperation).
Proof.
  split; [|split].
  - exact (proj1 (EnterBacInvoices_row_errors (lib := feed_lib) [(NO_NAME_ENTRY, [])]
                    (mkBookingCsv "Jane" "Doe" "17/10/2021" "20.00" "5.00" "25.00" "" "")
                    sample_world) eq_refl).
  - exact (proj1 (proj2 (EnterBacInvoices_row_errors (lib := feed_lib)
                    [(NO_NAME_ENTRY, [])]
                    (mkBookingCsv "Jane" "Doe" "2021-10-17" "free" "5.00" "25.00" "" "")
                    sample_world)) (mkDate 2021 10 17) eq_refl (or_introl eq_refl)).
  - exact (proj2 (proj2 (EnterBacInvoices_row_errors (lib := nan_lib)
                    [(NO_NAME_ENTRY, [])]
                    (mkBookingCsv "Jane" "Doe" "2021-10-17" "NaN" "5.00" "25.00" "" "")
                    sample_world)) (mkDate 2021 10 17) (DecFinite false 500 (-2))
             eq_refl eq_refl eq_refl ltac:(discriminate)).
Defined.

(** ** The allocation index of the importer *)

Lemma has_space_player_name (a b : string) : has_space (a ++ " " ++ b) = true.
Proof.
  induction a as [|c a IH]; simpl in *.
  - reflexivity.
  - rewrite IH. apply orb_true_r.
Qed.

Lemma booking_player_not_sentinel (c : BookingCsv) : booking_player c <> NO_NAME_ENTRY.
Proof.
  intros H. pose proof (has_space_player_name (Player_First_Name c) (Player_Last_Name c)) as S.
  unfold booking_player in H. rewrite H in S. vm_compute in S. discriminate S.
Qed.

Lemma all_rows_app (m1 m2 : cs_map_t) : all_rows (m1 ++ m2) = all_rows m1 ++ all_rows m2.
Proof.
  unfold all_rows. rewrite map_app, concat_app. reflexivity.
Qed.

Lemma all_rows_cs_append (cs_map : cs_map_t) (key : string) (r : nat) (l : list nat) :
  cs_get cs_map key = Some l ->
  Permutation (all_rows (cs_append cs_map key r)) (r :: all_rows cs_map).
Proof.
  revert l. induction cs_map as [|[k l0] rest IH]; intros l H; simpl in *.
  - discriminate.
  - destruct (String.eqb k key).
    + unfold all_rows. simpl. fold (all_rows rest).
      rewrite <- app_assoc. simpl.
      apply Permutation_sym. apply Permutation_middle.
    + unfold all_rows. simpl. fold (all_rows rest) (all_rows (cs_append rest key r)).
      eapply Permutation_trans; [apply Permutation_app_head; eapply IH; exact H|].
      apply Permutation_sym. apply Permutation_middle.
Qed.

Lemma all_rows_file_row (cs_map : cs_map_t) (key : string) (r : nat) :
  Permutation (all_rows (file_row cs_map key r)) (r :: all_rows cs_map).
Proof.
  unfold file_row. destruct (cs_get cs_map key) as [l|] eqn:E.
  - eapply all_rows_cs_append. exact E.
  - unfold cs_new. rewrite all_rows_app. unfold all_rows at 2. simpl.
    apply Permutation_sym. apply Permutation_cons_append.
Qed.

Lemma file_row_other (cs_map : cs_map_t) (key key' : string) (r : nat) :
  key <> key' -> cs_get (file_row cs_map key r) key' = cs_get cs_map key'.
Proof.
  intros N. apply String.eqb_neq in N. unfold file_row.
  destruct (cs_get cs_map key).
  - rewrite cs_get_append, N. reflexivity.
  - rewrite cs_get_new, N. destruct (cs_get cs_map key'); reflexivity.
Qed.

Section Index.

Context {lib : PyLib}.

Lemma EnterBacInvoices_row_imported (cs_map cs_map' : cs_map_t) (c : BookingCsv)
    (w w' : World) :
  EnterBacInvoices_row cs_map c w = (w', Ok cs_map') ->
  exists x, heap w' = heap w ++ [x] /\ imported_row c x.
Proof.
  intros H. apply EnterBacInvoices_row_ok in H.
  destruct H as [_ [[Z ->]|[Z (d & entries & _ & ->)]]]; simpl;
    eexists; (split; [reflexivity|]); (split; [reflexivity|]).
  - left. auto.
  - right. split; [exact Z|]. split; [eexists|]; reflexivity.
Qed.

Lemma EnterBacInvoices_loop_index (cs_csv : list BookingCsv) :
  forall (cs_map cs_map' : cs_map_t) (w w' : World),
    EnterBacInvoices_loop cs_csv cs_map w = (w', Ok cs_map') ->
    Permutation (all_rows cs_map')
      (all_rows cs_map ++ seq (List.length (heap w)) (List.length cs_csv)) /\
    cs_get cs_map' NO_NAME_ENTRY = cs_get cs_map NO_NAME_ENTRY /\
    (forall i c, nth_error cs_csv i = Some c ->
       exists x, nth_error (heap w') (List.length (heap w) + i) = Some x /\
                 imported_row c x).
Proof.
  induction cs_csv as [|c rest IH]; intros cs_map cs_map' w w' H.
  - simpl in H. inversion H; subst. simpl. rewrite app_nil_r.
    split; [apply Permutation_refl|]. split; [reflexivity|].
    intros [|i] c Hc; discriminate.
  - pose proof H as Hloop. simpl in H. unfold bind in H.
    destruct (EnterBacInvoices_row cs_map c w) as [w1 [cs_map1|e]] eqn:Step;
      [|discriminate].
    pose proof (EnterBacInvoices_row_imported _ _ _ _ _ Step) as (x & Hheap & Hx).
    pose proof (EnterBacInvoices_row_store _ _ _ _ _ Step) as (-> & _).
    pose proof (EnterBacInvoices_loop_ok _ _ _ _ _ H) as (_ & Hold & _).
    apply IH in H. destruct H as (Hperm & Hsent & Hrows).
    rewrite Hheap in Hperm, Hrows, Hold. rewrite length_app in Hperm, Hrows, Hold.
    simpl in Hperm, Hrows, Hold.
    split; [|split].
    + eapply Permutation_trans; [exact Hperm|]. simpl.
      replace (List.length (heap w) + 1) with (S (List.length (heap w))) by lia.
      eapply Permutation_trans;
        [apply Permutation_app_tail; apply all_rows_file_row|].
      simpl. apply Permutation_middle.
    + rewrite Hsent. apply file_row_other. apply booking_player_not_sentinel.
    + intros [|i] c' Hc'; simpl in Hc'.
      * inversion Hc'; subst c'. exists x. split; [|exact Hx].
        rewrite Nat.add_0_r. rewrite Hold by lia.
        rewrite nth_error_app2 by lia. rewrite Nat.sub_diag. reflexivity.
      * replace (List.length (heap w) + S i) with (List.length (heap w) + 1 + i) by lia.
        apply Hrows. exact Hc'.
Qed.

(** X3: the allocation index a run of the importer returns.  Over all its
    buckets it refers to every row object of the run exactly once; the
    row of a booking is in the bucket of its player name, as the importer
    left it (with an invoice and the flag unset exactly when it has a
    fee); and the sentinel bucket of unnamed players is empty, since a
    player name always holds the space between its two parts. *)
Theorem EnterBacInvoices_index (cs_csv : list BookingCsv) (w w' : World)
    (cs_map : cs_map_t) :
  EnterBacInvoices cs_csv w = (w', Ok cs_map) ->
  Permutation (all_rows cs_map) (seq (List.length (heap w)) (List.length cs_csv)) /\
  cs_get cs_map NO_NAME_ENTRY = Some [] /\
  (forall i c, nth_error cs_csv i = Some c ->
     (exists l, cs_get cs_map (booking_player c) = Some l /\
                In (List.length (heap w) + i) l) /\
     (exists x, nth_error (heap w') (List.length (heap w) + i) = Some x /\
                imported_row c x)).
Proof.
  intros H. unfold EnterBacInvoices in H.
  pose proof (EnterBacInvoices_loop_index _ _ _ _ _ H) as (Hperm & Hsent & Hrows).
  pose proof (EnterBacInvoices_loop_ok _ _ _ _ _ H) as (_ & _ & _ & _ & Hbuckets).
  split; [exact Hperm|]. split; [rewrite Hsent; reflexivity|].
  intros i c Hc. split.
  - exact (proj1 (Hbuckets i c Hc)).
  - exact (Hrows i c Hc).
Qed.

End Index.

Lemma EnterBacInvoices_index_witness :
  Permutation (all_rows imported_map) (seq 0 1) /\
  cs_get imported_map NO_NAME_ENTRY = Some [] /\
  (exists l, cs_get imported_map (booking_player jane_booking) = Some l /\ In 0 l).
Proof.
  pose proof (EnterBacInvoices_index (lib := feed_lib) [jane_booking] sample_world
                imported_world imported_map ltac:(vm_compute; reflexivity))
    as (Hperm & Hsent & Hrows).
  split; [exact Hperm|]. split; [exact Hsent|].
  exact (proj1 (Hrows 0 jane_booking eq_refl)).
Defined.

(** ** Customers *)

Lemma find_index_first {A : Type} (p : A -> bool) (l : list A) :
  forall (i c : nat) (x : A),
    nth_error l c = Some x -> p x = true ->
    (forall k y, k < c -> nth_error l k = Some y -> p y = false) ->
    find_index p l i = Some (i + c).
Proof.
  induction l as [|a l IH]; intros i c x Hc Hp Hfirst.
  - destruct c; discriminate.
  - destruct c as [|c]; simpl in *.
    + inversion Hc; subst a. rewrite Hp. f_equal. lia.
    + rewrite (Hfirst 0 a) by (reflexivity || lia).
      rewrite (IH (S i) c x Hc Hp).
      * f_equal. lia.
      * intros k y Hk Hy. apply (Hfirst (S k) y); [lia|exact Hy].
Qed.

Lemma find_index_none {A : Type} (p : A -> bool) (l : list A) (i : nat) :
  (forall x, In x l -> p x = false) -> find_index p l i = None.
Proof.
  revert i. induction l as [|a l IH]; intros i H; simpl.
  - reflexivity.
  - rewrite (H a) by (left; reflexivity). apply IH. intros x Hx. apply H. right. exact Hx.
Qed.

Lemma find_index_found {A : Type} (p : A -> bool) (l : list A) :
  forall (i j : nat),
    find_index p l i = Some j ->
    exists c x, j = i + c /\ nth_error l c = Some x /\ p x = true.
Proof.
  induction l as [|a l IH]; intros i j H; simpl in H.
  - discriminate.
  - destruct (p a) eqn:E.
    + inversion H; subst j. exists 0, a. repeat split; [lia|exact E].
    + apply IH in H. destruct H as (c & x & -> & Hc & Hp).
      exists (S c), x. repeat split; [lia|exact Hc|exact Hp].
Qed.

Lemma find_index_app {A : Type} (p : A -> bool) (l l' : list A) (i : nat) :
  find_index p (l ++ l') i =
    match find_index p l i with
    | Some j => Some j
    | None => find_index p l' (i + List.length l)
    end.
Proof.
  revert i. induction l as [|a l IH]; intros i; simpl.
  - rewrite Nat.add_0_r. reflexivity.
  - destruct (p a); [reflexivity|]. rewrite IH.
    replace (S i + List.length l) with (i + S (List.length l)) by lia. reflexivity.
Qed.

(** X5: customers are resolved by exact name, and created on first
    encounter.  When the book holds a customer of that name, [GetCustomer]
    returns the first one and leaves the state as it was; otherwise it
    appends a customer with the next identifier, the name and the email,
    and returns it.  It never raises, and asking again for the same name,
    with any email, returns the same customer without creating another. *)
Theorem GetCustomer_resolves (name email : string) (w : World) :
  (forall c x,
      nth_error (customers (book w)) c = Some x -> cust_name x = name ->
      (forall k y, k < c -> nth_error (customers (book w)) k = Some y ->
                   cust_name y <> name) ->
      GetCustomer name email w = (w, Ok c)) /\
  ((forall x, In x (customers (book w)) -> cust_name x <> name) ->
   GetCustomer name email w =
     (customer_created_world w name email, Ok (List.length (customers (book w))))) /\
  (exists w' c,
      GetCustomer name email w = (w', Ok c) /\
      (exists x, nth_error (customers (book w')) c = Some x /\ cust_name x = name) /\
      forall email', GetCustomer name email' w' = (w', Ok c)).
Proof.
  split; [|split].
  - intros c x Hc Hn Hfirst. unfold GetCustomer, bind, get_book.
    rewrite (find_index_first _ _ 0 c x Hc).
    + reflexivity.
    + apply String.eqb_eq. exact Hn.
    + intros k y Hk Hy. apply String.eqb_neq. eapply Hfirst; eassumption.
  - intros Hnone. unfold GetCustomer, bind, get_book.
    rewrite find_index_none.
    + reflexivity.
    + intros x Hx. apply String.eqb_neq. apply Hnone. exact Hx.
  - unfold GetCustomer, bind, get_book.
    destruct (find_index (fun c => String.eqb (cust_name c) name) (customers (book w)) 0)
      as [c|] eqn:E.
    + exists w, c. split; [reflexivity|].
      destruct (find_index_found _ _ _ _ E) as (k & x & -> & Hk & Hp).
      split; [exists x; split; [exact Hk|apply String.eqb_eq; exact Hp]|].
      intros email'. rewrite E. reflexivity.
    + exists (customer_created_world w name email), (List.length (customers (book w))).
      split; [reflexivity|]. split.
      * eexists. split.
        -- simpl. rewrite nth_error_app2 by lia. rewrite Nat.sub_diag. reflexivity.
        -- reflexivity.
      * intros email'. simpl. rewrite find_index_app, E. simpl.
        rewrite String.eqb_refl. reflexivity.
Qed.

Lemma GetCustomer_resolves_witness :
  GetCustomer "Book A Court" "agent@example.org" sample_world = (sample_world, Ok 0) /\
  GetCustomer "Greg Armstrong" "greg@example.org" sample_world =
    (customer_created_world sample_world "Greg Armstrong" "greg@example.org", Ok 1).
Proof.
  split.
  - apply (proj1 (GetCustomer_resolves "Book A Court" "agent@example.org" sample_world)
             0 (mkCustomer "000001" AUD "Book A Court" "")).
    + reflexivity.
    + reflexivity.
    + intros k y Hk. lia.
  - apply (proj1 (proj2 (GetCustomer_resolves "Greg Armstrong" "greg@example.org"
                           sample_world))).
    intros x [<-|[]]. discriminate.
Defined.

(** ** Payouts, ignored rows and unreadable dates *)

Section OtherRows.

Context {lib : PyLib}.

(** X6: a row of type payout whose description is not the court booking
    is a transfer, whatever else it holds: the book gains one two-sided
    transaction described Stripe Payout that posts the amount to the
    clearing account and its negation to the checking account; the fee
    cell is not used, and no invoice, customer, booking row or output
    changes.  A row described as a court booking is a court payment even
    when its type is payout. *)
Theorem payout_row_is_transfer (cs_map : cs_map_t) (loc : Locals) (row : StripeRow)
    (d : date) (w : World) :
  date_fromisoformat (split_space_0 (Available_On row)) = Some d ->
  Type_ row = "payout" ->
  (Description row <> COURT_BOOKING ->
   ProcessStripePayments_row cs_map loc row w =
     (with_book w (set_transactions (book w)
        (transactions (book w) ++ [transfer_transaction (Amount row) d])),
      Ok (rebind cs_map loc row))) /\
  (Description row = COURT_BOOKING ->
   ProcessStripePayments_row cs_map loc row w =
     court_payment (rebind cs_map loc row) (player_name_of row)
       (Amount row) (Fee row) (Net row) (Description row) d w).
Proof.
  intros Hd HT. split; intros HD.
  - rewrite (dispatch_payout cs_map loc row d Hd w (proj2 (String.eqb_neq _ _) HD) HT).
    unfold bind. rewrite DoStripeTransfer_run. reflexivity.
  - apply dispatch_court; assumption.
Qed.

(** X7: a settlement row whose available-on date does not parse raises
    [ValueError] before it is classified, and leaves the state as it was,
    even when the row would be ignored; a row with a date that matches no
    branch (not the court booking, not a payout, none of the three
    description prefixes) is ignored: the state is as it was and only the
    bucket variable is rebound. *)
Theorem unreadable_and_ignored_rows (cs_map : cs_map_t) (loc : Locals) (row : StripeRow)
    (w : World) :
  (date_fromisoformat (split_space_0 (Available_On row)) = None ->
   ProcessStripePayments_row cs_map loc row w = (w, Raise ValueError)) /\
  (forall d,
      date_fromisoformat (split_space_0 (Available_On row)) = Some d ->
      Description row <> COURT_BOOKING ->
      Type_ row <> "payout" ->
      startswith (Description row) REFUND_PREFIX = false ->
      startswith (Description row) MEMBERSHIP_PREFIX = false ->
      startswith (Description row) EVENT_PREFIX = false ->
      ProcessStripePayments_row cs_map loc row w = (w, Ok (rebind cs_map loc row))).
Proof.
  split.
  - intros Hd. unfold ProcessStripePayments_row. rewrite Hd. reflexivity.
  - intros d Hd HD HT HR HM HE. unfold ProcessStripePayments_row. rewrite Hd.
    unfold bind at 1. simpl. fold (rebind cs_map loc row).
    apply String.eqb_neq in HD, HT. rewrite HD, HT, HR, HM, HE. reflexivity.
Qed.

End OtherRows.

Lemma payout_row_is_transfer_witness :
  ProcessStripePayments_row (lib := feed_lib) imported_map (mkLocals None None)
    payout_row imported_world =
  (with_book imported_world (set_transactions (book imported_world)
     (transactions (book imported_world)
      ++ [transfer_transaction "500.00" (mkDate 2021 10 20)])),
   Ok (mkLocals None None)).
Proof.
  exact (proj1 (payout_row_is_transfer (lib := feed_lib) imported_map (mkLocals None None)
                  payout_row (mkDate 2021 10 20) imported_world eq_refl eq_refl)
           ltac:(discriminate)).
Defined.

Lemma unreadable_and_ignored_rows_witness :
  ProcessStripePayments_row (lib := feed_lib) imported_map (mkLocals None None)
    (mkStripeRow "" "" "" "" "Jane" "" "" "Doe" "" "" "20/10/2021" "10.00" "" "10.00"
       "Donation" "charge" "" "" "" "") imported_world =
    (imported_world, Raise ValueError) /\
  ProcessStripePayments_row (lib := feed_lib) imported_map (mkLocals None None)
    unclassified_row imported_world =
    (imported_world, Ok (mkLocals (Some [0]) None)).
Proof.
  split.
  - exact (proj1 (unreadable_and_ignored_rows (lib := feed_lib) imported_map
                    (mkLocals None None)
                    (mkStripeRow "" "" "" "" "Jane" "" "" "Doe" "" "" "20/10/2021" "10.00"
                       "" "10.00" "Donation" "charge" "" "" "" "")
                    imported_world) eq_refl).
  - exact (proj2 (unreadable_and_ignored_rows (lib := feed_lib) imported_map
                    (mkLocals None None) unclassified_row imported_world)
             (mkDate 2021 10 20) eq_refl ltac:(discriminate) ltac:(discriminate)
             eq_refl eq_refl eq_refl).
Defined.

(** ** Court payments: first match, no match, missing flag *)

Lemma allocate_loop_skip (trans : nat) (amount fee net : string) (d : date)
    (pre rest : list nat) :
  forall (pr : option nat) (w : World),
    none_open (heap w) amount pre ->
    allocate_loop trans amount fee net d (pre ++ rest) pr w =
      allocate_loop trans amount fee net d rest (last_row pre pr) w.
Proof.
  induction pre as [|x pre IH]; intros pr w H; simpl.
  - reflexivity.
  - unfold bind at 1. unfold get_row at 1. unfold bind at 1.
    assert (none_open (heap w) amount pre) as H' by (intros y Hy; apply H; right; exact Hy).
    destruct (H x (or_introl eq_refl)) as [E|E].
    + rewrite E. simpl. apply IH. exact H'.
    + rewrite E.
      destruct (String.eqb (Total_Fee (row_csv (nth x (heap w) empty_row))) amount);
        simpl; apply IH; exact H'.
Qed.

Lemma allocate_loop_first_match (trans : nat) (amount fee net : string) (d : date)
    (pre : list nat) (r : nat) (post : list nat) (inv : nat) (pr : option nat)
    (w : World) :
  none_open (heap w) amount pre ->
  Total_Fee (row_csv (nth r (heap w) empty_row)) = amount ->
  row_Allocated (nth r (heap w) empty_row) = Some false ->
  row_Invoice (nth r (heap w) empty_row) = Some inv ->
  allocate_loop trans amount fee net d (pre ++ r :: post) pr w =
    (allocated_world w trans amount fee net d r inv, Ok (Some r, true)).
Proof.
  intros Hpre Ht Ha Hi. rewrite allocate_loop_skip by exact Hpre. simpl.
  unfold bind at 1. unfold get_row at 1. unfold bind at 1.
  rewrite Ht, String.eqb_refl, Ha. unfold bind at 1. simpl getitem.
  unfold ret at 1. unfold ret at 1. simpl negb. cbv iota.
  unfold bind at 1. rewrite Hi. simpl getitem. unfold ret at 1.
  destruct w as [[invs txs custs ic cc] hp out].
  unfold allocated_world, RecordStripeFee, getitem.
  destruct (truthy fee); ledger_run; rewrite ?upd_nth_upd_nth; reflexivity.
Qed.

Lemma allocate_loop_missing_flag (trans : nat) (amount fee net : string) (d : date)
    (pre : list nat) (r : nat) (post : list nat) (pr : option nat) (w : World) :
  none_open (heap w) amount pre ->
  Total_Fee (row_csv (nth r (heap w) empty_row)) = amount ->
  row_Allocated (nth r (heap w) empty_row) = None ->
  allocate_loop trans amount fee net d (pre ++ r :: post) pr w =
    (w, Raise (KeyError "Allocated")).
Proof.
  intros Hpre Ht Ha. rewrite allocate_loop_skip by exact Hpre. simpl.
  unfold bind at 1. unfold get_row at 1. unfold bind at 1.
  rewrite Ht, String.eqb_refl, Ha. reflexivity.
Qed.

Section CourtPayments.

Context {lib : PyLib}.
Variables (cs_map : cs_map_t) (loc : Locals) (row : StripeRow) (d : date) (w : World).
Hypothesis available_on : date_fromisoformat (split_space_0 (Available_On row)) = Some d.
Hypothesis court_booking : Description row = COURT_BOOKING.

(** X8: a court payment goes to the first open row of the player's
    bucket.  When the rows before [r] in the bucket cannot take the
    payment and [r] has the amount as total fee, its flag unset and an
    invoice, the row that follows is the outcome: one payment transaction
    on the clearing account, with the fee recorded on it when the fee
    cell is not empty; the payment applied to the invoice of [r]; the
    flag of [r] set; nothing printed; later rows of the bucket are not
    looked at. *)
Theorem court_payment_first_match (pre : list nat) (r : nat) (post : list nat) (inv : nat) :
  cs_get cs_map (player_name_of row) = Some (pre ++ r :: post) ->
  none_open (heap w) (Amount row) pre ->
  Total_Fee (row_csv (nth r (heap w) empty_row)) = Amount row ->
  row_Allocated (nth r (heap w) empty_row) = Some false ->
  row_Invoice (nth r (heap w) empty_row) = Some inv ->
  ProcessStripePayments_row cs_map loc row w =
    (court_allocated_world w (Amount row) (Fee row) (Net row) (Description row) d r inv,
     Ok (mkLocals (Some (pre ++ r :: post)) (Some r))).
Proof.
  intros Hl Hpre Ht Ha Hi.
  rewrite (dispatch_court cs_map loc row d available_on w court_booking).
  unfold rebind. rewrite Hl. unfold court_payment. unfold bind at 1.
  rewrite MakeStripePayment_run. cbn [player_list player_row].
  unfold bind at 1. simpl or_raise. unfold ret at 1. unfold bind at 1.
  rewrite (allocate_loop_first_match _ _ _ _ _ pre r post inv); try assumption.
  destruct w as [[invs txs custs ic cc] hp out].
  unfold allocated_world, court_allocated_world, customer_payment_transaction.
  cbn. destruct (truthy (Fee row)); rewrite ?upd_nth_app_length; reflexivity.
Qed.

(** X9: a court payment whose player's bucket holds no open row is
    logged and the run goes on: the payment transaction is created and
    applied to nothing, one line is printed, and no invoice or booking
    row changes.  The line reports the total fee of the last row of the
    bucket, not the amount of the payment. *)
Theorem court_payment_without_match (l : list nat) (r : nat) :
  cs_get cs_map (player_name_of row) = Some l ->
  last_row l (player_row loc) = Some r ->
  none_open (heap w) (Amount row) l ->
  ProcessStripePayments_row cs_map loc row w =
    (mkWorld
       (set_transactions (book w)
          (transactions (book w)
           ++ [payment_transaction (Amount row) (Description row) d]))
       (heap w)
       (stdout w
        ++ [unresolved_message (Total_Fee (row_csv (nth r (heap w) empty_row)))
              (player_name_of row)]),
     Ok (mkLocals (Some l) (Some r))).
Proof.
  intros Hl Hr Hno.
  rewrite (dispatch_court cs_map loc row d available_on w court_booking).
  unfold rebind. rewrite Hl.
  apply court_payment_unresolved; [reflexivity|exact Hr|exact Hno].
Qed.

(** X10: a booking row without allocated flag, as the importer leaves
    the rows without fee, makes a court payment of the same player raise
    [KeyError] when its total fee equals the amount and no row before it
    in the bucket takes the payment: the payment transaction is created,
    nothing is applied or printed, and the run stops. *)
Theorem court_payment_missing_flag (pre : list nat) (r : nat) (post : list nat) :
  cs_get cs_map (player_name_of row) = Some (pre ++ r :: post) ->
  none_open (heap w) (Amount row) pre ->
  Total_Fee (row_csv (nth r (heap w) empty_row)) = Amount row ->
  row_Allocated (nth r (heap w) empty_row) = None ->
  ProcessStripePayments_row cs_map loc row w =
    (with_book w (set_transactions (book w)
       (transactions (book w)
        ++ [payment_transaction (Amount row) (Description row) d])),
     Raise (KeyError "Allocated")).
Proof.
  intros Hl Hpre Ht Ha.
  rewrite (dispatch_court cs_map loc row d available_on w court_booking).
  unfold rebind. rewrite Hl. unfold court_payment. unfold bind at 1.
  rewrite MakeStripePayment_run. cbn [player_list player_row].
  unfold bind at 1. simpl or_raise. unfold ret at 1. unfold bind at 1.
  rewrite (allocate_loop_missing_flag _ _ _ _ _ pre r post); try assumption.
  reflexivity.
Qed.

End CourtPayments.

Lemma court_payment_first_match_witness :
  ProcessStripePayments_row (lib := feed_lib) imported_map (mkLocals None None)
    (court_payment_row "Jane" "Doe") imported_world =
  (court_allocated_world imported_world "25.00" "1.20" "23.80" COURT_BOOKING
     (mkDate 2021 10 20) 0 0,
   Ok (mkLocals (Some [0]) (Some 0))).
Proof.
  apply (court_payment_first_match (lib := feed_lib) imported_map (mkLocals None None)
           (court_payment_row "Jane" "Doe") (mkDate 2021 10 20) imported_world
           eq_refl eq_refl [] 0 [] 0).
  - reflexivity.
  - intros x [].
  - reflexivity.
  - reflexivity.
  - reflexivity.
Defined.

Lemma court_payment_without_match_witness :
  ProcessStripePayments_row (lib := feed_lib) imported_map (mkLocals (Some [0]) (Some 0))
    (court_payment_row "Jane" "Doe")
    (court_allocated_world imported_world "25.00" "1.20" "23.80" COURT_BOOKING
       (mkDate 2021 10 20) 0 0) =
  (mkWorld
     (set_transactions
        (book (court_allocated_world imported_world "25.00" "1.20" "23.80" COURT_BOOKING
                 (mkDate 2021 10 20) 0 0))
        (transactions
           (book (court_allocated_world imported_world "25.00" "1.20" "23.80"
                    COURT_BOOKING (mkDate 2021 10 20) 0 0))
         ++ [payment_transaction "25.00" COURT_BOOKING (mkDate 2021 10 20)]))
     (heap (court_allocated_world imported_world "25.00" "1.20" "23.80" COURT_BOOKING
              (mkDate 2021 10 20) 0 0))
     [unresolved_message "25.00" "Jane Doe"],
   Ok (mkLocals (Some [0]) (Some 0))).
Proof.
  apply (court_payment_without_match (lib := feed_lib) imported_map
           (mkLocals (Some [0]) (Some 0)) (court_payment_row "Jane" "Doe")
           (mkDate 2021 10 20)
           (court_allocated_world imported_world "25.00" "1.20" "23.80" COURT_BOOKING
              (mkDate 2021 10 20) 0 0)
           eq_refl eq_refl [0] 0).
  - reflexivity.
  - reflexivity.
  - intros x [<-|[]]. right. reflexivity.
Defined.

Lemma court_payment_missing_flag_witness :
  ProcessStripePayments_row (lib := feed_lib) imported_map (mkLocals None None)
    free_payment_row (skipped_world sample_world free_booking) =
  (with_book (skipped_world sample_world free_booking)
     (set_transactions sample_book
        [payment_transaction "0.00" COURT_BOOKING (mkDate 2021 10 20)]),
   Raise (KeyError "Allocated")).
Proof.
  apply (court_payment_missing_flag (lib := feed_lib) imported_map (mkLocals None None)
           free_payment_row (mkDate 2021 10 20) (skipped_world sample_world free_booking)
           eq_refl eq_refl [] 0 []).
  - reflexivity.
  - intros x [].
  - reflexivity.
  - reflexivity.
Defined.

(** ** Court refunds over booking rows that do not parse *)

Section RefundErrors.

Context {lib : PyLib}.

Lemma refund_scan_bucket_app (bd : datetime) (amount : string) (l1 l2 : list nat) :
  forall (fees : option string * option string) (w : World),
    refund_scan_bucket bd amount (l1 ++ l2) fees w =
      (fees' <- refund_scan_bucket bd amount l1 fees ;;
       refund_scan_bucket bd amount l2 fees') w.
Proof.
  induction l1 as [|r l1 IH]; intros fees w; simpl.
  - reflexivity.
  - unfold bind, get_row.
    destruct (datetime_strptime _ booking_format) as [t|]; simpl; [|reflexivity].
    destruct (datetime_eqb t bd && _)%bool; rewrite IH; reflexivity.
Qed.

Lemma refund_scan_flat (bd : datetime) (amount : string) (cs_map : cs_map_t) :
  forall (fees : option string * option string) (w : World),
    refund_scan bd amount cs_map fees w =
      refund_scan_bucket bd amount (all_rows cs_map) fees w.
Proof.
  induction cs_map as [|[key l] rest IH]; intros fees w; simpl.
  - reflexivity.
  - unfold all_rows. simpl. fold (all_rows rest).
    rewrite refund_scan_bucket_app. unfold bind.
    destruct (refund_scan_bucket bd amount l fees w) as [w1 [fees'|e]];
      [apply IH|reflexivity].
Qed.

Lemma refund_scan_bucket_unreadable (bd : datetime) (amount : string)
    (pre : list nat) (r : nat) (post : list nat)
    (fees : option string * option string) (w : World) :
  rows_parse (heap w) pre ->
  booking_datetime_of (heap w) r = None ->
  refund_scan_bucket bd amount (pre ++ r :: post) fees w = (w, Raise ValueError).
Proof.
  intros P N. rewrite refund_scan_bucket_app. unfold bind at 1.
  rewrite refund_scan_bucket_run by exact P.
  unfold booking_datetime_of in N. simpl in N |- *.
  unfold bind, get_row. rewrite N. reflexivity.
Qed.

(** X11: a court refund whose session text parses searches every booking
    row, and a booking row whose date and time cells do not parse makes
    it raise [ValueError]: when the rows before the first such row parse,
    the refund row raises with the state as it was, no credit note and
    no transaction created. *)
Theorem court_refund_unreadable_booking (cs_map : cs_map_t) (loc : Locals)
    (row : StripeRow) (d : date) (w : World) (bd : datetime)
    (pre : list nat) (r : nat) (post : list nat) :
  date_fromisoformat (split_space_0 (Available_On row)) = Some d ->
  Type_ row <> "payout" ->
  startswith (Description row) REFUND_PREFIX = true ->
  re_sub false refund_pattern 1 (Description row) = COURT_BOOKING ->
  datetime_strptime (Session row) refund_format = Some bd ->
  all_rows cs_map = pre ++ r :: post ->
  rows_parse (heap w) pre ->
  booking_datetime_of (heap w) r = None ->
  ProcessStripePayments_row cs_map loc row w = (w, Raise ValueError).
Proof.
  intros Hd HT HR HI Hp Hall P N.
  rewrite (dispatch_refund cs_map loc row d Hd w
             (refund_is_not_court_booking _ HR)
             (proj2 (String.eqb_neq _ _) HT) HR).
  rewrite HI. rewrite String.eqb_refl. unfold bind at 1.
  unfold court_refund. unfold bind at 1. rewrite Hp.
  rewrite refund_scan_flat, Hall.
  rewrite refund_scan_bucket_unreadable by assumption.
  reflexivity.
Qed.

End RefundErrors.

Lemma court_refund_unreadable_booking_witness :
  ProcessStripePayments_row (lib := feed_lib) imported_map (mkLocals None None)
    (court_refund_row "Coburg Tennis Club Tuesday, 19 October 2021 5:00 PM")
    (skipped_world sample_world
       (mkBookingCsv "Jane" "Doe" "2021-10-17" "0" "0" "0" "19/10/2021" "5pm")) =
  (skipped_world sample_world
     (mkBookingCsv "Jane" "Doe" "2021-10-17" "0" "0" "0" "19/10/2021" "5pm"),
   Raise ValueError).
Proof.
  apply (court_refund_unreadable_booking (lib := feed_lib) imported_map
           (mkLocals None None)
           (court_refund_row "Coburg Tennis Club Tuesday, 19 October 2021 5:00 PM")
           (mkDate 2021 10 20)
           (skipped_world sample_world
              (mkBookingCsv "Jane" "Doe" "2021-10-17" "0" "0" "0" "19/10/2021" "5pm"))
           (mkDatetime 2021 10 19 17 0 0) [] 0 []).
  - reflexivity.
  - discriminate.
  - reflexivity.
  - vm_compute. reflexivity.
  - vm_compute. reflexivity.
  - reflexivity.
  - intros x [].
  - vm_compute. reflexivity.
Defined.

(** ** What a run of the reconciler keeps *)

Lemma invoice_kept_refl (a : Invoice) : invoice_kept a a.
Proof.
  repeat split. exists []. rewrite app_nil_r. reflexivity.
Qed.

Lemma invoice_kept_trans (a b c : Invoice) :
  invoice_kept a b -> invoice_kept b c -> invoice_kept a c.
Proof.
  intros (A1 & A2 & A3 & A4 & A5 & A6 & A7 & ps & A8)
         (B1 & B2 & B3 & B4 & B5 & B6 & B7 & qs & B8).
  repeat split; try congruence.
  exists (ps ++ qs). rewrite B8, A8, app_assoc. reflexivity.
Qed.

Lemma row_kept_refl (x : BookingRow) : row_kept x x.
Proof.
  repeat split. left. reflexivity.
Qed.

Lemma row_kept_trans (x y z : BookingRow) : row_kept x y -> row_kept y z -> row_kept x z.
Proof.
  intros (A1 & A2 & A3) (B1 & B2 & B3).
  split; [congruence|]. split; [congruence|].
  destruct A3 as [A3|[A3 A4]], B3 as [B3|[B3 B4]].
  - left. congruence.
  - right. split; congruence.
  - right. split; congruence.
  - congruence.
Qed.

Lemma ledger_kept_refl (w : World) : ledger_kept 0 w w.
Proof.
  split; [exists []; rewrite app_nil_r; auto|].
  split; [exists []; rewrite app_nil_r; auto|].
  split; [lia|]. split; [|split; [reflexivity|]].
  - intros i a H. exists a. split; [exact H|apply invoice_kept_refl].
  - intros r x H. exists x. split; [exact H|apply row_kept_refl].
Qed.

Lemma ledger_kept_weaken (n m : nat) (w w' : World) :
  n <= m -> ledger_kept n w w' -> ledger_kept m w w'.
Proof.
  intros L ((et & T & Tn) & (ec & C & Cn) & I & Ik & H & Hk).
  split; [exists et; split; [exact T|lia]|].
  split; [exists ec; split; [exact C|lia]|].
  split; [lia|]. split; [exact Ik|]. split; [exact H|exact Hk].
Qed.

Lemma ledger_kept_trans (n m : nat) (w1 w2 w3 : World) :
  ledger_kept n w1 w2 -> ledger_kept m w2 w3 -> ledger_kept (n + m) w1 w3.
Proof.
  intros ((et & T & Tn) & (ec & C & Cn) & I & Ik & H & Hk)
         ((et' & T' & Tn') & (ec' & C' & Cn') & I' & Ik' & H' & Hk').
  split; [exists (et ++ et'); rewrite T', T, app_assoc, length_app; split; [auto|lia]|].
  split; [exists (ec ++ ec'); rewrite C', C, app_assoc, length_app; split; [auto|lia]|].
  split; [lia|]. split; [|split; [congruence|]].
  - intros i a Ha. destruct (Ik i a Ha) as (b & Hb & Kab).
    destruct (Ik' i b Hb) as (c & Hc & Kbc).
    exists c. split; [exact Hc|]. eapply invoice_kept_trans; eassumption.
  - intros r x Hx. destruct (Hk r x Hx) as (y & Hy & Kxy).
    destruct (Hk' r y Hy) as (z & Hz & Kyz).
    exists z. split; [exact Hz|]. eapply row_kept_trans; eassumption.
Qed.

Lemma ledger_kept_appended (n : nat) (w w' : World)
    (ei : list Invoice) (et : list Transaction) (ec : list Customer) :
  invoices (book w') = invoices (book w) ++ ei -> List.length ei <= n ->
  transactions (book w') = transactions (book w) ++ et -> List.length et <= n ->
  customers (book w') = customers (book w) ++ ec -> List.length ec <= n ->
  heap w' = heap w ->
  ledger_kept n w w'.
Proof.
  intros I In' T Tn C Cn H.
  split; [exists et; auto|]. split; [exists ec; auto|].
  split; [rewrite I, length_app; lia|].
  split; [|split; [rewrite H; reflexivity|]].
  - intros i a Ha. exists a. split; [|apply invoice_kept_refl].
    rewrite I. rewrite nth_error_app1; [exact Ha|].
    apply nth_error_Some. rewrite Ha. discriminate.
  - intros r x Hx. exists x. rewrite H. split; [exact Hx|apply row_kept_refl].
Qed.

Ltac appended :=
  simpl; try reflexivity; rewrite ?app_nil_r; try reflexivity; simpl; lia.

Lemma ledger_kept_allocated (w : World) (amount fee net description : string) (d : date)
    (r inv : nat) :
  row_Allocated (nth r (heap w) empty_row) = Some false ->
  ledger_kept 1 w (court_allocated_world w amount fee net description d r inv).
Proof.
  intros Ha. pose proof (flagged_row_in_store _ _ _ Ha) as Hr.
  split; [eexists; split; [reflexivity|simpl; lia]|].
  split; [exists []; simpl; rewrite app_nil_r; split; [reflexivity|lia]|].
  split; [simpl; rewrite upd_nth_length; lia|].
  split; [|split; [simpl; apply upd_nth_length|]].
  - intros i a Hi. simpl. destruct (Nat.eq_dec inv i) as [<-|N].
    + rewrite nth_error_upd_nth_same, Hi. simpl. eexists. split; [reflexivity|].
      unfold add_payment. repeat split. simpl. eexists. reflexivity.
    + rewrite nth_error_upd_nth_other by exact N.
      exists a. split; [exact Hi|apply invoice_kept_refl].
  - intros r' x Hx. simpl. destruct (Nat.eq_dec r r') as [<-|N].
    + rewrite nth_error_upd_nth_same, Hx. simpl. eexists. split; [reflexivity|].
      assert (x = nth r (heap w) empty_row) as -> by congruence.
      unfold set_allocated. repeat split. right. split; [exact Ha|reflexivity].
    + rewrite nth_error_upd_nth_other by exact N.
      exists x. split; [exact Hx|apply row_kept_refl].
Qed.

(** Every outcome of the loop of the court-payment handler, as a state. *)
Lemma allocate_loop_cases (trans : nat) (amount fee net : string) (d : date)
    (l : list nat) :
  forall (pr : option nat) (w w' : World) (res : result (option nat * bool)),
    allocate_loop trans amount fee net d l pr w = (w', res) ->
    (w' = w /\ forall r, res <> Ok (r, true)) \/
    exists r inv,
      row_Allocated (nth r (heap w) empty_row) = Some false /\
      res = Ok (Some r, true) /\
      w' = allocated_world w trans amount fee net d r inv.
Proof.
  induction l as [|r l IH]; intros pr w w' res H; simpl in H.
  - inversion H. left. split; [reflexivity|discriminate].
  - unfold bind at 1 in H. unfold get_row at 1 in H.
    unfold bind at 1 in H.
    destruct (String.eqb (Total_Fee (row_csv (nth r (heap w) empty_row))) amount) eqn:Et.
    + unfold bind at 1 in H.
      destruct (row_Allocated (nth r (heap w) empty_row)) as [[|]|] eqn:Ea;
        simpl in H.
      * apply IH in H. exact H.
      * unfold bind at 1 in H.
        destruct (row_Invoice (nth r (heap w) empty_row)) as [inv|] eqn:Ei; simpl in H.
        -- right. exists r, inv. split; [exact Ea|].
           destruct w as [[invs txs custs ic cc] hp out].
           unfold RecordStripeFee in H. unfold allocated_world.
           destruct (truthy fee);
             revert H; ledger_run; intros H; inversion H;
             rewrite ?upd_nth_upd_nth; split; reflexivity.
        -- inversion H. left. split; [reflexivity|discriminate].
      * inversion H. left. split; [reflexivity|discriminate].
    + simpl in H. apply IH in H. exact H.
Qed.

Lemma court_payment_kept (loc : Locals) (player_name amount fee net description : string)
    (d : date) (w w' : World) (res : result Locals) :
  court_payment loc player_name amount fee net description d w = (w', res) ->
  ledger_kept 1 w w'.
Proof.
  unfold court_payment. unfold bind at 1. rewrite MakeStripePayment_run.
  assert (forall out,
             ledger_kept 1 w
               (mkWorld (set_transactions (book w)
                           (transactions (book w)
                            ++ [payment_transaction amount description d]))
                  (heap w) out)) as Base.
  { intros out. eapply (ledger_kept_appended 1 w _ [] _ []); appended. }
  unfold bind at 1.
  destruct (player_list loc) as [l|]; simpl.
  - unfold bind at 1.
    match goal with
    | |- context [allocate_loop ?t ?a ?f ?n ?dd ?ll ?pr ?ww] =>
        destruct (allocate_loop t a f n dd ll pr ww) as [w2 res0] eqn:Loop
    end.
    apply allocate_loop_cases in Loop.
    destruct Loop as [[-> _]|(r & inv & Ha & -> & ->)].
    + intros H.
      destruct res0 as [[prow allocated]|e]; [|inversion H; apply Base].
      destruct allocated; simpl in H; [inversion H; apply Base|].
      destruct prow as [r|]; simpl in H; [|inversion H; apply Base].
      unfold bind, get_row, print, ret in H. simpl in H.
      inversion H. apply Base.
    + simpl. intros H. inversion H; subst.
      replace (allocated_world _ _ amount fee net d r inv)
        with (court_allocated_world w amount fee net description d r inv).
      * apply ledger_kept_allocated. exact Ha.
      * destruct w as [[invs txs custs ic cc] hp out].
        unfold allocated_world, court_allocated_world, customer_payment_transaction.
        cbn. destruct (truthy fee); rewrite ?upd_nth_app_length; reflexivity.
  - intros H. inversion H. apply Base.
Qed.

Lemma GetCustomer_cases (name email : string) (w w' : World) (res : result nat) :
  GetCustomer name email w = (w', res) ->
  w' = w \/ w' = customer_created_world w name email.
Proof.
  unfold GetCustomer, bind, get_book, CustomerNextID, ret.
  destruct (find_index (fun c => String.eqb (cust_name c) name) (customers (book w)) 0);
    intros H; inversion H; [left|right]; reflexivity.
Qed.

Lemma customer_payment_kept (name email : string) (acct : account)
    (amount fee net description : string) (d : date) (w w' : World) (res : result unit) :
  (customer <- GetCustomer name email ;;
   CreateInvoiceAndPayment customer acct amount fee net description d) w = (w', res) ->
  ledger_kept 1 w w'.
Proof.
  unfold bind.
  destruct (GetCustomer name email w) as [w1 [c|e]] eqn:G;
    apply GetCustomer_cases in G.
  - rewrite CreateInvoiceAndPayment_run. intros H. inversion H.
    destruct G as [->| ->].
    + eapply (ledger_kept_appended 1 w _ _ _ []); appended.
    + eapply (ledger_kept_appended 1 w _ _ _ _); appended.
  - intros H. inversion H. subst. destruct G as [->| ->].
    + apply (ledger_kept_weaken 0); [lia|apply ledger_kept_refl].
    + eapply (ledger_kept_appended 1 w _ [] [] _); appended.
Qed.

Section Kept.

Context {lib : PyLib}.

Lemma court_refund_kept (cs_map : cs_map_t) (refund_detail amount fee net : string)
    (d : date) (w w' : World) (res : result unit) :
  court_refund cs_map refund_detail amount fee net d w = (w', res) ->
  ledger_kept 1 w w'.
Proof.
  destruct (match datetime_strptime refund_detail refund_format with
            | Some bd => refund_scan bd amount cs_map (None, None)
            | None => ret (None, None)
            end w) as [w1 r1] eqn:Scan.
  assert (w1 = w) as ->.
  { destruct (datetime_strptime refund_detail refund_format).
    - eapply refund_scan_world. exact Scan.
    - inversion Scan. reflexivity. }
  destruct r1 as [fees|e].
  - rewrite (court_refund_run _ _ _ _ _ _ _ _ Scan). intros H. inversion H.
    eapply (ledger_kept_appended 1 w _ _ _ []); appended.
  - unfold court_refund. unfold bind at 1. rewrite Scan. intros H. inversion H.
    apply (ledger_kept_weaken 0); [lia|apply ledger_kept_refl].
Qed.

Lemma ProcessStripePayments_row_kept (cs_map : cs_map_t) (loc : Locals)
    (row : StripeRow) (w w' : World) (res : result Locals) :
  ProcessStripePayments_row cs_map loc row w = (w', res) ->
  ledger_kept 1 w w'.
Proof.
  assert (ledger_kept 1 w w) as Same
    by (apply (ledger_kept_weaken 0); [lia|apply ledger_kept_refl]).
  unfold ProcessStripePayments_row. fold (rebind cs_map loc row).
  generalize (rebind cs_map loc row). intros loc1.
  unfold bind at 1.
  destruct (date_fromisoformat (split_space_0 (Available_On row))) as [d|]; simpl;
    [|intros H; inversion H; subst; exact Same].
  destruct (String.eqb (Description row) COURT_BOOKING).
  { apply court_payment_kept. }
  destruct (String.eqb (Type_ row) "payout").
  { intros H. apply then_ret_world in H. destruct H as [r H].
    rewrite DoStripeTransfer_run in H. inversion H.
    eapply (ledger_kept_appended 1 w _ [] _ []); appended. }
  destruct (startswith (Description row) REFUND_PREFIX).
  { destruct (String.eqb (re_sub false refund_pattern 1 (Description row)) COURT_BOOKING);
      intros H; apply then_ret_world in H; destruct H as [r H].
    - eapply court_refund_kept. exact H.
    - rewrite plain_refund_run in H. inversion H.
      eapply (ledger_kept_appended 1 w _ [] _ []); appended. }
  destruct (startswith (Description row) MEMBERSHIP_PREFIX).
  { intros H. apply then_ret_world in H. destruct H as [r H].
    unfold membership_payment in H. eapply customer_payment_kept. exact H. }
  destruct (startswith (Description row) EVENT_PREFIX).
  { intros H. apply then_ret_world in H. destruct H as [r H].
    unfold event_payment in H. eapply customer_payment_kept. exact H. }
  intros H. inversion H. subst. exact Same.
Qed.

Lemma ProcessStripePayments_loop_kept (cs_map : cs_map_t) (stripe_csv : list StripeRow) :
  forall (loc : Locals) (w w' : World) (res : result Locals),
    ProcessStripePayments_loop cs_map stripe_csv loc w = (w', res) ->
    ledger_kept (List.length stripe_csv) w w'.
Proof.
  induction stripe_csv as [|row rest IH]; intros loc w w' res H; simpl in H.
  - inversion H. subst. apply ledger_kept_refl.
  - unfold bind in H.
    destruct (ProcessStripePayments_row cs_map loc row w) as [w1 [loc1|e]] eqn:Step;
      apply ProcessStripePayments_row_kept in Step.
    + apply IH in H. exact (ledger_kept_trans 1 _ _ _ _ Step H).
    + inversion H. subst. eapply ledger_kept_weaken; [|exact Step]. simpl. lia.
Qed.

(** X12: a run of the reconciler only extends the ledger.  Whatever its
    outcome, the transactions and the customers the book held are as they
    were and in place, at most one transaction, one customer and one
    invoice per settlement row were appended, and an invoice the book
    held kept its identifier, owner, date, line items and posting: it
    gained payments at most. *)
Theorem reconciler_only_extends_ledger (stripe_csv : list StripeRow) (cs_map : cs_map_t)
    (w w' : World) (res : result unit) :
  ProcessStripePayments stripe_csv cs_map w = (w', res) ->
  (exists et, transactions (book w') = transactions (book w) ++ et /\
              List.length et <= List.length stripe_csv) /\
  (exists ec, customers (book w') = customers (book w) ++ ec /\
              List.length ec <= List.length stripe_csv) /\
  List.length (invoices (book w'))
    <= List.length (invoices (book w)) + List.length stripe_csv /\
  (forall i a, nth_error (invoices (book w)) i = Some a ->
     exists b, nth_error (invoices (book w')) i = Some b /\ invoice_kept a b).
Proof.
  intros H. unfold ProcessStripePayments in H. apply then_ret_world in H.
  destruct H as [r H]. apply ProcessStripePayments_loop_kept in H.
  destruct H as (T & C & I & Ik & _). auto.
Qed.

(** X13: a run of the reconciler keeps the booking rows.  Whatever its
    outcome, the store holds the same row objects, each with the cells
    and the invoice it had; the allocated flag of a row is as it was or
    went from unset to set: an allocated row stays allocated, and a row
    without the flag never gets one. *)
Theorem reconciler_keeps_booking_rows (stripe_csv : list StripeRow) (cs_map : cs_map_t)
    (w w' : World) (res : result unit) :
  ProcessStripePayments stripe_csv cs_map w = (w', res) ->
  List.length (heap w') = List.length (heap w) /\
  (forall r x, nth_error (heap w) r = Some x ->
     exists x', nth_error (heap w') r = Some x' /\ row_kept x x') /\
  (forall r x, nth_error (heap w) r = Some x -> row_Allocated x = Some true ->
     exists x', nth_error (heap w') r = Some x' /\ row_Allocated x' = Some true) /\
  (forall r x, nth_error (heap w) r = Some x -> row_Allocated x = None ->
     exists x', nth_error (heap w') r = Some x' /\ row_Allocated x' = None).
Proof.
  intros H. unfold ProcessStripePayments in H. apply then_ret_world in H.
  destruct H as [r0 H]. apply ProcessStripePayments_loop_kept in H.
  destruct H as (_ & _ & _ & _ & L & K).
  split; [exact L|]. split; [exact K|]. split.
  - intros r x Hx Ha. destruct (K r x Hx) as (x' & Hx' & _ & _ & [E|[E _]]).
    + exists x'. split; [exact Hx'|congruence].
    + congruence.
  - intros r x Hx Ha. destruct (K r x Hx) as (x' & Hx' & _ & _ & [E|[E _]]).
    + exists x'. split; [exact Hx'|congruence].
    + congruence.
Qed.

End Kept.

Lemma reconciler_only_extends_ledger_witness :
  (exists et, transactions (book reconciled_world)
              = transactions (book imported_world) ++ et /\ List.length et <= 2) /\
  (exists ec, customers (book reconciled_world)
              = customers (book imported_world) ++ ec /\ List.length ec <= 2) /\
  List.length (invoices (book reconciled_world))
    <= List.length (invoices (book imported_world)) + 2 /\
  (forall i a, nth_error (invoices (book imported_world)) i = Some a ->
     exists b, nth_error (invoices (book reconciled_world)) i = Some b /\
               invoice_kept a b).
Proof.
  exact (reconciler_only_extends_ledger (lib := feed_lib)
           [court_payment_row "Jane" "Doe"; court_payment_row "Jane" "Doe"]
           imported_map imported_world reconciled_world (Ok tt)
           ltac:(vm_compute; reflexivity)).
Defined.

Lemma reconciler_keeps_booking_rows_witness :
  List.length (heap reconciled_world) = List.length (heap imported_world) /\
  (forall r x, nth_error (heap imported_world) r = Some x ->
     exists x', nth_error (heap reconciled_world) r = Some x' /\ row_kept x x').
Proof.
  pose proof (reconciler_keeps_booking_rows (lib := feed_lib)
                [court_payment_row "Jane" "Doe"; court_payment_row "Jane" "Doe"]
                imported_map imported_world reconciled_world (Ok tt)
                ltac:(vm_compute; reflexivity)) as (L & K & _).
  split; [exact L|exact K].
Defined.

(** ** What a run of the importer keeps *)

Section ImportKeeps.

Context {lib : PyLib}.

Lemma EnterBacInvoices_loop_keeps (cs_csv : list BookingCsv) :
  forall (cs_map cs_map' : cs_map_t) (w w' : World),
    EnterBacInvoices_loop cs_csv cs_map w = (w', Ok cs_map') ->
    transactions (book w') = transactions (book w) /\
    customers (book w') = customers (book w) /\
    stdout w' = stdout w /\
    (exists ei, invoices (book w') = invoices (book w) ++ ei /\
                Forall booking_invoice_shape ei) /\
    (exists rows, heap w' = heap w ++ rows).
Proof.
  induction cs_csv as [|c rest IH]; intros cs_map cs_map' w w' H; simpl in H.
  - inversion H; subst. repeat split.
    + exists []. rewrite app_nil_r. split; [reflexivity|constructor].
    + exists []. rewrite app_nil_r. reflexivity.
  - unfold bind in H.
    destruct (EnterBacInvoices_row cs_map c w) as [w1 [cs_map1|e]] eqn:Step;
      [|discriminate].
    apply EnterBacInvoices_row_ok in Step.
    apply IH in H. destruct H as (T & C & O & (ei & I & Sh) & (rows & Hh)).
    destruct Step as [_ [[_ ->]|[_ (d & entries & _ & ->)]]]; simpl in *.
    + repeat split; try assumption.
      * exists ei. split; assumption.
      * exists (mkBookingRow c None None :: rows). rewrite Hh, <- app_assoc. reflexivity.
    + repeat split; try assumption.
      * exists (booking_invoice (book w) d entries :: ei).
        rewrite I, <- app_assoc. split; [reflexivity|].
        constructor; [|exact Sh].
        unfold booking_invoice_shape, booking_invoice. simpl.
        repeat split. exists d. split; reflexivity.
      * eexists. rewrite Hh, <- app_assoc. reflexivity.
Qed.

(** X14: a run of the importer that returns only adds posted invoices
    and row objects.  The transactions, the customers and the output are
    as they were (the diagnostic for a row without player name is never
    printed); the invoices the book held are as they were and in place,
    and each invoice added is in the ledger currency, dated, posted to
    receivables on its date with automatic payment off, not a credit
    note, and without payment. *)
Theorem importer_only_adds_invoices (cs_csv : list BookingCsv) (w w' : World)
    (cs_map : cs_map_t) :
  EnterBacInvoices cs_csv w = (w', Ok cs_map) ->
  transactions (book w') = transactions (book w) /\
  customers (book w') = customers (book w) /\
  stdout w' = stdout w /\
  (exists ei, invoices (book w') = invoices (book w) ++ ei /\
              Forall booking_invoice_shape ei) /\
  (exists rows, heap w' = heap w ++ rows).
Proof.
  intros H. unfold EnterBacInvoices in H. eapply EnterBacInvoices_loop_keeps. exact H.
Qed.

End ImportKeeps.

Lemma importer_only_adds_invoices_witness :
  transactions (book imported_world) = transactions (book sample_world) /\
  customers (book imported_world) = customers (book sample_world) /\
  stdout imported_world = stdout sample_world /\
  (exists ei, invoices (book imported_world) = invoices (book sample_world) ++ ei /\
              Forall booking_invoice_shape ei) /\
  (exists rows, heap imported_world = heap sample_world ++ rows).
Proof.
  exact (importer_only_adds_invoices (lib := feed_lib) [jane_booking] sample_world
           imported_world imported_map ltac:(vm_compute; reflexivity)).
Defined.

(** ** Substitution and the refunded item *)

Lemma append_nil_r (s : string) : (s ++ "")%string = s.
Proof.
  induction s as [|c s IH]; simpl; [reflexivity|]. now rewrite IH.
Qed.

Lemma substring_prefix (a b : string) :
  substring 0 (String.length a) (a ++ b) = a.
Proof.
  induction a as [|c a IH]; simpl.
  - destruct b; reflexivity.
  - now rewrite IH.
Qed.

Lemma length_append (a b : string) :
  String.length (a ++ b) = String.length a + String.length b.
Proof.
  induction a as [|c a IH]; simpl; [reflexivity|]. now rewrite IH.
Qed.

Lemma match_here_lit_app (p : string) (re : regex) (s : string)
    (opened caps : list string) :
  match_here false (lit p ++ re) (p ++ s) opened caps = match_here false re s opened caps.
Proof.
  induction p as [|c p IH]; simpl.
  - reflexivity.
  - unfold chr_eq. rewrite Ascii.eqb_refl. exact IH.
Qed.

Lemma match_here_star_cons (ic : bool) (k : charclass) (re : regex) (c : ascii)
    (s : string) (opened caps : list string) :
  match_here ic (Star k :: re) (String c s) opened caps =
    if in_class ic k c then
      match match_here ic (Star k :: re) s opened caps with
      | Some r => Some r
      | None => match_here ic re (String c s) opened caps
      end
    else match_here ic re (String c s) opened caps.
Proof. reflexivity. Qed.

(** The greedy group of any characters, before a closing parenthesis that
    ends a text of one line, captures all the text before it. *)
Lemma match_here_group_to_paren (s0 : string) (caps : list string) (t : string) :
  one_line t = true ->
  match_here false [Star AnyChar; GroupClose; Lit ")"] (t ++ ")") [s0] caps =
    Some (caps ++ [substring 0 (String.length s0 - 1) s0], ""%string).
Proof.
  induction t as [|c t IH]; intros L.
  - reflexivity.
  - simpl in L. apply andb_true_iff in L. destruct L as [Lc Lt].
    change (String c t ++ ")")%string with (String c (t ++ ")")).
    rewrite match_here_star_cons. simpl in_class. rewrite Lc.
    rewrite (IH Lt). reflexivity.
Qed.

Lemma re_sub_aux_empty (n : nat) (ic : bool) (re : regex) (g : nat) :
  match_here ic re "" [] [] = None -> re_sub_aux n ic re g "" = ""%string.
Proof.
  intros H. destruct n; simpl; [reflexivity|]. rewrite H. reflexivity.
Qed.

Lemma re_sub_aux_no_match (ic : bool) (re : regex) (g : nat) (s : string) :
  re_search ic re s = false -> forall n, re_sub_aux n ic re g s = s.
Proof.
  induction s as [|c s IH]; intros H n; simpl in H.
  - destruct n; simpl; [reflexivity|].
    destruct (match_here ic re "" [] []); [discriminate|reflexivity].
  - destruct n; simpl; [reflexivity|].
    destruct (match_here ic re (String c s) [] []); [discriminate|].
    rewrite (IH H). reflexivity.
Qed.

Lemma re_sub_aux_step (n : nat) (ic : bool) (re : regex) (g : nat) (s : string)
    (caps : list string) (rest : string) :
  match_here ic re s [] [] = Some (caps, rest) ->
  (String.length rest <? String.length s)%nat = true ->
  re_sub_aux (S n) ic re g s = (nth (g - 1) caps "" ++ re_sub_aux n ic re g rest)%string.
Proof.
  intros M L. cbn [re_sub_aux]. rewrite M, L. reflexivity.
Qed.

(** X15: the item a refund refers to.  For a description that is the
    refund prefix, a space, and an item of one line between parentheses,
    the substitution that extracts the item returns exactly the item,
    also when the item itself holds parentheses.  In general a
    substitution over a text in which the search of its pattern finds
    nothing returns the text as it is. *)
Theorem refund_item_extracted :
  (forall item : string,
      one_line item = true ->
      re_sub false refund_pattern 1 (REFUND_PREFIX ++ " (" ++ item ++ ")") = item) /\
  (forall (ic : bool) (re : regex) (g : nat) (s : string),
      re_search ic re s = false -> re_sub ic re g s = s).
Proof.
  split.
  - intros item L. unfold re_sub.
    change (REFUND_PREFIX ++ " (" ++ item ++ ")")%string
      with ("REFUND FOR CHARGE (" ++ (item ++ ")"))%string.
    set (s := ("REFUND FOR CHARGE (" ++ (item ++ ")"))%string).
    assert (match_here false refund_pattern s [] [] = Some ([item], ""%string)) as M.
    { change refund_pattern
        with (lit "REFUND FOR CHARGE (" ++ [GroupOpen; Star AnyChar; GroupClose; Lit ")"]).
      unfold s. rewrite match_here_lit_app.
      change (match_here false [GroupOpen; Star AnyChar; GroupClose; Lit ")"]
                (item ++ ")") [] [])
        with (match_here false [Star AnyChar; GroupClose; Lit ")"]
                (item ++ ")") [(item ++ ")")%string] []).
      rewrite (match_here_group_to_paren _ _ _ L). simpl app.
      rewrite length_append. simpl String.length.
      replace (String.length item + 1 - 1) with (String.length item) by lia.
      rewrite substring_prefix. reflexivity. }
    rewrite (re_sub_aux_step _ _ _ _ _ _ _ M).
    + rewrite re_sub_aux_empty by reflexivity. apply append_nil_r.
    + apply Nat.ltb_lt. unfold s. rewrite length_append. simpl. lia.
  - intros ic re g s H. unfold re_sub. apply re_sub_aux_no_match. exact H.
Qed.

Lemma refund_item_extracted_witness :
  re_sub false refund_pattern 1 (REFUND_PREFIX ++ " (" ++ "Clinic (juniors)" ++ ")")
    = "Clinic (juniors)"%string /\
  re_sub false membership_item_pattern 1
    "Coburg Tennis Club:2021 Adult Half Year Membership"
    = "Coburg Tennis Club:2021 Adult Half Year Membership"%string.
Proof.
  split.
  - exact (proj1 refund_item_extracted "Clinic (juniors)" eq_refl).
  - exact (proj2 refund_item_extracted false membership_item_pattern 1
             "Coburg Tennis Club:2021 Adult Half Year Membership"
             ltac:(vm_compute; reflexivity)).
Defined.

(** ** Membership and event payments *)

Lemma event_is_not_membership (description : string) :
  startswith description EVENT_PREFIX = true ->
  startswith description MEMBERSHIP_PREFIX = false.
Proof.
  unfold startswith. intros E.
  destruct (String.prefix MEMBERSHIP_PREFIX description) eqn:M; [|reflexivity].
  apply String.prefix_correct in E, M.
  change (String.length EVENT_PREFIX) with 19 in E.
  change (String.length MEMBERSHIP_PREFIX) with 19 in M.
  rewrite E in M. discriminate M.
Qed.

Lemma substring_substring (n m : nat) (s : string) :
  n <= m -> substring 0 n (substring 0 m s) = substring 0 n s.
Proof.
  revert m s. induction n as [|n IH]; intros m s L.
  - destruct (substring 0 m s); destruct s; reflexivity.
  - destruct m as [|m]; [lia|]. destruct s as [|c s]; simpl; [reflexivity|].
    rewrite IH by lia. reflexivity.
Qed.

Section CustomerPayments.

Context {lib : PyLib}.
Variables (cs_map : cs_map_t) (loc : Locals) (row : StripeRow) (d : date) (w : World).
Hypothesis available_on : date_fromisoformat (split_space_0 (Available_On row)) = Some d.
Hypothesis not_payout : Type_ row <> "payout".

(** X16: membership and event payments.  A row that is not a payout and
    whose description starts with the membership prefix resolves, or
    creates, the customer whose name and email the membership text
    holds, and a row whose description starts with the event prefix the
    customer named and mailed as the payer; the row then posts one
    invoice of that customer to receivables, with a single line item
    priced at the amount against the membership account of the
    membership text, or the event account of the category (of the course
    name when the category reads Custom), and applies one payment
    transaction to it, with the fee recorded when the fee cell is not
    empty. *)
Theorem customer_payment_rows (w1 : World) (customer : nat) :
  (startswith (Description row) MEMBERSHIP_PREFIX = true ->
   GetCustomer (re_sub false customer_name_pattern 1 (Membership row))
     (re_sub false customer_email_pattern 2 (Membership row)) w = (w1, Ok customer) ->
   ProcessStripePayments_row cs_map loc row w =
     (invoiced_customer_world w1 customer (GetMembershipAcct (Membership row))
        (Amount row) (Fee row) (Net row)
        (re_sub false membership_item_pattern 1 (Description row)) d,
      Ok (rebind cs_map loc row))) /\
  (startswith (Description row) EVENT_PREFIX = true ->
   GetCustomer (player_name_of row) (Email_address row) w = (w1, Ok customer) ->
   ProcessStripePayments_row cs_map loc row w =
     (invoiced_customer_world w1 customer (GetEventAcct (event_detail_of row))
        (Amount row) (Fee row) (Net row) (event_detail_of row) d,
      Ok (rebind cs_map loc row))).
Proof.
  assert (forall p, String.length p = 19 ->
            startswith (Description row) p = true ->
            substring 0 19 COURT_BOOKING <> p ->
            substring 0 17 p <> REFUND_PREFIX ->
            String.eqb (Description row) COURT_BOOKING = false /\
            startswith (Description row) REFUND_PREFIX = false) as Other.
  { intros p Lp Hp NC NR. unfold startswith in *.
    apply String.prefix_correct in Hp. rewrite Lp in Hp. split.
    - apply String.eqb_neq. intros E. rewrite E in Hp. contradiction.
    - destruct (String.prefix REFUND_PREFIX (Description row)) eqn:R; [|reflexivity].
      apply String.prefix_correct in R. change (String.length REFUND_PREFIX) with 17 in R.
      exfalso. apply NR. rewrite <- Hp.
      rewrite substring_substring by lia. exact R. }
  apply String.eqb_neq in not_payout.
  split; intros HP G.
  - destruct (Other MEMBERSHIP_PREFIX eq_refl HP) as [HD HR];
      [vm_compute; discriminate|vm_compute; discriminate|].
    unfold ProcessStripePayments_row. rewrite available_on.
    unfold bind at 1. simpl. fold (rebind cs_map loc row).
    rewrite HD, not_payout, HR, HP.
    unfold bind at 1. unfold membership_payment. unfold bind at 1.
    rewrite G. rewrite CreateInvoiceAndPayment_run. reflexivity.
  - destruct (Other EVENT_PREFIX eq_refl HP) as [HD HR];
      [vm_compute; discriminate|vm_compute; discriminate|].
    unfold ProcessStripePayments_row. rewrite available_on.
    unfold bind at 1. simpl. fold (rebind cs_map loc row).
    rewrite HD, not_payout, HR, (event_is_not_membership _ HP), HP.
    unfold bind at 1. unfold event_payment. unfold bind at 1.
    fold (event_detail_of row). rewrite G. rewrite CreateInvoiceAndPayment_run.
    reflexivity.
Qed.

End CustomerPayments.

Lemma customer_payment_rows_witness :
  ProcessStripePayments_row (lib := feed_lib) imported_map (mkLocals None None)
    membership_row imported_world =
  (invoiced_customer_world
     (customer_created_world imported_world "Greg Armstrong" "greg@example.org") 1
     ["Income"; "Memberships"; "Individual"] "90.00" "1.50" "88.50"
     "Coburg Tennis Club:2021 Adult Half Year Membership" (mkDate 2021 10 20),
   Ok (mkLocals None None)) /\
  ProcessStripePayments_row (lib := feed_lib) imported_map (mkLocals None None)
    event_row imported_world =
  (invoiced_customer_world
     (customer_created_world imported_world "Greg Armstrong" "greg@example.org") 1
     ["Income"; "Fundraising"; "Bingo"] "15.00" "0.60" "14.40"
     "Friday Bingo Night" (mkDate 2021 10 20),
   Ok (mkLocals None None)).
Proof.
  split.
  - apply (proj1 (customer_payment_rows (lib := feed_lib) imported_map
                    (mkLocals None None) membership_row (mkDate 2021 10 20)
                    imported_world eq_refl ltac:(discriminate)
                    (customer_created_world imported_world "Greg Armstrong"
                       "greg@example.org") 1)).
    + reflexivity.
    + vm_compute. reflexivity.
  - apply (proj2 (customer_payment_rows (lib := feed_lib) imported_map
                    (mkLocals None None) event_row (mkDate 2021 10 20)
                    imported_world eq_refl ltac:(discriminate)
                    (customer_created_world imported_world "Greg Armstrong"
                       "greg@example.org") 1)).
    + reflexivity.
    + vm_compute. reflexivity.
Defined.

(** ** Rows the reconciler can rely on *)

Lemma player_name_not_sentinel (row : StripeRow) : player_name_of row <> NO_NAME_ENTRY.
Proof.
  unfold player_name_of. cbv zeta.
  match goal with
  | |- (if truthy (?a ++ " " ++ ?b) then _ else _) <> _ =>
      rewrite (truthy_player_name a b); intros H;
      pose proof (has_space_player_name a b) as S; rewrite H in S
  end.
  vm_compute in S. discriminate S.
Qed.

Lemma buckets_filled_initial : buckets_filled [(NO_NAME_ENTRY, [])].
Proof.
  intros key l Hk N. cbn [cs_get] in Hk.
  destruct (String.eqb NO_NAME_ENTRY key) eqn:E.
  - apply String.eqb_eq in E. congruence.
  - discriminate.
Qed.

Lemma buckets_filled_file_row (cs_map : cs_map_t) (key : string) (r : nat) :
  buckets_filled cs_map -> buckets_filled (file_row cs_map key r).
Proof.
  intros F key' l H N. destruct (String.eqb key key') eqn:E.
  - apply String.eqb_eq in E. subst key'.
    destruct (file_row_same cs_map key r) as (l' & Hl' & Hin).
    rewrite Hl' in H. inversion H; subst l'. intros ->. destruct Hin.
  - apply String.eqb_neq in E. rewrite file_row_other in H by exact E.
    eapply F; eassumption.
Qed.

Lemma allocate_loop_raises (trans : nat) (amount fee net : string) (d : date)
    (l : list nat) :
  forall (pr : option nat) (w w' : World) (e : exn),
    allocate_loop trans amount fee net d l pr w = (w', Raise e) ->
    e = KeyError "Allocated" \/
    (e = KeyError "Invoice" /\
     exists r, row_Allocated (nth r (heap w) empty_row) = Some false /\
               row_Invoice (nth r (heap w) empty_row) = None).
Proof.
  induction l as [|r l IH]; intros pr w w' e H; simpl in H.
  - discriminate.
  - unfold bind at 1 in H. unfold get_row at 1 in H.
    unfold bind at 1 in H.
    destruct (String.eqb (Total_Fee (row_csv (nth r (heap w) empty_row))) amount) eqn:Et.
    + unfold bind at 1 in H.
      destruct (row_Allocated (nth r (heap w) empty_row)) as [[|]|] eqn:Ea;
        simpl in H.
      * eapply IH. exact H.
      * unfold bind at 1 in H.
        destruct (row_Invoice (nth r (heap w) empty_row)) as [inv|] eqn:Ei; simpl in H.
        -- exfalso. destruct w as [[invs txs custs ic cc] hp out].
           unfold RecordStripeFee in H.
           destruct (truthy fee); revert H; ledger_run; discriminate.
        -- inversion H; subst. right. split; [reflexivity|]. exists r. auto.
      * inversion H. left. reflexivity.
    + simpl in H. eapply IH. exact H.
Qed.

Lemma allocate_loop_no_hit (trans : nat) (amount fee net : string) (d : date)
    (l : list nat) :
  forall (pr prow : option nat) (w w' : World),
    allocate_loop trans amount fee net d l pr w = (w', Ok (prow, false)) ->
    prow = last_row l pr.
Proof.
  induction l as [|r l IH]; intros pr prow w w' H; simpl in H.
  - inversion H. reflexivity.
  - unfold bind at 1 in H. unfold get_row at 1 in H.
    unfold bind at 1 in H.
    destruct (String.eqb (Total_Fee (row_csv (nth r (heap w) empty_row))) amount) eqn:Et.
    + unfold bind at 1 in H.
      destruct (row_Allocated (nth r (heap w) empty_row)) as [[|]|] eqn:Ea;
        simpl in H.
      * eapply IH. exact H.
      * unfold bind at 1 in H.
        destruct (row_Invoice (nth r (heap w) empty_row)) as [inv|] eqn:Ei; simpl in H.
        -- exfalso. destruct w as [[invs txs custs ic cc] hp out].
           unfold RecordStripeFee in H.
           destruct (truthy fee); revert H; ledger_run; discriminate.
        -- discriminate.
      * discriminate.
    + simpl in H. eapply IH. exact H.
Qed.

Lemma last_row_bound (l : list nat) (pr : option nat) :
  l <> [] -> exists r, last_row l pr = Some r.
Proof.
  revert pr. induction l as [|x l IH]; intros pr N; [contradiction|].
  simpl. destruct l as [|y l].
  - exists x. reflexivity.
  - apply IH. discriminate.
Qed.

Lemma court_payment_raises (loc : Locals) (player_name amount fee net description : string)
    (d : date) (w w' : World) (e : exn) :
  bound_to_rows loc ->
  Forall flag_with_invoice (heap w) ->
  court_payment loc player_name amount fee net description d w = (w', Raise e) ->
  e <> UnboundLocalError "player_row" /\ e <> KeyError "Invoice".
Proof.
  intros B F. unfold court_payment. unfold bind at 1. rewrite MakeStripePayment_run.
  unfold bind at 1.
  destruct (player_list loc) as [l|] eqn:El; simpl.
  - unfold bind at 1.
    match goal with
    | |- context [allocate_loop ?t ?a ?f ?n ?dd ?ll ?pr ?ww] =>
        destruct (allocate_loop t a f n dd ll pr ww) as [w2 res0] eqn:Loop
    end.
    destruct res0 as [[prow allocated]|e0].
    + destruct allocated; simpl; [discriminate|].
      apply allocate_loop_no_hit in Loop.
      destruct (last_row_bound l (player_row loc) (B l El)) as [r Hr].
      rewrite Loop, Hr. simpl. unfold bind, get_row, print, ret. discriminate.
    + intros H. inversion H; subst e0. apply allocate_loop_raises in Loop.
      destruct Loop as [->|[-> (r & Ha & Hi)]].
      * split; discriminate.
      * exfalso. simpl in Ha, Hi.
        pose proof (flagged_row_in_store _ _ _ Ha) as Hr.
        apply nth_error_In in Hr.
        rewrite Forall_forall in F. apply (F _ Hr); [congruence|exact Hi].
  - intros H. inversion H. split; discriminate.
Qed.

Lemma then_ret_raises {A B : Type} (m : M A) (b : B) (w w' : World) (e : exn) :
  (m ;; ret b) w = (w', Raise e) -> m w = (w', Raise e).
Proof.
  unfold bind, ret. destruct (m w) as [w1 [a|e1]]; intros H; inversion H; reflexivity.
Qed.

Lemma customer_payment_returns (name email : string) (acct : account)
    (amount fee net description : string) (d : date) (w w' : World) (e : exn) :
  (customer <- GetCustomer name email ;;
   CreateInvoiceAndPayment customer acct amount fee net description d) w
    <> (w', Raise e).
Proof.
  unfold bind at 1.
  assert (exists w1 c, GetCustomer name email w = (w1, Ok c)) as (w1 & c & G).
  { unfold GetCustomer, bind, get_book, CustomerNextID, ret.
    destruct (find_index (fun c => String.eqb (cust_name c) name)
                (customers (book w)) 0); eauto. }
  rewrite G. rewrite CreateInvoiceAndPayment_run. discriminate.
Qed.

Lemma ledger_kept_flags (n : nat) (w w' : World) :
  ledger_kept n w w' ->
  Forall flag_with_invoice (heap w) -> Forall flag_with_invoice (heap w').
Proof.
  intros (_ & _ & _ & _ & L & K) F. rewrite Forall_forall in *. intros x' Hx'.
  apply In_nth_error in Hx'. destruct Hx' as [r Hr].
  assert (r < List.length (heap w)) as Lr.
  { rewrite <- L. apply nth_error_Some. rewrite Hr. discriminate. }
  destruct (nth_error (heap w) r) as [x|] eqn:Ex;
    [|apply nth_error_None in Ex; lia].
  destruct (K r x Ex) as (y & Hy & _ & Ki & Ka).
  assert (y = x') as -> by congruence.
  pose proof (F x (nth_error_In _ _ Ex)) as Fx.
  unfold flag_with_invoice in *. intros Hflag. rewrite Ki. apply Fx.
  destruct Ka as [Ka|[Ka _]]; congruence.
Qed.

Section UsableRows.

Context {lib : PyLib}.

Lemma refund_scan_bucket_raises (bd : datetime) (amount : string) (l : list nat) :
  forall (fees : option string * option string) (w w' : World) (e : exn),
    refund_scan_bucket bd amount l fees w = (w', Raise e) -> e = ValueError.
Proof.
  induction l as [|r l IH]; intros fees w w' e H; simpl in H.
  - discriminate.
  - unfold bind, get_row in H.
    destruct (datetime_strptime _ booking_format) as [t|]; simpl in H.
    + destruct (datetime_eqb t bd && _)%bool; eapply IH; exact H.
    + inversion H. reflexivity.
Qed.

Lemma court_refund_raises (cs_map : cs_map_t) (refund_detail amount fee net : string)
    (d : date) (w w' : World) (e : exn) :
  court_refund cs_map refund_detail amount fee net d w = (w', Raise e) -> e = ValueError.
Proof.
  destruct (match datetime_strptime refund_detail refund_format with
            | Some bd => refund_scan bd amount cs_map (None, None)
            | None => ret (None, None)
            end w) as [w1 r1] eqn:Scan.
  destruct r1 as [fees|e1].
  - assert (w1 = w) as ->.
    { destruct (datetime_strptime refund_detail refund_format).
      - eapply refund_scan_world. exact Scan.
      - inversion Scan. reflexivity. }
    rewrite (court_refund_run _ _ _ _ _ _ _ _ Scan). discriminate.
  - unfold court_refund. unfold bind at 1. rewrite Scan. intros H. inversion H; subst e1.
    destruct (datetime_strptime refund_detail refund_format) as [bd|];
      [|discriminate].
    rewrite refund_scan_flat in Scan. eapply refund_scan_bucket_raises. exact Scan.
Qed.

Lemma ProcessStripePayments_row_raises (cs_map : cs_map_t) (loc : Locals)
    (row : StripeRow) (w w' : World) (e : exn) :
  buckets_filled cs_map ->
  bound_to_rows loc ->
  Forall flag_with_invoice (heap w) ->
  ProcessStripePayments_row cs_map loc row w = (w', Raise e) ->
  e <> UnboundLocalError "player_row" /\ e <> KeyError "Invoice".
Proof.
  intros Fm B F.
  assert (bound_to_rows (rebind cs_map loc row)) as B1.
  { unfold rebind. destruct (cs_get cs_map (player_name_of row)) as [l|] eqn:E.
    - intros l' Hl'. simpl in Hl'. inversion Hl'; subst l'.
      eapply Fm; [exact E|apply player_name_not_sentinel].
    - exact B. }
  unfold ProcessStripePayments_row. fold (rebind cs_map loc row).
  revert B1. generalize (rebind cs_map loc row). intros loc1 B1.
  unfold bind at 1.
  destruct (date_fromisoformat (split_space_0 (Available_On row))) as [d|]; simpl;
    [|intros H; inversion H; split; discriminate].
  destruct (String.eqb (Description row) COURT_BOOKING).
  { apply court_payment_raises; assumption. }
  destruct (String.eqb (Type_ row) "payout").
  { intros H. apply then_ret_raises in H. rewrite DoStripeTransfer_run in H.
    discriminate. }
  destruct (startswith (Description row) REFUND_PREFIX).
  { destruct (String.eqb (re_sub false refund_pattern 1 (Description row)) COURT_BOOKING);
      intros H; apply then_ret_raises in H.
    - apply court_refund_raises in H. subst e. split; discriminate.
    - rewrite plain_refund_run in H. discriminate. }
  destruct (startswith (Description row) MEMBERSHIP_PREFIX).
  { intros H. apply then_ret_raises in H. unfold membership_payment in H.
    exfalso. eapply customer_payment_returns. exact H. }
  destruct (startswith (Description row) EVENT_PREFIX).
  { intros H. apply then_ret_raises in H. unfold event_payment in H.
    exfalso. eapply customer_payment_returns. exact H. }
  discriminate.
Qed.

Lemma ProcessStripePayments_loop_raises (cs_map : cs_map_t) (stripe_csv : list StripeRow) :
  forall (loc : Locals) (w w' : World) (e : exn),
    buckets_filled cs_map ->
    bound_to_rows loc ->
    Forall flag_with_invoice (heap w) ->
    ProcessStripePayments_loop cs_map stripe_csv loc w = (w', Raise e) ->
    e <> UnboundLocalError "player_row" /\ e <> KeyError "Invoice".
Proof.
  induction stripe_csv as [|row rest IH]; intros loc w w' e Fm B F H; simpl in H.
  - discriminate.
  - unfold bind in H.
    destruct (ProcessStripePayments_row cs_map loc row w) as [w1 [loc1|e1]] eqn:Step.
    + eapply (IH loc1 w1); try eassumption.
      * intros l Hl. rewrite (row_player_list _ _ _ _ _ _ Step) in Hl.
        unfold rebind in Hl.
        destruct (cs_get cs_map (player_name_of row)) as [l0|] eqn:E.
        -- simpl in Hl. inversion Hl; subst l0.
           eapply Fm; [exact E|apply player_name_not_sentinel].
        -- eapply B. exact Hl.
      * eapply ledger_kept_flags; [|exact F].
        eapply ProcessStripePayments_row_kept. exact Step.
    + inversion H; subst e1.
      eapply ProcessStripePayments_row_raises; eassumption.
Qed.

Lemma EnterBacInvoices_loop_ready (cs_csv : list BookingCsv) :
  forall (cs_map cs_map' : cs_map_t) (w w' : World),
    buckets_filled cs_map ->
    Forall flag_with_invoice (heap w) ->
    EnterBacInvoices_loop cs_csv cs_map w = (w', Ok cs_map') ->
    buckets_filled cs_map' /\ Forall flag_with_invoice (heap w').
Proof.
  induction cs_csv as [|c rest IH]; intros cs_map cs_map' w w' Fm F H; simpl in H.
  - inversion H; subst. split; assumption.
  - unfold bind in H.
    destruct (EnterBacInvoices_row cs_map c w) as [w1 [cs_map1|e]] eqn:Step;
      [|discriminate].
    apply EnterBacInvoices_row_ok in Step.
    eapply IH; [| |exact H].
    + destruct Step as [-> _]. apply buckets_filled_file_row. exact Fm.
    + destruct Step as [_ [[_ ->]|[_ (d & entries & _ & ->)]]]; simpl;
        apply Forall_app; (split; [exact F|]); constructor; try constructor;
        unfold flag_with_invoice; simpl; congruence.
Qed.

(** X17: what the reconciler can rely on in the rows of the importer.
    When the importer, started without booking rows, returns an index,
    every bucket of the index but the sentinel one holds a row, and every
    booking row that has the allocated flag has an invoice.  The
    reconciler keeps both, whatever its outcome.  So a run over that index
    never ends in the unbound variable [player_row], the diagnostic of a
    payment without open row having a last row to report, nor in the
    missing key [Invoice], a payment being applied only to a row with the
    flag. *)
Theorem imported_rows_are_usable (cs_csv : list BookingCsv) (stripe_csv : list StripeRow)
    (w0 w1 w : World) (cs_map : cs_map_t) (res : result unit) :
  heap w0 = [] ->
  EnterBacInvoices cs_csv w0 = (w1, Ok cs_map) ->
  ProcessStripePayments stripe_csv cs_map w1 = (w, res) ->
  buckets_filled cs_map /\
  Forall flag_with_invoice (heap w1) /\
  Forall flag_with_invoice (heap w) /\
  res <> Raise (UnboundLocalError "player_row") /\
  res <> Raise (KeyError "Invoice").
Proof.
  intros H0 Import Run. unfold EnterBacInvoices in Import.
  assert (Forall flag_with_invoice (heap w0)) as F0 by (rewrite H0; constructor).
  destruct (EnterBacInvoices_loop_ready _ _ _ _ _
              buckets_filled_initial F0 Import) as [Fm F].
  unfold ProcessStripePayments in Run. unfold bind at 1 in Run.
  destruct (ProcessStripePayments_loop cs_map stripe_csv (mkLocals None None) w1)
    as [w2 [loc|e]] eqn:Loop.
  - inversion Run; subst w2 res.
    split; [exact Fm|]. split; [exact F|]. split.
    + eapply ledger_kept_flags; [|exact F].
      eapply ProcessStripePayments_loop_kept. exact Loop.
    + split; discriminate.
  - inversion Run; subst w2 res.
    split; [exact Fm|]. split; [exact F|]. split.
    + eapply ledger_kept_flags; [|exact F].
      eapply ProcessStripePayments_loop_kept. exact Loop.
    + assert (bound_to_rows (mkLocals None None)) as B0
        by (intros l Hl; discriminate Hl).
      destruct (ProcessStripePayments_loop_raises _ _ _ _ _ _ Fm B0 F Loop)
        as [N1 N2].
      split; intros E; inversion E; subst e; [apply N1|apply N2]; reflexivity.
Qed.

End UsableRows.

Lemma imported_rows_are_usable_witness :
  buckets_filled imported_map /\
  Forall flag_with_invoice (heap imported_world) /\
  Forall flag_with_invoice
    (heap (fst (ProcessStripePayments (lib := feed_lib) [court_payment_row "Jane" "Doe"]
                  imported_map imported_world))) /\
  snd (ProcessStripePayments (lib := feed_lib) [court_payment_row "Jane" "Doe"]
         imported_map imported_world) <> Raise (UnboundLocalError "player_row") /\
  snd (ProcessStripePayments (lib := feed_lib) [court_payment_row "Jane" "Doe"]
         imported_map imported_world) <> Raise (KeyError "Invoice").
Proof.
  exact (imported_rows_are_usable (lib := feed_lib) [jane_booking]
           [court_payment_row "Jane" "Doe"] sample_world imported_world
           (fst (ProcessStripePayments (lib := feed_lib) [court_payment_row "Jane" "Doe"]
                   imported_map imported_world))
           imported_map
           (snd (ProcessStripePayments (lib := feed_lib) [court_payment_row "Jane" "Doe"]
                   imported_map imported_world))
           eq_refl ltac:(vm_compute; reflexivity) (surjective_pairing _)).
Defined.
